(** * Clarity.fm automation client: a shallow embedding

    The definitions below follow [scripts/clarity-client.ts] and
    [scripts/budget-tracker.ts].

    Conventions of the embedding.
    - JavaScript strings are byte strings; letter case and white space
      are those of ASCII.
    - Where a result depends on how an arithmetic operation rounds (the
      value score as a function of its arguments, the budget ledger),
      JavaScript numbers are IEEE 754 doubles ([Double.double], the
      binary64 instance of the Standard Library's [SpecFloat]).
    - Where numbers are read off a page and only compared, ordered or
      tested for their sign (the search, the profile view, the booking
      form), they are [number]: [NaN] or the exact rational that the
      text denotes.
    - A function that may throw returns a [completion].
    - Browser and file-system effects are explicit: the file system is
      an argument, the browser is an oracle record, and every browser
      interaction is logged in a trace of [Event]s. *)

From Stdlib Require Import String Ascii List ZArith QArith Qround Lia Bool.
From Stdlib Require Import Permutation Sorted Lqa.
From Stdlib Require Import SpecFloat.
From stdpp Require Import base list.

Import ListNotations.
Local Open Scope string_scope.
Local Open Scope list_scope.

(** ** Strings *)

Module Str.

Definition isUpper (c : ascii) : bool :=
  let n := nat_of_ascii c in (65 <=? n)%nat && (n <=? 90)%nat.

Definition isDigit (c : ascii) : bool :=
  let n := nat_of_ascii c in (48 <=? n)%nat && (n <=? 57)%nat.

Definition isLower (c : ascii) : bool :=
  let n := nat_of_ascii c in (97 <=? n)%nat && (n <=? 122)%nat.

(** [\s] restricted to ASCII: tab, line feed, vertical tab, form feed,
    carriage return, space. *)
Definition isSpace (c : ascii) : bool :=
  let n := nat_of_ascii c in
  ((9 <=? n)%nat && (n <=? 13)%nat) || (n =? 32)%nat.

Definition lowerChar (c : ascii) : ascii :=
  if isUpper c then ascii_of_nat (nat_of_ascii c + 32) else c.

(** [s.toLowerCase()] *)
Fixpoint toLowerCase (s : string) : string :=
  match s with
  | EmptyString => EmptyString
  | String c s' => String (lowerChar c) (toLowerCase s')
  end.

Fixpoint trimStart (s : string) : string :=
  match s with
  | EmptyString => EmptyString
  | String c s' => if isSpace c then trimStart s' else s
  end.

(** White space is dropped from the end: a space is kept only when
    something that is not a space follows it. *)
Fixpoint trimEnd (s : string) : string :=
  match s with
  | EmptyString => EmptyString
  | String c s' =>
      match trimEnd s' with
      | EmptyString => if isSpace c then EmptyString else String c EmptyString
      | r => String c r
      end
  end.

(** [s.trim()] *)
Definition trim (s : string) : string := trimEnd (trimStart s).

(** [s.startsWith(p)] *)
Definition startsWith (s p : string) : bool := String.prefix p s.

(** [s.includes(sub)] *)
Fixpoint includes (s sub : string) : bool :=
  String.prefix sub s ||
  match s with
  | EmptyString => false
  | String _ s' => includes s' sub
  end.

(** Case-insensitive [startsWith], as under the [i] flag. *)
Fixpoint startsWithCI (s p : string) : bool :=
  match p, s with
  | EmptyString, _ => true
  | String _ _, EmptyString => false
  | String a p', String b s' =>
      Ascii.eqb (lowerChar a) (lowerChar b) && startsWithCI s' p'
  end.

Fixpoint takeWhile (f : ascii -> bool) (s : string) : string :=
  match s with
  | EmptyString => EmptyString
  | String c s' => if f c then String c (takeWhile f s') else EmptyString
  end.

Fixpoint dropWhile (f : ascii -> bool) (s : string) : string :=
  match s with
  | EmptyString => EmptyString
  | String c s' => if f c then dropWhile f s' else s
  end.

Fixpoint filterChars (f : ascii -> bool) (s : string) : string :=
  match s with
  | EmptyString => EmptyString
  | String c s' =>
      if f c then String c (filterChars f s') else filterChars f s'
  end.

(** A string is truthy when it is not empty. *)
Definition truthy (s : string) : bool :=
  match s with EmptyString => false | _ => true end.

End Str.

(** ** Numbers *)

Inductive number : Type :=
| NaN
| Num (q : Q).

Module JsNum.

(** [a < b], [a <= b], [a > b], [a === b]: false as soon as one side is
    [NaN]. *)
Definition lt (a b : number) : bool :=
  match a, b with
  | Num x, Num y => negb (Qle_bool y x)
  | _, _ => false
  end.

Definition le (a b : number) : bool :=
  match a, b with
  | Num x, Num y => Qle_bool x y
  | _, _ => false
  end.

Definition gt (a b : number) : bool := lt b a.

Definition eq (a b : number) : bool :=
  match a, b with
  | Num x, Num y => Qeq_bool x y
  | _, _ => false
  end.

(** [0] and [NaN] are the falsy numbers. *)
Definition truthy (a : number) : bool :=
  match a with
  | NaN => false
  | Num x => negb (Qeq_bool x 0)
  end.

Definition mul (a b : number) : number :=
  match a, b with
  | Num x, Num y => Num (x * y)
  | _, _ => NaN
  end.

Definition sub (a b : number) : number :=
  match a, b with
  | Num x, Num y => Num (x - y)
  | _, _ => NaN
  end.

(** Division by zero yields an infinity (or [NaN] for [0/0]) in
    JavaScript; the embedding has no infinities and returns [NaN]
    there.  The one division of the client is guarded by [rate > 0]. *)
Definition div (a b : number) : number :=
  match a, b with
  | Num x, Num y => if Qeq_bool y 0 then NaN else Num (x / y)
  | _, _ => NaN
  end.

(** [Math.round]: the nearest integer, ties towards plus infinity. *)
Definition round (a : number) : number :=
  match a with
  | NaN => NaN
  | Num x => Num (inject_Z (Qfloor (x + (1 # 2))))
  end.

(** [a || b] on numbers. *)
Definition or (a b : number) : number := if truthy a then a else b.

End JsNum.

(** ** Double-precision numbers

    The numbers of JavaScript: IEEE 754 binary64, with the operations of
    the Standard Library's [SpecFloat] (round to nearest, ties to even). *)

Module Double.

Definition prec : Z := 53.
Definition emax : Z := 1024.

Definition double : Type := spec_float.

Definition zero : double := S754_zero false.

(** [a * b], [a / b], [a + b], [a - b] *)
Definition mul (a b : double) : double := SFmul prec emax a b.
Definition div (a b : double) : double := SFdiv prec emax a b.
Definition add (a b : double) : double := SFadd prec emax a b.
Definition sub (a b : double) : double := SFsub prec emax a b.

(** [a <= b], [a < b], [a > b]: false as soon as one side is [NaN]. *)
Definition le (a b : double) : bool := SFleb a b.
Definition lt (a b : double) : bool := SFltb a b.
Definition gt (a b : double) : bool := SFltb b a.

(** The double of an integer literal. *)
Definition ofZ (n : Z) : double := binary_normalize prec emax n 0 false.

Definition hundred : double := ofZ 100.

Definition signed (s : bool) (m : positive) : Z := cond_Zopp s (Zpos m).

(** The integer nearest to [m * 2 ^ e] (with [e] negative and the sign
    [s]), the upper one of two that are equally near. *)
Definition nearestInteger (s : bool) (m : positive) (e : Z) : Z :=
  (2 * signed s m + 2 ^ (- e)) / 2 ^ (1 - e).

(** [Math.round]: a double without a fractional part, an infinity and
    [NaN] are returned as they are; a result of zero has the sign of the
    argument. *)
Definition round (x : double) : double :=
  match x with
  | S754_finite s m e =>
      if (0 <=? e)%Z then x
      else binary_normalize prec emax (nearestInteger s m e) 0 s
  | _ => x
  end.

(** [Math.round(x * 100) / 100] *)
Definition round2 (x : double) : double := div (round (mul x hundred)) hundred.

(** The rational that a finite double stands for. *)
Definition value (x : double) : option Q :=
  match x with
  | S754_zero _ => Some 0%Q
  | S754_finite s m e =>
      Some (if (0 <=? e)%Z then inject_Z (signed s m * 2 ^ e)
            else inject_Z (signed s m) / inject_Z (2 ^ (- e)))%Q
  | _ => None
  end.

(** [x] stands for the rational [q]. *)
Definition represents (x : double) (q : Q) : bool :=
  match value x with
  | Some v => Qeq_bool v q
  | None => false
  end.

(** [r] is what [Math.round] makes of [y]: the integer nearest to the
    value of [y], the upper one of two that are equally near; [y] itself
    when [y] is an infinity or [NaN]. *)
Definition roundsTo (y r : double) : Prop :=
  match value y with
  | Some v =>
      exists w, value r = Some w /\ (w == inject_Z (Qfloor (v + (1 # 2))))%Q
  | None => r = y
  end.

(** [calculateValueScore], on the numbers it is given. *)
Definition calculateValueScore (reviewCount rating : option double)
  (rate : double) : option double :=
  match rating, reviewCount with
  | Some rt, Some rc =>
      if le rate zero then Some zero
      else Some (div (round (mul (div (mul rc rt) rate) hundred)) hundred)
  | _, _ => None
  end.

End Double.

(** Value of a string of decimal digits. *)
Fixpoint digitsValue (acc : Z) (s : string) : Z :=
  match s with
  | EmptyString => acc
  | String c s' =>
      digitsValue (10 * acc + Z.of_nat (nat_of_ascii c - 48)) s'
  end.

Definition isDot (c : ascii) : bool := Ascii.eqb c ".".

(** [parseFloat] on a string made of digits and dots: the longest prefix
    [d+], [d+.d*] or [.d+] is read; anything else is [NaN]. *)
Definition parseFloat (s : string) : number :=
  let ip := Str.takeWhile Str.isDigit s in
  let rest := Str.dropWhile Str.isDigit s in
  let fp :=
    match rest with
    | String c r => if isDot c then Str.takeWhile Str.isDigit r else ""
    | EmptyString => ""
    end in
  match ip, fp with
  | EmptyString, EmptyString => NaN
  | _, _ =>
      Num (inject_Z (digitsValue 0 ip)
           + inject_Z (digitsValue 0 fp) / inject_Z (10 ^ Z.of_nat (String.length fp)))
  end.

(** [parseInt] on a string that starts with a digit: the leading digits. *)
Definition parseInt (s : string) : number :=
  match Str.takeWhile Str.isDigit s with
  | EmptyString => NaN
  | ds => Num (inject_Z (digitsValue 0 ds))
  end.

(** [s.replace(",", "")]: the first comma only. *)
Fixpoint dropFirstComma (s : string) : string :=
  match s with
  | EmptyString => EmptyString
  | String c s' => if Ascii.eqb c "," then s' else String c (dropFirstComma s')
  end.

(** ** Query resolution *)

Definition CLARITY_BASE : string := "https://clarity.fm".

Definition CATEGORY_MAP : list (string * string) :=
  [ ("business", "business");
    ("strategy", "business/strategy");
    ("business strategy", "business/strategy");
    ("branding", "business/branding");
    ("career", "business/career-advice");
    ("financial", "business/financial-consulting");
    ("hr", "business/human-resources");
    ("human resources", "business/human-resources");
    ("legal", "business/legal");
    ("business development", "business/business-development");
    ("marketing", "sales-marketing");
    ("marketing strategy", "sales-marketing");
    ("social media", "sales-marketing/social-media-marketing");
    ("social media marketing", "sales-marketing/social-media-marketing");
    ("seo", "sales-marketing/search-engine-optimization");
    ("pr", "sales-marketing/public-relations");
    ("public relations", "sales-marketing/public-relations");
    ("email marketing", "sales-marketing/email-marketing");
    ("inbound marketing", "sales-marketing/inbound-marketing");
    ("growth", "sales-marketing/growth-strategy");
    ("growth strategy", "sales-marketing/growth-strategy");
    ("advertising", "sales-marketing/advertising");
    ("copywriting", "marketing-advertising/copywriting");
    ("sales", "sales-marketing/sales-lead-generation");
    ("digital marketing", "sales-marketing");
    ("funding", "funding");
    ("finance", "funding/finance");
    ("crowdfunding", "raising-capital/crowdfunding");
    ("kickstarter", "raising-capital/kickstarter");
    ("venture capital", "raising-capital/venture-capital");
    ("vc", "raising-capital/venture-capital");
    ("product", "product-design");
    ("design", "product-design");
    ("product design", "product-design");
    ("ux", "product-design/user-experience");
    ("user experience", "product-design/user-experience");
    ("lean startup", "product-design/lean-startup");
    ("product management", "product-design/product-management");
    ("analytics", "product-design/metrics-analytics");
    ("technology", "technology");
    ("tech", "technology");
    ("software", "technology/software-development");
    ("mobile", "technology/mobile");
    ("wordpress", "technology/wordpress");
    ("crm", "technology/crm");
    ("ecommerce", "industries/e-commerce");
    ("e-commerce", "industries/e-commerce");
    ("saas", "industries/saas");
    ("education", "industries/education");
    ("real estate", "industries/real-estate");
    ("marketplace", "industries/marketplaces");
    ("marketplaces", "industries/marketplaces");
    ("nonprofit", "industries/nonprofit");
    ("entrepreneurship", "skills-management/entrepreneurship");
    ("leadership", "skills-management/leadership");
    ("coaching", "skills-management/coaching");
    ("productivity", "skills-management/productivity");
    ("public speaking", "skills-management/public-speaking") ].

(** What a property read on an object literal can yield. *)
Inductive propValue : Type :=
| PStr (s : string)            (* an own property of the literal *)
| PNative (name : string)      (* a method inherited from Object.prototype *)
| PProto.                      (* Object.prototype itself, through __proto__ *)

(** The properties every object literal inherits from [Object.prototype]. *)
Definition OBJECT_PROTOTYPE : list (string * propValue) :=
  [ ("constructor", PNative "Object");
    ("__defineGetter__", PNative "__defineGetter__");
    ("__defineSetter__", PNative "__defineSetter__");
    ("hasOwnProperty", PNative "hasOwnProperty");
    ("__lookupGetter__", PNative "__lookupGetter__");
    ("__lookupSetter__", PNative "__lookupSetter__");
    ("isPrototypeOf", PNative "isPrototypeOf");
    ("propertyIsEnumerable", PNative "propertyIsEnumerable");
    ("toString", PNative "toString");
    ("valueOf", PNative "valueOf");
    ("__proto__", PProto);
    ("toLocaleString", PNative "toLocaleString") ].

Fixpoint assoc {V : Type} (k : string) (l : list (string * V)) : option V :=
  match l with
  | [] => None
  | (k', v) :: l' => if String.eqb k k' then Some v else assoc k l'
  end.

(** [obj[k]] for an object literal with own properties [own]: the own
    property, else the inherited one, else [undefined]. *)
Definition getProperty (own : list (string * string)) (k : string)
  : option propValue :=
  match assoc k own with
  | Some s => Some (PStr s)
  | None => assoc k OBJECT_PROTOTYPE
  end.

Definition propTruthy (v : option propValue) : bool :=
  match v with
  | None => false
  | Some (PStr s) => Str.truthy s
  | Some _ => true
  end.

(** The string a template literal makes of a property value. *)
Definition propToString (v : option propValue) : string :=
  match v with
  | None => "undefined"
  | Some (PStr s) => s
  | Some (PNative n) => "function " ++ n ++ "() { [native code] }"
  | Some PProto => "[object Object]"
  end.

(** The loop of the partial match: [Object.entries] visits the own
    properties in insertion order. *)
Fixpoint partialMatch (q : string) (entries : list (string * string))
  (bestMatch bestPath : string) : string * string :=
  match entries with
  | [] => (bestMatch, bestPath)
  | (key, path) :: rest =>
      if Str.includes q key && (String.length bestMatch <? String.length key)%nat
      then partialMatch q rest key path
      else partialMatch q rest bestMatch bestPath
  end.

(** [query.toLowerCase().trim()] *)
Definition normalize (query : string) : string :=
  Str.trim (Str.toLowerCase query).

Definition queryToBrowseUrl (query : string) : string :=
  let q := normalize query in
  if propTruthy (getProperty CATEGORY_MAP q)
  then CLARITY_BASE ++ "/browse/" ++ propToString (getProperty CATEGORY_MAP q)
  else
    let '(_, bestPath) := partialMatch q CATEGORY_MAP "" "" in
    if Str.truthy bestPath
    then CLARITY_BASE ++ "/browse/" ++ bestPath
    else CLARITY_BASE ++ "/browse".


(** ** Expert records and the value score *)

Record ExpertProfile : Type := mkExpert {
  name : string;
  username : string;
  url : string;
  rate : number;
  rateDisplay : string;
  bio : string;
  expertise : list string;
  totalCalls : number;
  rating : option number;        (* [None] is [null] *)
  reviewCount : option number;
  valueScore : option number;
  availability : string
}.

(** [calculateValueScore] on the numbers read off a page, in exact
    arithmetic.  [Double.calculateValueScore] is the function on doubles:
    its hundredth can differ from the one below where the quotient is
    close to a tie.  The search and the profile view only order these
    scores and test them for [null] and for their sign. *)
Definition calculateValueScore (reviewCount rating : option number) (rate : number)
  : option number :=
  match rating, reviewCount with
  | Some rt, Some rc =>
      if JsNum.le rate (Num 0) then Some (Num 0)
      else Some (JsNum.div
                   (JsNum.round
                      (JsNum.mul (JsNum.div (JsNum.mul rc rt) rate) (Num 100)))
                   (Num 100))
  | _, _ => None
  end.

(** ** Patterns over the page text

    Each pattern of the client is a run of one character class, optional
    white space and a fixed marker.  No marker starts with a character of
    the run or with white space, so giving back characters of the run or
    of the white space never makes a failed attempt succeed: the attempt at
    a position is decided by the longest run.  The matchers below try the
    positions from left to right, as the regular-expression engine does. *)

Definition isDigitOrDot (c : ascii) : bool := Str.isDigit c || isDot c.

Definition isDigitOrComma (c : ascii) : bool := Str.isDigit c || Ascii.eqb c ",".

(** String length of a matched piece. *)
Definition len (s : string) : nat := String.length s.

Fixpoint dropChars (n : nat) (s : string) : string :=
  match n, s with
  | S k, String _ s' => dropChars k s'
  | _, _ => s
  end.

(** The rating markers "out of 5", "star" or "stars", the star sign and
    "/5", without regard to case: the length of the marker found at the
    head of [s]. *)
Definition ratingMarker (s : string) : option nat :=
  if Str.startsWithCI s "out of 5" then Some 8%nat
  else if Str.startsWithCI s "star"
       then Some (if Str.startsWithCI (dropChars 4 s) "s" then 5%nat else 4%nat)
  else if Str.startsWithCI s "★" then Some (len "★")
  else if Str.startsWithCI s "/5" then Some 2%nat
  else None.

(** One attempt, at the head of [s], of the pattern "digits or dots
    (captured), white space, rating marker": the captured group and the
    length of the whole match. *)
Definition matchRatingAt (s : string) : option (string * nat) :=
  match Str.takeWhile isDigitOrDot s with
  | EmptyString => None
  | cap =>
      let after := Str.dropWhile isDigitOrDot s in
      let ws := Str.takeWhile Str.isSpace after in
      match ratingMarker (Str.dropWhile Str.isSpace after) with
      | Some n => Some (cap, (len cap + len ws + n)%nat)
      | None => None
      end
  end.

(** [text.matchAll(...)]: the captured groups of the successive matches;
    after a match the search resumes at its end ([skip] characters
    remain to be passed over). *)
Fixpoint ratingMatches (skip : nat) (text : string) : list string :=
  match text with
  | EmptyString => []
  | String _ text' =>
      match skip with
      | S k => ratingMatches k text'
      | O =>
          match matchRatingAt text with
          | Some (cap, n) => cap :: ratingMatches (n - 1) text'
          | None => ratingMatches 0 text'
          end
      end
  end.

(** The loop over the rating matches: the first value in (0, 5], if any.
    [for (const m of ratingMatches) { const val = parseFloat(m[1]);
      if (val > 0 && val <= 5) { rating = val; break; } }] *)
Fixpoint firstRating (caps : list string) : option number :=
  match caps with
  | [] => None
  | m :: rest =>
      let val := parseFloat m in
      if JsNum.gt val (Num 0) && JsNum.le val (Num 5) then Some val
      else firstRating rest
  end.

(** One attempt, at the head of [s], of the case-insensitive pattern
    "a digit and then digits or commas (captured), white space, one of
    the markers [ms]"; the optional plural of a marker does not change the
    captured group. *)
Definition matchCountAt (ms : list string) (s : string) : option string :=
  match s with
  | String c s' =>
      if Str.isDigit c then
        let cap := String c (Str.takeWhile isDigitOrComma s') in
        let rest := Str.dropWhile Str.isSpace (Str.dropWhile isDigitOrComma s') in
        if existsb (Str.startsWithCI rest) ms then Some cap else None
      else None
  | EmptyString => None
  end.

(** [text.match(...)] without the [g] flag: the leftmost match. *)
Fixpoint countMatch (ms : list string) (text : string) : option string :=
  match matchCountAt ms text with
  | Some cap => Some cap
  | None =>
      match text with
      | EmptyString => None
      | String _ text' => countMatch ms text'
      end
  end.

Definition REVIEW_MARKERS : list string := ["Review"; "Rating"; "Feedback"].
Definition CALL_MARKERS : list string := ["Call"; "Session"; "Consultation"].

(** One attempt of the pattern "dollar sign, digits or dots (captured),
    white space, then per-min or /min", without regard to case. *)
Definition matchRateAt (s : string) : option string :=
  match s with
  | String c s' =>
      if Ascii.eqb c "$" then
        match Str.takeWhile isDigitOrDot s' with
        | EmptyString => None
        | cap =>
            let rest := Str.dropWhile Str.isSpace (Str.dropWhile isDigitOrDot s') in
            if Str.startsWithCI rest "/min" then Some cap
            else if Str.startsWithCI rest "per"
                    && Str.startsWithCI
                         (Str.dropWhile Str.isSpace (dropChars 3 rest)) "min"
                 then Some cap
            else None
        end
      else None
  | EmptyString => None
  end.

Fixpoint rateMatch (text : string) : option string :=
  match matchRateAt text with
  | Some cap => Some cap
  | None =>
      match text with
      | EmptyString => None
      | String _ text' => rateMatch text'
      end
  end.

(** ** Profile enrichment *)

Definition MAX_CONCURRENT : nat := 3.

(** What opening a profile in its own tab comes to: the tab fails
    (the page cannot be opened, navigation times out, the evaluation
    throws) or yields the text of the page. *)
Inductive Tab : Type :=
| TabFails
| TabText (innerText : string).

(** The tabs of one enrichment run, by position of the record. *)
Definition Tabs : Type := nat -> Tab.

Inductive settled (A : Type) : Type :=
| Fulfilled (value : A)
| Rejected.
Arguments Fulfilled {A} value.
Arguments Rejected {A}.

Record ProfileData : Type := {
  pd_rating : option number;
  pd_reviewCount : option number
}.

(** The function evaluated in the tab. *)
Definition scrapeRatings (text : string) : ProfileData :=
  {| pd_rating := firstRating (ratingMatches 0 text);
     pd_reviewCount :=
       match countMatch REVIEW_MARKERS text with
       | Some cap => Some (parseInt (dropFirstComma cap))
       | None => None
       end |}.

(** One element of the [Promise.allSettled] array. *)
Definition fetchProfile (tabs : Tabs) (idx : nat) : settled ProfileData :=
  match tabs idx with
  | TabFails => Rejected
  | TabText text => Fulfilled (scrapeRatings text)
  end.

(** The three assignments made for a fulfilled result. *)
Definition withRatings (e : ExpertProfile) (d : ProfileData) : ExpertProfile :=
  {| name := name e; username := username e; url := url e; rate := rate e;
     rateDisplay := rateDisplay e; bio := bio e; expertise := expertise e;
     totalCalls := totalCalls e;
     rating := pd_rating d;
     reviewCount := pd_reviewCount d;
     valueScore := calculateValueScore (pd_reviewCount d) (pd_rating d) (rate e);
     availability := availability e |}.

(** What one settled result does to its record. *)
Definition applyOne (e : ExpertProfile) (result : settled ProfileData)
  : ExpertProfile :=
  match result with
  | Fulfilled d => withRatings e d
  | Rejected => e
  end.

(** [results.forEach((result, j) => { const idx = i + j; ... })] *)
Fixpoint applyResults (enriched : list ExpertProfile) (i : nat)
  (results : list (settled ProfileData)) (j : nat) : list ExpertProfile :=
  match results with
  | [] => enriched
  | result :: rest =>
      let idx := (i + j)%nat in
      let enriched' :=
        match result with
        | Fulfilled d => alter (fun e => withRatings e d) idx enriched
        | Rejected => enriched
        end in
      applyResults enriched' i rest (S j)
  end.

(** [for (let i = 0; i < enriched.length; i += MAX_CONCURRENT)]; the fuel
    bounds the number of rounds. *)
Fixpoint batchLoop (fuel : nat) (tabs : Tabs) (enriched : list ExpertProfile)
  (i : nat) : list ExpertProfile :=
  match fuel with
  | O => enriched
  | S fuel' =>
      if (i <? length enriched)%nat then
        let batch := take MAX_CONCURRENT (drop i enriched) in
        let results := imap (fun j _ => fetchProfile tabs (i + j)) batch in
        batchLoop fuel' tabs (applyResults enriched i results 0) (i + MAX_CONCURRENT)
      else enriched
  end.

Definition enrichProfiles (tabs : Tabs) (experts : list ExpertProfile)
  : list ExpertProfile :=
  batchLoop (length experts) tabs experts 0.

(** ** Listing extraction *)

(** A list item of the browse page, as the extraction reads it. *)
Record Card : Type := {
  textContent : string;
  hrefs : list string;         (* href of each [a[href^="/"]], in order *)
  strongs : list string;       (* text of each [strong], in order *)
  cardBio : string             (* the bio found by the walk over the
                                  elements, cleaned and cut to 200
                                  characters *)
}.

Definition NAV_PATHS : list string :=
  ["browse"; "topics"; "login"; "search"; "signup"; "dashboard";
   "settings"; "questions"; "calls"; "inbox"; "help"; "terms";
   "how-it-works"; "customers"].

Definition isHandleChar (c : ascii) : bool :=
  Str.isLower c || Str.isUpper c || Str.isDigit c
  || Ascii.eqb c "_" || Ascii.eqb c "-".

(** The handle of a link: the letters, digits, underscores and hyphens
    that follow the leading slash of the href. *)
Definition hrefHandle (href : string) : option string :=
  match href with
  | String c r =>
      if Ascii.eqb c "/" then
        match Str.takeWhile isHandleChar r with
        | EmptyString => None
        | h => Some h
        end
      else None
  | EmptyString => None
  end.

Definition inList (x : string) (l : list string) : bool :=
  existsb (String.eqb x) l.

(** The loop over the links: the first handle that is not a navigation
    path. *)
Fixpoint findUsername (links : list string) : string :=
  match links with
  | [] => ""
  | href :: rest =>
      match hrefHandle href with
      | Some m1 => if negb (inList m1 NAV_PATHS) then m1 else findUsername rest
      | None => findUsername rest
      end
  end.

(** The variables of the loop over the [strong] elements. *)
Record StrongState : Type := {
  rateNum : number;
  rateDisplayS : string;
  nameS : string
}.

Definition keepDigitsAndDots (s : string) : string :=
  Str.filterChars isDigitOrDot s.

Definition strongStep (st : StrongState) (s : string) : StrongState :=
  let sText := Str.trim s in
  if Str.startsWith sText "$" && JsNum.eq (rateNum st) (Num 0) then
    {| rateNum := JsNum.or (parseFloat (keepDigitsAndDots sText)) (Num 0);
       rateDisplayS := sText ++ "/min";
       nameS := nameS st |}
  else if negb (Str.startsWith sText "$") && (1 <? len sText)%nat
          && negb (Str.truthy (nameS st)) then
    {| rateNum := rateNum st; rateDisplayS := rateDisplayS st; nameS := sText |}
  else st.

Definition scanStrongs (l : list string) : StrongState :=
  fold_left strongStep l {| rateNum := Num 0; rateDisplayS := "N/A"; nameS := "" |}.

(** [if (opts.minRate && rateNum < opts.minRate) continue;
     if (opts.maxRate && rateNum > opts.maxRate) continue;]
    An absent bound is [undefined], which is falsy. *)
Definition belowMin (minRate : option number) (r : number) : bool :=
  match minRate with
  | Some m => JsNum.truthy m && JsNum.lt r m
  | None => false
  end.

Definition aboveMax (maxRate : option number) (r : number) : bool :=
  match maxRate with
  | Some m => JsNum.truthy m && JsNum.gt r m
  | None => false
  end.

(** One attempt of the pattern "an opening parenthesis, a digit and then
    digits or commas (captured), a closing parenthesis". *)
Definition matchCallsAt (s : string) : option string :=
  match s with
  | String p (String c s') =>
      if Ascii.eqb p "(" && Str.isDigit c then
        match Str.dropWhile isDigitOrComma s' with
        | String q _ =>
            if Ascii.eqb q ")"
            then Some (String c (Str.takeWhile isDigitOrComma s'))
            else None
        | EmptyString => None
        end
      else None
  | _ => None
  end.

Fixpoint callsMatch (text : string) : option string :=
  match matchCallsAt text with
  | Some cap => Some cap
  | None =>
      match text with
      | EmptyString => None
      | String _ text' => callsMatch text'
      end
  end.

(** The body of the loop over the cards: the record pushed, if any. *)
Definition extractCard (minRate maxRate : option number) (card : Card)
  : option ExpertProfile :=
  let uname := findUsername (hrefs card) in
  let st := scanStrongs (strongs card) in
  if belowMin minRate (rateNum st) then None
  else if aboveMax maxRate (rateNum st) then None
  else if Str.truthy (nameS st) || Str.truthy uname then
    Some {| name := if Str.truthy (nameS st) then nameS st else uname;
            username := uname;
            url := "https://clarity.fm/" ++ uname;
            rate := rateNum st;
            rateDisplay := rateDisplayS st;
            bio := cardBio card;
            expertise := [];
            totalCalls := match callsMatch (textContent card) with
                          | Some cap => parseInt (dropFirstComma cap)
                          | None => Num 0
                          end;
            rating := None;
            reviewCount := None;
            valueScore := None;
            availability := "" |}
  else None.

(** The candidate cards: list items with both markers. *)
Definition isCandidate (li : Card) : bool :=
  Str.includes (textContent li) "per minute"
  && Str.includes (textContent li) "Request a Call".

(** [arr.slice(0, e)] for a number [e]: the end index. *)
Definition sliceEnd (n : nat) (e : number) : nat :=
  match e with
  | NaN => 0%nat
  | Num q =>
      let k := if Qle_bool 0 q then Qfloor q else Qceiling q in
      if (k <? 0)%Z then (n - Z.to_nat (- k))%nat else Nat.min (Z.to_nat k) n
  end.

Definition slice0 {A : Type} (l : list A) (e : number) : list A :=
  take (sliceEnd (length l) e) l.

(** The function evaluated in the browse page. *)
Definition extractCards (maxResults : number) (minRate maxRate : option number)
  (allItems : list Card) : list ExpertProfile :=
  let cards := List.filter isCandidate allItems in
  omap (extractCard minRate maxRate) (slice0 cards maxResults).

(** ** Search *)

(** The options of a search that the extraction and the enrichment read.
    (The [sort] option only decides which link is clicked before the page
    is read.) *)
Record SearchOptions : Type := {
  query : string;
  minRate : option number;
  maxRate : option number;
  page : option number;
  limit : option number;
  enrich : option number
}.

Definition numMin (a b : number) : number :=
  match a, b with
  | Num x, Num y => if Qle_bool x y then a else b
  | _, _ => NaN
  end.

(** [Math.min(options.limit || 10, 20)] *)
Definition searchLimit (opts : SearchOptions) : number :=
  numMin (match limit opts with
          | Some l => JsNum.or l (Num 10)
          | None => Num 10
          end) (Num 20).

(** [expert.valueScore = this.calculateValueScore(...)] *)
Definition scoreExpert (e : ExpertProfile) : ExpertProfile :=
  {| name := name e; username := username e; url := url e; rate := rate e;
     rateDisplay := rateDisplay e; bio := bio e; expertise := expertise e;
     totalCalls := totalCalls e;
     rating := rating e;
     reviewCount := reviewCount e;
     valueScore := calculateValueScore (reviewCount e) (rating e) (rate e);
     availability := availability e |}.

(** The experts of the page, scored, before any enrichment. *)
Definition listedExperts (opts : SearchOptions) (allItems : list Card)
  : list ExpertProfile :=
  map scoreExpert
      (extractCards (searchLimit opts) (minRate opts) (maxRate opts) allItems).

(** [options.enrich && options.enrich > 0 && experts.length > 0] *)
Definition enrichRequested (opts : SearchOptions) (experts : list ExpertProfile)
  : bool :=
  match enrich opts with
  | Some n => JsNum.truthy n && JsNum.gt n (Num 0) && (0 <? length experts)%nat
  | None => false
  end.

(** [for (let i = 0; i < enrichedExperts.length; i++)
       experts[i] = enrichedExperts[i];] *)
Fixpoint replaceFrom (i : nat) (enrichedExperts experts : list ExpertProfile)
  : list ExpertProfile :=
  match enrichedExperts with
  | [] => experts
  | e :: rest => replaceFrom (S i) rest (<[i := e]> experts)
  end.

(** The array as it stands when the sort is reached. *)
Definition enrichedList (n : number) (tabs : Tabs) (experts : list ExpertProfile)
  : list ExpertProfile :=
  let toEnrich := slice0 experts n in
  replaceFrom 0 (enrichProfiles tabs toEnrich) experts.

(** The comparison function given to [sort]. *)
Definition compareScore (a b : ExpertProfile) : number :=
  match valueScore a, valueScore b with
  | Some x, Some y => JsNum.sub y x
  | Some _, None => Num (-1)
  | None, Some _ => Num 1
  | None, None => Num 0
  end.

(** [Array.prototype.sort] is a stable sort: an element moves behind
    another only when the comparison is positive, and a comparison that
    is zero or [NaN] keeps the order of the input.  For a consistent
    comparison every stable sort yields the same array
    ([sortBy_is_the_stable_sort] below); the embedding is the insertion
    sort. *)
Fixpoint insertBy {A : Type} (cmp : A -> A -> number) (x : A) (l : list A)
  : list A :=
  match l with
  | [] => [x]
  | y :: l' =>
      if JsNum.gt (cmp x y) (Num 0) then y :: insertBy cmp x l' else x :: l
  end.

Definition sortBy {A : Type} (cmp : A -> A -> number) (l : list A) : list A :=
  foldr (insertBy cmp) [] l.

(** Two elements are tied when neither compares greater than the other:
    a stable sort keeps tied elements in their input order. *)
Definition tiedBy {A : Type} (cmp : A -> A -> number) (x y : A) : bool :=
  negb (JsNum.gt (cmp x y) (Num 0)) && negb (JsNum.gt (cmp y x) (Num 0)).


Definition mayPrecede (a b : ExpertProfile) : Prop :=
  JsNum.gt (compareScore a b) (Num 0) = false.

(** The score, when there is one, is a number. *)
Definition scoreIsNumber (e : ExpertProfile) : Prop :=
  valueScore e <> Some NaN.

(** A rate as a listing gives it: a number that is not negative. *)
Definition rateIsNonneg (n : number) : Prop :=
  exists r, n = Num r /\ (0 <= r)%Q.


Record SearchResult : Type := {
  experts : list ExpertProfile;
  totalResults : nat;
  resultPage : number;
  resultQuery : string;
  enriched : nat
}.

Definition hasRating (e : ExpertProfile) : bool :=
  match rating e with Some _ => true | None => false end.

(** [searchExperts] once the browse page [allItems] has been loaded;
    [tabs] are the profile tabs of the enrichment. *)
Definition searchExperts (opts : SearchOptions) (allItems : list Card)
  (tabs : Tabs) : SearchResult :=
  let listed := listedExperts opts allItems in
  let '(final, enrichedCount) :=
    if enrichRequested opts listed then
      match enrich opts with
      | Some n =>
          let enrichedExperts := enrichProfiles tabs (slice0 listed n) in
          (sortBy compareScore (enrichedList n tabs listed),
           length (List.filter hasRating enrichedExperts))
      | None => (listed, 0%nat)
      end
    else (listed, 0%nat) in
  {| experts := final;
     totalResults := length final;
     resultPage := match page opts with
                   | Some p => JsNum.or p (Num 1)
                   | None => Num 1
                   end;
     resultQuery := query opts;
     enriched := enrichedCount |}.

(** ** Profile view *)

(** The profile page, as the extraction reads it.  The name, the bio and
    the expertise labels come from the title and the elements of the
    page; the rate, the rating and the counts come from its text. *)
Record ProfilePage : Type := {
  innerText : string;
  pageName : string;            (* "" when neither title nor headings give one *)
  pageBio : string;
  pageExpertise : list string
}.

Inductive PageLoad : Type :=
| PageNotReady                   (* [waitForSPAContent] timed out *)
| PageReady (p : ProfilePage).

Inductive ViewResult : Type :=
| ViewError (message : string)
| ViewOk (profile : ExpertProfile).

(** The function evaluated in the profile page. *)
Definition extractProfile (p : ProfilePage) (uname : string) : ExpertProfile :=
  let text := innerText p in
  let rateM := rateMatch text in
  let rateV := match rateM with Some cap => parseFloat cap | None => Num 0 end in
  (* let rating = 0; the loop may assign it *)
  let ratingV :=
    match firstRating (ratingMatches 0 text) with
    | Some val => val
    | None => Num 0
    end in
  let callsV :=
    match countMatch CALL_MARKERS text with
    | Some cap => parseInt (dropFirstComma cap)
    | None => Num 0
    end in
  let reviewsV :=
    match countMatch REVIEW_MARKERS text with
    | Some cap => parseInt (dropFirstComma cap)
    | None => Num 0
    end in
  {| name := if Str.truthy (pageName p) then pageName p else uname;
     username := uname;
     url := "https://clarity.fm/" ++ uname;
     rate := rateV;
     rateDisplay := match rateM with
                    | Some cap => "$" ++ cap ++ "/min"
                    | None => "N/A"
                    end;
     bio := pageBio p;
     expertise := pageExpertise p;
     totalCalls := callsV;
     rating := Some ratingV;
     reviewCount := Some reviewsV;
     valueScore := Some (Num 0);
     availability := "" |}.

Definition quoted (s : string) : string :=
  let q := String (ascii_of_nat 34) EmptyString in q ++ s ++ q.

(** [viewProfile] for the normalised user name [uname]. *)
Definition viewProfile (load : PageLoad) (uname : string) : ViewResult :=
  match load with
  | PageNotReady =>
      ViewError ("Expert " ++ quoted uname
                 ++ " not found or page failed to load. Verify the username.")
  | PageReady p => ViewOk (scoreExpert (extractProfile p uname))
  end.

(** ** Persisted state *)

(** A value produced by [JSON.parse]. *)
#[warnings="-register-all"]
Inductive json : Type :=
| JNull
| JBool (b : bool)
| JNumber (n : number)
| JString (s : string)
| JArray (items : list json)
| JObject (fields : list (string * json)).

(** The state of a file that holds a JSON document. *)
Inductive File : Type :=
| Missing                (* [existsSync] is false *)
| Unreadable             (* the file exists and [readFileSync] throws *)
| NotJson                (* the content is read and [JSON.parse] throws *)
| Json (v : json).       (* the content parses to [v] *)

Inductive completion (A : Type) : Type :=
| Normal (value : A)
| Throw (message : string).
Arguments Normal {A} value.
Arguments Throw {A} message.

Definition existsSync (f : File) : bool :=
  match f with
  | Missing => false
  | _ => true
  end.

(** [JSON.parse(readFileSync(path, "utf-8"))] *)
Definition readJson (f : File) : completion json :=
  match f with
  | Json v => Normal v
  | Missing => Throw "ENOENT: no such file or directory"
  | Unreadable => Throw "EACCES: permission denied"
  | NotJson => Throw "Unexpected token in JSON"
  end.

(** [try { c } catch { h }] *)
Definition tryCatch {A : Type} (c : completion A) (h : string -> completion A)
  : completion A :=
  match c with
  | Normal v => Normal v
  | Throw m => h m
  end.

(** [getSession]: [JNull] is [null]. *)
Definition getSession (sessionFile : File) : completion json :=
  if negb (existsSync sessionFile) then Normal JNull
  else tryCatch (readJson sessionFile) (fun _ => Normal JNull).

(** [v?.k] for a key that no prototype defines: the own property of an
    object, [undefined] ([None]) for [null] and for every other value. *)
Definition field (v : json) (k : string) : option json :=
  match v with
  | JObject fields => assoc k fields
  | _ => None
  end.

Definition jsonTruthy (v : option json) : bool :=
  match v with
  | None => false
  | Some JNull => false
  | Some (JBool b) => b
  | Some (JNumber n) => JsNum.truthy n
  | Some (JString s) => Str.truthy s
  | Some (JArray _) => true
  | Some (JObject _) => true
  end.

(** *** The budget ledger *)

Record BudgetFs : Type := {
  budgetDirExists : bool;
  mkdirSucceeds : bool;
  budgetFile : File
}.

Definition emptyBudget : json :=
  JObject [("monthlyCap", JNumber (Num 0)); ("entries", JObject [])].

(** [BudgetTracker.load] *)
Definition load (fs : BudgetFs) : completion json :=
  let made : completion unit :=
    if negb (budgetDirExists fs)
    then (if mkdirSucceeds fs then Normal tt
          else Throw "EACCES: permission denied, mkdir")
    else Normal tt in
  match made with
  | Throw m => Throw m
  | Normal _ =>
      if existsSync (budgetFile fs)
      then tryCatch (readJson (budgetFile fs)) (fun _ => Normal emptyBudget)
      else Normal emptyBudget
  end.

(** ** Booking submission *)

Inductive Event : Type :=
| EnsureBrowser
| QuerySelector (selector : string)
| IsVisible (selector : string)
| Click (selector : string)
| WaitForTimeout (ms : nat)
| Screenshot (path : string)
| Evaluate
| SaveStorageState
| WriteSession.

(** What is left of the world after a step: the session file and the
    interactions so far, oldest first. *)
Record World : Type := {
  sessionFile : File;
  trace : list Event
}.

(** A step: it completes or throws, and leaves a world behind either way. *)
Definition M (A : Type) : Type := World -> completion A * World.

Definition ret {A : Type} (a : A) : M A := fun w => (Normal a, w).

Definition raise {A : Type} (m : string) : M A := fun w => (Throw m, w).

Definition bind {A B : Type} (c : M A) (k : A -> M B) : M B :=
  fun w =>
    match c w with
    | (Normal a, w') => k a w'
    | (Throw m, w') => (Throw m, w')
    end.

Definition catch {A : Type} (c : M A) (h : string -> M A) : M A :=
  fun w =>
    match c w with
    | (Normal a, w') => (Normal a, w')
    | (Throw m, w') => h m w'
    end.

Declare Scope step_scope.
Delimit Scope step_scope with step.
Notation "x <- c ;; k" := (bind c (fun x => k))
  (at level 100, c at next level, right associativity) : step_scope.
Notation "c ;;; k" := (bind c (fun _ => k))
  (at level 100, right associativity) : step_scope.

Definition emit (e : Event) : M unit :=
  fun w => (Normal tt, {| sessionFile := sessionFile w; trace := trace w ++ [e] |}).

(** Lifts an answer of the browser, logging the interaction first. *)
Definition ask {A : Type} (e : Event) (answer : completion A) : M A :=
  fun w =>
    (answer, {| sessionFile := sessionFile w; trace := trace w ++ [e] |}).

Inductive Reconnect : Type :=
| ConnectFails         (* [connectOverCDP] throws *)
| NoOpenPage           (* connected, but no context or no page *)
| Reused.

Record Confirmation : Type := {
  clarityCallId : option string;
  scheduledAt : option string;
  dialInNumber : option string;
  estimatedTotal : option number;
  pageText : string
}.

(** The answers of the browser during one call. *)
Record Browser : Type := {
  reconnect : Reconnect;
  unlinkSession : completion unit;              (* [unlinkSync(SESSION_PATH)] *)
  launch : completion unit;
  wsEndpoint : option string;
  clock : string;                               (* [Date.now()] *)
  querySelector : string -> completion bool;    (* [page.$]: found or not *)
  isVisible : string -> completion bool;
  click : string -> completion unit;
  waitForTimeout : completion unit;
  screenshot : completion unit;
  evaluate : completion Confirmation
}.

Definition SCREENSHOT_DIR : string := "/home/USER/biz/.playwright-mcp".

Definition setSessionFile (f : File) : M unit :=
  fun w => (Normal tt, {| sessionFile := f; trace := trace w |}).

Definition readSessionFile : M File := fun w => (Normal (sessionFile w), w).

Definition lift {A : Type} (c : completion A) : M A := fun w => (c, w).

Definition freshSession (b : Browser) (endpoint : string) : json :=
  JObject [("wsEndpoint", JString endpoint);
           ("createdAt", JString (clock b));
           ("loggedIn", JBool false);
           ("bookingFilled", JBool false)].

(** [ensureBrowser]: reuse the recorded browser, or launch one and record
    it. *)
Definition ensureBrowser (b : Browser) : M unit :=
  (emit EnsureBrowser ;;;
   f <- readSessionFile ;;
   reused <-
     (if existsSync f then
        catch
          (session <- lift (readJson f) ;;
           match session, reconnect b with
           | JNull, _ => raise "Cannot read properties of null"
           | _, ConnectFails => raise "connect ECONNREFUSED"
           | _, NoOpenPage => ret false
           | _, Reused => ret true
           end)
          (fun _ =>
             catch (lift (unlinkSession b) ;;; setSessionFile Missing)
               (fun _ => ret tt) ;;;
             ret false)
      else ret false) ;;
   if reused : bool then ret tt
   else
     lift (launch b) ;;;
     match wsEndpoint b with
     | Some endpoint =>
         emit WriteSession ;;; setSessionFile (Json (freshSession b endpoint))
     | None => ret tt
     end)%step.

Fixpoint setField (k : string) (v : json) (fields : list (string * json))
  : list (string * json) :=
  match fields with
  | [] => [(k, v)]
  | (k', v') :: rest =>
      if String.eqb k k' then (k, v) :: rest else (k', v') :: setField k v rest
  end.

(** [Object.assign(session, updates)] followed by [JSON.stringify]: an
    object gets the updates; [null] makes the assignment throw; any other
    value is written back as it was. *)
Definition assignFields (session : json) (updates : list (string * json))
  : completion json :=
  match session with
  | JObject fields =>
      Normal (JObject (fold_left (fun fs kv => setField (fst kv) (snd kv) fs)
                                 updates fields))
  | JNull => Throw "Cannot convert undefined or null to object"
  | other => Normal other
  end.

(** [updateSession] *)
Definition updateSession (updates : list (string * json)) : M unit :=
  (f <- readSessionFile ;;
   if existsSync f then
     session <- lift (readJson f) ;;
     session' <- lift (assignFields session updates) ;;
     emit WriteSession ;;; setSessionFile (Json session')
   else ret tt)%step.

Definition hasText (label : string) : string :=
  "button:has-text(" ++ quoted label ++ ")".

Definition classHas (word : string) : string :=
  "[class*=" ++ quoted word ++ "]".

Definition submitSelectors : list string :=
  [ hasText "Request Call";
    hasText "Confirm";
    hasText "Submit";
    hasText "Book";
    hasText "Send Request";
    ("button[type=" ++ quoted "submit" ++ "]")%string;
    classHas "submit-button";
    classHas "confirm-button" ].

Definition paymentSelector : string :=
  classHas "payment" ++ ", " ++ classHas "stripe" ++ ", "
  ++ classHas "credit-card" ++ ", iframe[src*=" ++ quoted "stripe" ++ "]".

(** The loop over the submit selectors: whether a button was clicked.
    A throw inside one round is swallowed and the next selector is tried. *)
Fixpoint clickSubmit (b : Browser) (selectors : list string) : M bool :=
  match selectors with
  | [] => ret false
  | selector :: rest =>
      (done <-
         catch
           (btn <- ask (QuerySelector selector) (querySelector b selector) ;;
            if btn : bool then
              visible <- ask (IsVisible selector) (isVisible b selector) ;;
              if visible : bool then
                ask (Click selector) (click b selector) ;;; ret true
              else ret false
            else ret false)
           (fun _ => ret false) ;;
       if done : bool then ret true else clickSubmit b rest)%step
  end.

(** The objects [submitBooking] returns. *)
Inductive SubmitResult : Type :=
| SubmitError (message : string) (shot : option string)
    (requiresManualPayment : bool)                 (* [error: true] *)
| SubmitSuccess (shot : string) (confirmation : Confirmation)
    (expert : option json) (message : string).     (* [success: true] *)

Definition shotPath (b : Browser) (label : string) : string :=
  SCREENSHOT_DIR ++ "/" ++ label ++ "-" ++ clock b ++ ".png".

Definition takeShot (b : Browser) (path : string) : M unit :=
  ask (Screenshot path) (screenshot b).

Definition submitBooking (b : Browser) : M SubmitResult :=
  (f <- readSessionFile ;;
   session <- lift (getSession f) ;;
   if negb (jsonTruthy (field session "bookingFilled")) then
     ret (SubmitError "No booking form has been filled. Call fill-booking first."
            None false)
   else
     ensureBrowser b ;;;
     catch
       (submitted <- clickSubmit b submitSelectors ;;
        if negb submitted then
          let errorScreenshot := shotPath b "clarity-submit-no-button" in
          takeShot b errorScreenshot ;;;
          ret (SubmitError
                 ("Could not find submit button. The user may need to click submit manually in the headed browser. See: "
                  ++ errorScreenshot)
                 (Some errorScreenshot) false)
        else
          ask (WaitForTimeout 5000) (waitForTimeout b) ;;;
          paymentIndicators <-
            ask (QuerySelector paymentSelector) (querySelector b paymentSelector) ;;
          if paymentIndicators : bool then
            let paymentScreenshot := shotPath b "clarity-payment-step" in
            takeShot b paymentScreenshot ;;;
            ret (SubmitError
                   "Payment confirmation step detected. Please complete payment manually in the browser window. DO NOT retry automatically."
                   (Some paymentScreenshot) true)
          else
            let confirmScreenshot := shotPath b "clarity-booking-confirmed" in
            takeShot b confirmScreenshot ;;;
            confirmation <- ask Evaluate (evaluate b) ;;
            emit SaveStorageState ;;;
            updateSession [("bookingFilled", JBool false)] ;;;
            ret (SubmitSuccess confirmScreenshot confirmation
                   (field session "currentExpert")
                   "Booking submitted successfully."))
       (fun message =>
          let errorScreenshot := shotPath b "clarity-submit-error" in
          catch (takeShot b errorScreenshot) (fun _ => ret tt) ;;;
          ret (SubmitError
                 ("Submit failed: " ++ message
                  ++ ". DO NOT retry — risk of double charge.")
                 (Some errorScreenshot) false)))%step.

(** ** The listing as the specification words it

    "Apply rate-range filtering immediately, discarding out-of-range
    cards before they count toward the limit": every candidate card is
    extracted and filtered, and the limit is applied to what is left. *)
Definition filterThenLimit (maxResults : number) (minRate maxRate : option number)
  (allItems : list Card) : list ExpertProfile :=
  slice0 (omap (extractCard minRate maxRate) (List.filter isCandidate allItems))
         maxResults.

(** ** Sample pages *)

Module Sample.

Definition cardAlice : Card :=
  {| textContent := "Alice A $50.00 per minute (120) Request a Call";
     hrefs := ["/browse/marketing"; "/alice/expertise/growth"];
     strongs := [" $50.00 "; "Alice A"];
     cardBio := "" |}.

Definition cardBob : Card :=
  {| textContent := "Bob B $5 per minute (7) Request a Call";
     hrefs := ["/bob"];
     strongs := ["$5"; "Bob B"];
     cardBio := "" |}.

Definition expertBob : ExpertProfile :=
  {| name := "Bob B"; username := "bob"; url := "https://clarity.fm/bob";
     rate := Num 5; rateDisplay := "$5/min"; bio := ""; expertise := [];
     totalCalls := Num 7; rating := None; reviewCount := None;
     valueScore := None; availability := "" |}.

Definition expertOf (uname : string) (r : Q) : ExpertProfile :=
  {| name := uname; username := uname; url := "https://clarity.fm/" ++ uname;
     rate := Num r; rateDisplay := "N/A"; bio := ""; expertise := [];
     totalCalls := Num 0; rating := None; reviewCount := None;
     valueScore := None; availability := "" |}.

(** A profile page without any rating or review marker. *)
Definition bareProfileText : string :=
  "Jane Doe" ++ String (ascii_of_nat 10) "$2.00 per minute"
  ++ String (ascii_of_nat 10) "Request a Call".

Definition bareProfile : ProfilePage :=
  {| innerText := bareProfileText; pageName := "Jane Doe";
     pageBio := ""; pageExpertise := [] |}.

Definition ratedProfileText : string := "4.8 stars (12 Reviews)".

(** Four tabs: the first fails, the last yields a rated page. *)
Definition tabsFirstFails : Tabs :=
  fun i => if (i =? 3)%nat then TabText ratedProfileText else TabFails.

Definition noTabs : Tabs := fun _ => TabFails.

Definition zeroBounds : SearchOptions :=
  {| query := "marketing"; minRate := Some (Num 0); maxRate := Some (Num 0);
     page := None; limit := None; enrich := None |}.

Definition boundsOneToTen : SearchOptions :=
  {| query := "marketing"; minRate := Some (Num 1); maxRate := Some (Num 10);
     page := None; limit := None; enrich := Some (Num 2) |}.

Definition enrichTwo : SearchOptions :=
  {| query := "marketing"; minRate := None; maxRate := None;
     page := None; limit := None; enrich := Some (Num 2) |}.

(** Two tabs: the first fails, the second yields a rated page. *)
Definition tabsSecondRated : Tabs :=
  fun i => if (i =? 1)%nat then TabText ratedProfileText else TabFails.

(** As [tabsFirstFails], but the first tab yields a page too. *)
Definition tabsFirstLoads : Tabs :=
  fun i => match i with
           | O => TabText ratedProfileText
           | S _ => tabsFirstFails i
           end.

Definition fourExperts : list ExpertProfile :=
  [expertOf "ann" 1; expertOf "ben" 2; expertOf "cat" 3; expertOf "dan" 4].

(** A browser that would find and click the second submit selector. *)
Definition browser : Browser :=
  {| reconnect := Reused; unlinkSession := Normal tt; launch := Normal tt;
     wsEndpoint := None;
     clock := "17";
     querySelector := fun s => Normal (String.eqb s (hasText "Confirm"));
     isVisible := fun _ => Normal true;
     click := fun _ => Normal tt;
     waitForTimeout := Normal tt;
     screenshot := Normal tt;
     evaluate := Throw "page closed" |}.

Definition unfilledWorld : World :=
  {| sessionFile := Json (JObject [("bookingFilled", JBool false)]);
     trace := [] |}.

Definition filledWorld : World :=
  {| sessionFile := Json (JObject [("bookingFilled", JBool true)]);
     trace := [] |}.

End Sample.

(** ** Further notions for the search *)

(** The fields of a record that enrichment and scoring never write. *)
Definition identityOf (e : ExpertProfile)
  : string * string * string * number * string * string * list string
    * number * string :=
  (name e, username e, url e, rate e, rateDisplay e, bio e, expertise e,
   totalCalls e, availability e).

(** A rating as the scraper accepts it: a number in (0, 5]. *)
Definition ratingInRange (r : option number) : Prop :=
  r = None \/ exists x, r = Some (Num x) /\ (0 < x)%Q /\ (x <= 5)%Q.

(** A count as the scraper reads it: a natural number. *)
Definition countIsNatural (c : option number) : Prop :=
  c = None \/ exists z, c = Some (Num (inject_Z z)) /\ (0 <= z)%Z.

Definition scoreIsNonneg (s : option number) : Prop :=
  s = None \/ exists v, s = Some (Num v) /\ (0 <= v)%Q.

Definition allChars (f : ascii -> bool) (s : string) : bool :=
  match Str.dropWhile f s with EmptyString => true | _ => false end.

(** The shape of a record of a listing. *)
Definition wellFormedListing (e : ExpertProfile) : Prop :=
  name e <> "" /\
  url e = ("https://clarity.fm/" ++ username e)%string /\
  inList (username e) NAV_PATHS = false /\
  allChars isHandleChar (username e) = true /\
  rateIsNonneg (rate e) /\
  ratingInRange (rating e) /\
  countIsNatural (reviewCount e) /\
  scoreIsNonneg (valueScore e).

Definition isClick (e : Event) : bool :=
  match e with Click _ => true | _ => false end.

(** A click that returned normally. *)
Definition goodClick (b : Browser) (e : Event) : bool :=
  match e with
  | Click selector =>
      match click b selector with Normal _ => true | Throw _ => false end
  | _ => false
  end.

(** No click is logged after a click that returned normally. *)
Fixpoint noClickAfterGood (b : Browser) (tr : list Event) : bool :=
  match tr with
  | [] => true
  | e :: rest =>
      if goodClick b e then forallb (fun e' => negb (isClick e')) rest
      else noClickAfterGood b rest
  end.

(** The session file holds no filled booking. *)
Definition notFilled (f : File) : Prop :=
  match f with
  | Json v => jsonTruthy (field v "bookingFilled") = false
  | _ => True
  end.

Definition noBookingError : SubmitResult :=
  SubmitError "No booking form has been filled. Call fill-booking first."
    None false.

(** What [submitBooking] does once the browser is at hand: the body of
    its [try] and its [catch]. *)
Definition submitTail (b : Browser) (session : json) : M SubmitResult :=
  (catch
     (submitted <- clickSubmit b submitSelectors ;;
      if negb submitted then
        let errorScreenshot := shotPath b "clarity-submit-no-button" in
        takeShot b errorScreenshot ;;;
        ret (SubmitError
               ("Could not find submit button. The user may need to click submit manually in the headed browser. See: "
                ++ errorScreenshot)
               (Some errorScreenshot) false)
      else
        ask (WaitForTimeout 5000) (waitForTimeout b) ;;;
        paymentIndicators <-
          ask (QuerySelector paymentSelector) (querySelector b paymentSelector) ;;
        if paymentIndicators : bool then
          let paymentScreenshot := shotPath b "clarity-payment-step" in
          takeShot b paymentScreenshot ;;;
          ret (SubmitError
                 "Payment confirmation step detected. Please complete payment manually in the browser window. DO NOT retry automatically."
                 (Some paymentScreenshot) true)
        else
          let confirmScreenshot := shotPath b "clarity-booking-confirmed" in
          takeShot b confirmScreenshot ;;;
          confirmation <- ask Evaluate (evaluate b) ;;
          emit SaveStorageState ;;;
          updateSession [("bookingFilled", JBool false)] ;;;
          ret (SubmitSuccess confirmScreenshot confirmation
                 (field session "currentExpert")
                 "Booking submitted successfully."))
     (fun message =>
        let errorScreenshot := shotPath b "clarity-submit-error" in
        catch (takeShot b errorScreenshot) (fun _ => ret tt) ;;;
        ret (SubmitError
               ("Submit failed: " ++ message
                ++ ". DO NOT retry — risk of double charge.")
               (Some errorScreenshot) false)))%step.

Definition succeeded (r : completion SubmitResult) : bool :=
  match r with
  | Normal (SubmitSuccess _ _ _ _) => true
  | _ => false
  end.

Definition paymentPending (r : completion SubmitResult) : bool :=
  match r with
  | Normal (SubmitError _ _ manual) => manual
  | _ => false
  end.

Definition notClick (e : Event) : bool := negb (isClick e).

Definition mkWorld (f : File) (tr : list Event) : World :=
  {| sessionFile := f; trace := tr |}.

(** *** Reset *)

(** The objects [reset] returns. *)
Inductive ResetResult : Type :=
| ResetOk (message : string)          (* [success: true] *)
| ResetError (message : string).      (* [error: true] *)

(** [reset]: [held] is the outcome of closing the browser when the client
    holds one ([this.browser]), [unlink] the outcome of removing the
    session file when it exists.  The result comes with the session file
    left behind. *)
Definition reset (held : option (completion unit)) (unlink : completion unit)
  (f : File) : ResetResult * File :=
  let closed := match held with
                | Some outcome => outcome
                | None => Normal tt
                end in
  match closed with
  | Throw m => (ResetError ("Reset failed: " ++ m), f)
  | Normal _ =>
      if existsSync f then
        match unlink with
        | Normal _ => (ResetOk "Browser session closed and cleared.", Missing)
        | Throw m => (ResetError ("Reset failed: " ++ m), f)
        end
      else (ResetOk "Browser session closed and cleared.", f)
  end.

(** What [Object.assign] leaves at key [k]: the last update of that key,
    else the value the object had. *)
Definition assigned (updates fields : list (string * json)) (k : string)
  : option json :=
  match assoc k (rev updates) with
  | Some v => Some v
  | None => assoc k fields
  end.

Module Sample2.

(** A browser on which a submission goes through: the second submit
    selector is found, no payment marker shows. *)
Definition browserOk : Browser :=
  {| reconnect := Reused; unlinkSession := Normal tt; launch := Normal tt;
     wsEndpoint := None;
     clock := "17";
     querySelector := fun s => Normal (String.eqb s (hasText "Confirm"));
     isVisible := fun _ => Normal true;
     click := fun _ => Normal tt;
     waitForTimeout := Normal tt;
     screenshot := Normal tt;
     evaluate := Normal {| clarityCallId := Some "C-1"; scheduledAt := None;
                           dialInNumber := None; estimatedTotal := None;
                           pageText := "" |} |}.

(** The same browser with a payment marker on the page. *)
Definition browserPayment : Browser :=
  {| reconnect := Reused; unlinkSession := Normal tt; launch := Normal tt;
     wsEndpoint := None;
     clock := "17";
     querySelector := fun s => Normal (String.eqb s (hasText "Confirm")
                                       || String.eqb s paymentSelector);
     isVisible := fun _ => Normal true;
     click := fun _ => Normal tt;
     waitForTimeout := Normal tt;
     screenshot := Normal tt;
     evaluate := Throw "not reached" |}.

Definition sessionFields : list (string * json) :=
  [("wsEndpoint", JString "ws://127.0.0.1:9222");
   ("loggedIn", JBool true);
   ("bookingFilled", JBool false)].

Definition sessionWorld : World :=
  {| sessionFile := Json (JObject sessionFields); trace := [] |}.

End Sample2.

(** ** The budget tracker

    The amounts of the ledger are doubles. *)

(** [obj[k] = v] on the own properties of an object: an existing key
    keeps its place, a new key comes last. *)
Fixpoint setProp {V : Type} (k : string) (v : V) (l : list (string * V))
  : list (string * V) :=
  match l with
  | [] => [(k, v)]
  | (k', v') :: rest =>
      if String.eqb k k' then (k, v) :: rest else (k', v') :: setProp k v rest
  end.

Module BudgetTracker.

Record BudgetEntry : Type := {
  date : string;
  expert : string;
  duration : Double.double;
  costPerMinute : Double.double;
  estimatedTotal : Double.double
}.

(** The ledger, as the interface [BudgetData] types it; [entries] holds
    the own properties of the object keyed by month. *)
Record BudgetData : Type := {
  monthlyCap : Double.double;
  entries : list (string * list BudgetEntry)
}.

(** What [this.data.entries[m]] yields: the array of the month, a
    property inherited from Object.prototype (a function or an object,
    never an array), or [undefined]. *)
Inductive MonthValue : Type :=
| Own (l : list BudgetEntry)
| Inherited
| Absent.

Definition entriesAt (d : BudgetData) (m : string) : MonthValue :=
  match assoc m (entries d) with
  | Some l => Own l
  | None =>
      match assoc m OBJECT_PROTOTYPE with
      | Some _ => Inherited
      | None => Absent
      end
  end.

(** [new Date().toISOString().slice(0, 7)], for the clock reading [now]. *)
Definition currentMonth (now : string) : string := String.substring 0 7 now.

(** [month || this.currentMonth()] *)
Definition monthOr (month : option string) (now : string) : string :=
  match month with
  | Some m => if Str.truthy m then m else currentMonth now
  | None => currentMonth now
  end.

Definition sumTotals (l : list BudgetEntry) : Double.double :=
  fold_left (fun sum e => Double.add sum (estimatedTotal e)) l Double.zero.

Definition getMonthlySpend (d : BudgetData) (month : option string)
  (now : string) : completion Double.double :=
  match entriesAt d (monthOr month now) with
  | Own l => Normal (sumTotals l)
  | Absent => Normal Double.zero
  | Inherited => Throw "entries.reduce is not a function"
  end.

Definition isOverBudget (d : BudgetData) (additionalCost : Double.double)
  (month : option string) (now : string) : completion bool :=
  if Double.le (monthlyCap d) Double.zero then Normal false
  else
    match getMonthlySpend d month now with
    | Normal spend =>
        Normal (Double.gt (Double.add spend additionalCost) (monthlyCap d))
    | Throw m => Throw m
    end.

(** [setBudget]: the ledger it leaves; [saved] is the outcome of [save]. *)
Definition setBudget (d : BudgetData) (monthly : Double.double)
  (saved : completion unit) : completion BudgetData :=
  match saved with
  | Normal _ => Normal {| monthlyCap := monthly; entries := entries d |}
  | Throw m => Throw m
  end.

Definition newEntry (expertName : string) (minutes rate : Double.double)
  (now : string) : BudgetEntry :=
  {| date := now; expert := expertName; duration := minutes;
     costPerMinute := rate; estimatedTotal := Double.mul minutes rate |}.

(** [addEntry]: the ledger it leaves. *)
Definition addEntry (d : BudgetData) (expertName : string)
  (minutes rate : Double.double) (now : string) (saved : completion unit)
  : completion BudgetData :=
  let month := currentMonth now in
  let d1 :=
    match entriesAt d month with
    | Absent => {| monthlyCap := monthlyCap d;
                   entries := setProp month [] (entries d) |}
    | _ => d
    end in
  match entriesAt d1 month with
  | Own l =>
      let d2 := {| monthlyCap := monthlyCap d1;
                   entries := setProp month
                                (l ++ [newEntry expertName minutes rate now])
                                (entries d1) |} in
      match saved with
      | Normal _ => Normal d2
      | Throw m => Throw m
      end
  | _ => Throw "this.data.entries[month].push is not a function"
  end.

Record Status : Type := {
  statusMonth : string;
  statusCap : Double.double;
  spent : Double.double;
  remaining : Double.double;
  statusEntries : list BudgetEntry;
  overBudget : bool
}.

Definition getStatus (d : BudgetData) (month : option string) (now : string)
  : completion Status :=
  let m := monthOr month now in
  match getMonthlySpend d (Some m) now with
  | Throw e => Throw e
  | Normal total =>
      let cap := monthlyCap d in
      Normal
        {| statusMonth := m;
           statusCap := cap;
           spent := Double.round2 total;
           remaining := if Double.gt cap Double.zero
                        then Double.round2 (Double.sub cap total)
                        else Double.ofZ (-1);
           statusEntries := match entriesAt d m with
                            | Own l => l
                            | _ => []
                            end;
           overBudget := Double.gt cap Double.zero && Double.gt total cap |}
  end.

End BudgetTracker.

(** ** Comparing experts *)

(** [s.split(sep)] for a separator of one character. *)
Fixpoint split (sep : ascii) (s : string) : list string :=
  match s with
  | EmptyString => [EmptyString]
  | String c rest =>
      if Ascii.eqb c sep then EmptyString :: split sep rest
      else
        match split sep rest with
        | [] => [String c EmptyString]
        | h :: t => String c h :: t
        end
  end.

(** [s.replace(/^c/, "")] for a character [c]. *)
Definition dropLeading (c : ascii) (s : string) : string :=
  match s with
  | String c' rest => if Ascii.eqb c' c then rest else s
  | EmptyString => s
  end.

(** [normalizeUsername].  [pathname input] is what [new URL(input)]
    gives: the path of the address, or the error it throws. *)
Definition normalizeUsername (pathname : string -> completion string)
  (expertInput : string) : completion string :=
  if Str.startsWith expertInput "http" then
    match pathname expertInput with
    | Normal p => Normal (hd EmptyString (split "/" (dropLeading "/" p)))
    | Throw m => Throw m
    end
  else Normal (dropLeading "@" expertInput).

(** One call of [viewProfile] as [compareExperts] sees it: whether the
    browser could be had, and what came of loading the page. *)
Record Visit : Type := {
  connected : completion unit;
  loaded : completion PageLoad
}.

Definition viewProfileAt (pathname : string -> completion string) (v : Visit)
  (expertInput : string) : completion ViewResult :=
  match connected v with
  | Throw m => Throw m
  | Normal _ =>
      match normalizeUsername pathname expertInput with
      | Throw m => Throw m
      | Normal uname =>
          match loaded v with
          | Throw m => Throw m
          | Normal load => Normal (viewProfile load uname)
          end
      end
  end.

(** [options.experts.split(",").map(u => u.trim()).filter(Boolean)] *)
Definition requestedNames (experts : string) : list string :=
  List.filter Str.truthy (List.map Str.trim (split "," experts)).

(** [valueScore ?? -1] *)
Definition scoreOr (e : ExpertProfile) : number :=
  match valueScore e with
  | Some v => v
  | None => Num (-1)
  end.

(** The comparison function of [compareExperts]. *)
Definition compareBest (a b : ExpertProfile) : number :=
  JsNum.sub (scoreOr b) (scoreOr a).

Inductive CompareResult : Type :=
| CompareError (message : string)
| CompareOk (profiles : list ExpertProfile) (bestValue : ExpertProfile).

(** The loop over the user names; the [i]-th call of [viewProfile] is
    answered by [visits i].  It ends at the first profile that fails. *)
Fixpoint loadProfiles (pathname : string -> completion string)
  (visits : nat -> Visit) (i : nat) (usernames : list string)
  (profiles : list ExpertProfile) : completion (string + list ExpertProfile) :=
  match usernames with
  | [] => Normal (inr profiles)
  | u :: rest =>
      match viewProfileAt pathname (visits i) u with
      | Throw m => Throw m
      | Normal (ViewError message) =>
          Normal (inl ("Failed to load profile for " ++ quoted u ++ ": "
                       ++ message)%string)
      | Normal (ViewOk p) =>
          loadProfiles pathname visits (S i) rest (profiles ++ [p])
      end
  end.

Definition compareExperts (pathname : string -> completion string)
  (visits : nat -> Visit) (experts : string) : completion CompareResult :=
  let usernames := requestedNames experts in
  if (length usernames <? 2)%nat || (3 <? length usernames)%nat then
    Normal (CompareError "Provide 2-3 comma-separated usernames.")
  else
    match loadProfiles pathname visits 0 usernames [] with
    | Throw m => Throw m
    | Normal (inl message) => Normal (CompareError message)
    | Normal (inr profiles) =>
        match sortBy compareBest profiles with
        | bestValue :: _ => Normal (CompareOk profiles bestValue)
        | [] => Throw "Cannot read properties of undefined (reading 'username')"
        end
    end.

(** The order of two scores that are numbers. *)
Definition numLe (a b : number) : Prop :=
  match a, b with
  | Num x, Num y => (x <= y)%Q
  | _, _ => False
  end.

Definition numLt (a b : number) : Prop :=
  match a, b with
  | Num x, Num y => (x < y)%Q
  | _, _ => False
  end.

Module Sample3.

Definition noUrl : string -> completion string :=
  fun _ => Throw "Invalid URL".

Definition pageOf (rateText stars reviews : string) : ProfilePage :=
  {| innerText := ("$" ++ rateText ++ " per minute " ++ stars ++ " stars "
                   ++ reviews ++ " Reviews")%string;
     pageName := ""; pageBio := ""; pageExpertise := [] |}.

(** The first visit finds a page at $2 per minute with 10 reviews at 4
    stars, every later one a page at $1 per minute with 3 reviews at 5
    stars. *)
Definition visits : nat -> Visit :=
  fun i =>
    {| connected := Normal tt;
       loaded := Normal (PageReady (match i with
                                    | O => pageOf "2.00" "4" "10"
                                    | S _ => pageOf "1.00" "5" "3"
                                    end)) |}.

(** The second visit finds no profile. *)
Definition visitsSecondMissing : nat -> Visit :=
  fun i =>
    {| connected := Normal tt;
       loaded := Normal (match i with
                         | 1%nat => PageNotReady
                         | _ => PageReady (pageOf "2.00" "4" "10")
                         end) |}.

End Sample3.

(** ** Filling the booking form *)

Module FillBooking.

Record FillBookingOptions : Type := {
  expert : string;
  duration : option number;
  topic : option string;
  slot1 : option string;
  slot2 : option string;
  slot3 : option string;
  phone : option string
}.

(** The part of the configuration that [fillBooking] reads. *)
Record Config : Type := {
  configPhone : string;
  monthlyBudget : option number
}.

(** What is typed into a field, and how an option of a drop-down is
    chosen; a number stands for its text. *)
Inductive Typed : Type :=
| Text (s : string)
| Minutes (d : number).

Inductive Choice : Type :=
| ByValue (d : number)
| ByLabel (d : number) (unit : string).

(** The answers of the profile page during one call, beside those of the
    browser. *)
Record BookingPage : Type := {
  browserOf : Browser;
  goto : string -> completion unit;
  removeBanners : completion unit;       (* the clean-up evaluated in the page *)
  bodyText : completion string;          (* [document.body.innerText] *)
  heading : completion string;           (* the trimmed text of the heading, or "" *)
  selectOption : Choice -> completion unit;
  fill : string -> Typed -> completion unit;
  dateInputs : completion nat;           (* how many inputs [page.$$] finds *)
  fillDate : nat -> string -> completion unit;
  setDate : nat -> string -> completion unit
}.

Record FillBookingResult : Type := {
  screenshotPath : string;
  expertName : string;
  expertProfileUrl : string;
  estimatedCost : number;
  costPerMinute : number;
  bookedDuration : number;
  bookedTopic : option string;
  (* the two amounts the warning names, when there is a warning *)
  budgetWarning : option (number * number)
}.

Inductive FillResult : Type :=
| FillError (message : string) (shot : string)     (* [error: true] *)
| FillOk (result : FillBookingResult).             (* [success: true] *)

(** [parseRate]: the first run of digits and dots, read as a number. *)
Definition parseRate (rateText : string) : number :=
  match Str.takeWhile isDigitOrDot
          (Str.dropWhile (fun c => negb (isDigitOrDot c)) rateText) with
  | EmptyString => Num 0
  | run => parseFloat run
  end.

(** One attempt of the pattern "dollar sign, digits or dots, /min": the
    text matched. *)
Definition matchRateTextAt (s : string) : option string :=
  match s with
  | String c s' =>
      if Ascii.eqb c "$" then
        match Str.takeWhile isDigitOrDot s' with
        | EmptyString => None
        | run =>
            if Str.startsWith (Str.dropWhile isDigitOrDot s') "/min"
            then Some ("$" ++ run ++ "/min")%string
            else None
        end
      else None
  | EmptyString => None
  end.

Fixpoint rateTextMatch (text : string) : option string :=
  match matchRateTextAt text with
  | Some m => Some m
  | None =>
      match text with
      | EmptyString => None
      | String _ text' => rateTextMatch text'
      end
  end.

Definition linkHasText (label : string) : string :=
  "a:has-text(" ++ quoted label ++ ")".

Definition attrHas (attr word : string) : string :=
  "[" ++ attr ++ "*=" ++ quoted word ++ "]".

(** [tag[attr*="word" i]] *)
Definition attrHasI (tag attr word : string) : string :=
  tag ++ "[" ++ attr ++ "*=" ++ quoted word ++ " i]".

Definition cookieButtons : list string :=
  [ hasText "Accept All";
    hasText "Accept Cookies";
    hasText "Accept";
    hasText "I Agree";
    hasText "Got it";
    hasText "OK" ].

Fixpoint clickCookie (b : Browser) (selectors : list string) : M unit :=
  match selectors with
  | [] => ret tt
  | selector :: rest =>
      (done <-
         catch
           (button <- ask (QuerySelector selector) (querySelector b selector) ;;
            if button : bool then
              ask (Click selector) (click b selector) ;;;
              ask (WaitForTimeout 300) (waitForTimeout b) ;;;
              ret true
            else ret false)
           (fun _ => ret false) ;;
       if done : bool then ret tt else clickCookie b rest)%step
  end.

Definition dismissCookieBanners (pg : BookingPage) : M unit :=
  (ask (WaitForTimeout 1500) (waitForTimeout (browserOf pg)) ;;;
   catch (ask Evaluate (removeBanners pg)) (fun _ => ret tt) ;;;
   clickCookie (browserOf pg) cookieButtons)%step.

Definition bookingButtonSelectors : list string :=
  [ hasText "Request a Call";
    hasText "Schedule a Call";
    hasText "Book a Call";
    hasText "Request Call";
    linkHasText "Request a Call";
    linkHasText "Schedule a Call";
    attrHas "class" "book-button";
    attrHas "class" "cta-button";
    attrHas "data-testid" "book";
    attrHas "data-testid" "request" ].

(** The loop over the booking buttons, from the value [bookingClicked]
    has: the value it ends with.  A round that throws after its click
    has set the flag goes on to the next selector with the flag set. *)
Fixpoint clickBooking (b : Browser) (selectors : list string)
  (bookingClicked : bool) : M bool :=
  match selectors with
  | [] => ret bookingClicked
  | selector :: rest =>
      (round <-
         catch
           (btn <- ask (QuerySelector selector) (querySelector b selector) ;;
            if btn : bool then
              ask (Click selector) (click b selector) ;;;
              catch
                (ask (WaitForTimeout 2000) (waitForTimeout b) ;;;
                 ret (true, true))
                (fun _ => ret (false, true))
            else ret (false, bookingClicked))
           (fun _ => ret (false, bookingClicked)) ;;
       if fst round : bool then ret (snd round)
       else clickBooking b rest (snd round))%step
  end.

Definition durationSelect : string :=
  attrHasI "select" "name" "duration" ++ ", "
  ++ attrHasI "select" "id" "duration" ++ ", "
  ++ attrHasI "select" "class" "duration".

Definition durationInput : string :=
  attrHasI "input" "name" "duration" ++ ", " ++ attrHasI "input" "id" "duration".

Definition fillDuration (pg : BookingPage) (minutes : number) : M unit :=
  (catch
     (found <- ask (QuerySelector durationSelect)
                 (querySelector (browserOf pg) durationSelect) ;;
      if found : bool then
        catch (lift (selectOption pg (ByValue minutes)))
          (fun _ =>
             catch (lift (selectOption pg (ByLabel minutes "minutes")))
               (fun _ => lift (selectOption pg (ByLabel minutes "min"))))
      else
        input <- ask (QuerySelector durationInput)
                   (querySelector (browserOf pg) durationInput) ;;
        if input : bool then lift (fill pg durationInput (Minutes minutes))
        else ret tt)
     (fun _ => ret tt))%step.

(** The loops over the selectors of a field: the first field found is
    filled. *)
Fixpoint fillFirst (pg : BookingPage) (selectors : list string) (value : string)
  : M unit :=
  match selectors with
  | [] => ret tt
  | selector :: rest =>
      (done <-
         catch
           (found <- ask (QuerySelector selector)
                       (querySelector (browserOf pg) selector) ;;
            if found : bool then
              lift (fill pg selector (Text value)) ;;; ret true
            else ret false)
           (fun _ => ret false) ;;
       if done : bool then ret tt else fillFirst pg rest value)%step
  end.

Definition topicSelectors : list string :=
  [ attrHasI "textarea" "name" "topic";
    attrHasI "textarea" "name" "message";
    attrHasI "textarea" "name" "description";
    attrHasI "textarea" "placeholder" "topic";
    attrHasI "textarea" "placeholder" "discuss";
    attrHasI "textarea" "placeholder" "message";
    attrHasI "input" "name" "topic";
    "textarea" ].

Definition phoneSelectors : list string :=
  [ attrHasI "input" "name" "phone";
    ("input[type=" ++ quoted "tel" ++ "]")%string;
    attrHasI "input" "id" "phone";
    attrHasI "input" "placeholder" "phone" ].

Definition dateSelector : string :=
  "input[type=" ++ quoted "datetime-local" ++ "], input[type=" ++ quoted "date"
  ++ "], " ++ attrHasI "input" "name" "time" ++ ", "
  ++ attrHasI "input" "name" "date" ++ ", " ++ attrHasI "input" "name" "slot".

(** The loop over the first [min(slots.length, dateInputs.length)]
    inputs, from index [i]. *)
Fixpoint fillSlotsFrom (pg : BookingPage) (i : nat) (slots : list string)
  (inputs : nat) : M unit :=
  match slots, inputs with
  | slot :: rest, S inputs' =>
      (catch (lift (fillDate pg i slot))
         (fun _ => ask Evaluate (setDate pg i slot)) ;;;
       fillSlotsFrom pg (S i) rest inputs')%step
  | _, _ => ret tt
  end.

(** [[slot1, slot2, slot3].filter(Boolean)] *)
Definition givenSlots (options : FillBookingOptions) : list string :=
  omap (fun s => match s with
                 | Some t => if Str.truthy t then Some t else None
                 | None => None
                 end)
       [slot1 options; slot2 options; slot3 options].

Definition fillSlots (pg : BookingPage) (slots : list string) : M unit :=
  if (0 <? length slots)%nat then
    (catch
       (inputs <- ask (QuerySelector dateSelector) (dateInputs pg) ;;
        fillSlotsFrom pg 0 slots inputs)
       (fun _ => ret tt))%step
  else ret tt.

(** [options.duration || 30] *)
Definition durationOr30 (options : FillBookingOptions) : number :=
  match duration options with
  | Some d => JsNum.or d (Num 30)
  | None => Num 30
  end.

(** [options.phone || this.config.clarity.phone] *)
Definition phoneOf (cfg : Config) (options : FillBookingOptions) : string :=
  match phone options with
  | Some p => if Str.truthy p then p else configPhone cfg
  | None => configPhone cfg
  end.

Definition budgetCheck (cfg : Config) (cost : number) : option (number * number) :=
  match monthlyBudget cfg with
  | Some budget =>
      if JsNum.truthy budget && JsNum.gt cost (Num 0) then
        if JsNum.gt cost budget then Some (cost, budget) else None
      else None
  | None => None
  end.

(** What [fillBooking] does once it is logged in and has the normalised
    user name.  Of the interactions with the page the trace records the
    queries, clicks, waits, screenshots and evaluations; navigating and
    typing leave no entry. *)
Definition fillForm (pg : BookingPage) (cfg : Config)
  (options : FillBookingOptions) (username : string) : M FillResult :=
  let b := browserOf pg in
  let profileUrl := (CLARITY_BASE ++ "/" ++ username)%string in
  let minutes := durationOr30 options in
  (lift (goto pg profileUrl) ;;;
   ask (WaitForTimeout 3000) (waitForTimeout b) ;;;
   dismissCookieBanners pg ;;;
   text <- ask Evaluate (bodyText pg) ;;
   let rateText := match rateTextMatch text with
                   | Some m => m
                   | None => EmptyString
                   end in
   let perMinute := parseRate rateText in
   let cost := JsNum.mul perMinute minutes in
   shownName <- ask Evaluate (heading pg) ;;
   bookingClicked <- clickBooking b bookingButtonSelectors false ;;
   if negb bookingClicked then
     let errorScreenshot := shotPath b "clarity-booking-no-button" in
     takeShot b errorScreenshot ;;;
     ret (FillError
            ("Could not find booking button for " ++ quoted username
             ++ ". Expert may not accept calls. See: " ++ errorScreenshot)
            errorScreenshot)
   else
     ask (WaitForTimeout 2000) (waitForTimeout b) ;;;
     fillDuration pg minutes ;;;
     match topic options with
     | Some t => if Str.truthy t then fillFirst pg topicSelectors t else ret tt
     | None => ret tt
     end ;;;
     fillFirst pg phoneSelectors (phoneOf cfg options) ;;;
     fillSlots pg (givenSlots options) ;;;
     let shot := shotPath b ("clarity-booking-filled-" ++ username) in
     takeShot b shot ;;;
     updateSession [("bookingFilled", JBool true);
                    ("currentExpert", JString username)] ;;;
     ret (FillOk
            {| screenshotPath := shot;
               expertName := if Str.truthy shownName then shownName else username;
               expertProfileUrl := profileUrl;
               estimatedCost := cost;
               costPerMinute := perMinute;
               bookedDuration := minutes;
               bookedTopic := topic options;
               budgetWarning := budgetCheck cfg cost |}))%step.

(** [fillBooking].  [ensureLoggedIn] is the step that logs in, whatever
    it does to the session file and to the trace; [pathname] is the
    address parser of [normalizeUsername]. *)
Definition fillBooking (ensureLoggedIn : M unit)
  (pathname : string -> completion string) (pg : BookingPage) (cfg : Config)
  (options : FillBookingOptions) : M FillResult :=
  (ensureLoggedIn ;;;
   username <- lift (normalizeUsername pathname (expert options)) ;;
   fillForm pg cfg options username)%step.

End FillBooking.

(** A step that leaves the session file as it found it. *)
Definition keepsSession {A : Type} (c : M A) : Prop :=
  forall w, sessionFile (snd (c w)) = sessionFile w.

(** What [updateSession] makes of the session file when it records a
    filled booking for [username] and returns. *)
Definition recorded (username : string) (f f' : File) : Prop :=
  match f with
  | Missing => f' = Missing
  | Json (JObject fields) =>
      f' = Json (JObject (setField "currentExpert" (JString username)
                            (setField "bookingFilled" (JBool true) fields)))
  | Json JNull => False
  | Json other => f' = Json other
  | Unreadable => False
  | NotJson => False
  end.

(** A step that changes the session file only by recording a filled
    booking, and only when it answers with success. *)
Definition recordsOnSuccess (username : string) (c : M FillBooking.FillResult)
  : Prop :=
  forall w,
    match c w with
    | (Normal (FillBooking.FillOk _), w') =>
        recorded username (sessionFile w) (sessionFile w')
    | (_, w') => sessionFile w' = sessionFile w
    end.

(** A step whose answers, when it returns, all satisfy [Q]. *)
Definition answers {A : Type} (Q : A -> Prop) (c : M A) : Prop :=
  forall w r w', c w = (Normal r, w') -> Q r.

(** The button behind [selector] is found and the click on it returns. *)
Definition canClick (b : Browser) (selector : string) : bool :=
  match querySelector b selector, click b selector with
  | Normal true, Normal _ => true
  | _, _ => false
  end.

(** What every answer of [fillForm] satisfies. *)
Definition fillFormAnswer (pg : FillBooking.BookingPage)
  (cfg : FillBooking.Config) (options : FillBooking.FillBookingOptions)
  (u : string) (res : FillBooking.FillResult) : Prop :=
  let clickable :=
    existsb (canClick (FillBooking.browserOf pg))
      FillBooking.bookingButtonSelectors in
  match res with
  | FillBooking.FillError _ shot =>
      clickable = false /\
      shot = shotPath (FillBooking.browserOf pg) "clarity-booking-no-button"
  | FillBooking.FillOk r =>
      clickable = true /\
      FillBooking.bookedDuration r = FillBooking.durationOr30 options /\
      FillBooking.estimatedCost r
      = JsNum.mul (FillBooking.costPerMinute r) (FillBooking.bookedDuration r) /\
      (exists text,
         FillBooking.bodyText pg = Normal text /\
         FillBooking.costPerMinute r
         = FillBooking.parseRate
             (match FillBooking.rateTextMatch text with
              | Some m => m
              | None => EmptyString
              end)) /\
      FillBooking.budgetWarning r
      = FillBooking.budgetCheck cfg (FillBooking.estimatedCost r) /\
      FillBooking.expertProfileUrl r = (CLARITY_BASE ++ "/" ++ u)%string
  end.

Module Sample4.

Definition page (text : string) (found : string -> bool) : FillBooking.BookingPage :=
  {| FillBooking.browserOf :=
       {| reconnect := Reused; unlinkSession := Normal tt; launch := Normal tt;
     wsEndpoint := None;
          clock := "17";
          querySelector := fun s => Normal (found s);
          isVisible := fun _ => Normal true;
          click := fun _ => Normal tt;
          waitForTimeout := Normal tt;
          screenshot := Normal tt;
          evaluate := Throw "page closed" |};
     FillBooking.goto := fun _ => Normal tt;
     FillBooking.removeBanners := Normal tt;
     FillBooking.bodyText := Normal text;
     FillBooking.heading := Normal "Jane Doe";
     FillBooking.selectOption := fun _ => Normal tt;
     FillBooking.fill := fun _ _ => Normal tt;
     FillBooking.dateInputs := Normal 0%nat;
     FillBooking.fillDate := fun _ _ => Normal tt;
     FillBooking.setDate := fun _ _ => Normal tt |}.

(** A profile page at $2.50 per minute with a "Request a Call" button. *)
Definition janePage : FillBooking.BookingPage :=
  page "Jane Doe $2.50/min Request a Call"
       (fun s => String.eqb s (hasText "Request a Call")).

(** The same page without any booking button. *)
Definition noButtonPage : FillBooking.BookingPage :=
  page "Jane Doe $2.50/min" (fun _ => false).

Definition config : FillBooking.Config :=
  {| FillBooking.configPhone := "+15550100";
     FillBooking.monthlyBudget := Some (Num 100) |}.

Definition options (minutes : Q) : FillBooking.FillBookingOptions :=
  {| FillBooking.expert := "@jane";
     FillBooking.duration := Some (Num minutes);
     FillBooking.topic := Some "pricing";
     FillBooking.slot1 := None; FillBooking.slot2 := None;
     FillBooking.slot3 := None; FillBooking.phone := None |}.

Definition loggedIn : M unit := ret tt.

Definition noFileWorld : World := {| sessionFile := Missing; trace := [] |}.

End Sample4.

Module Sample5.

(** A browser that is gone: reconnecting throws, a new one is launched. *)
Definition browserGone : Browser :=
  {| reconnect := ConnectFails; unlinkSession := Normal tt;
     launch := Normal tt;
     wsEndpoint := Some "ws://127.0.0.1:9333";
     clock := "18";
     querySelector := fun _ => Normal true;
     isVisible := fun _ => Normal true;
     click := fun _ => Normal tt;
     waitForTimeout := Normal tt;
     screenshot := Normal tt;
     evaluate := Throw "page closed" |}.

(** The same, when the record cannot be removed and no browser can be
    launched. *)
Definition browserStuck : Browser :=
  {| reconnect := ConnectFails;
     unlinkSession := Throw "EPERM: operation not permitted, unlink";
     launch := Throw "Failed to launch the browser process";
     wsEndpoint := None;
     clock := "18";
     querySelector := fun _ => Normal true;
     isVisible := fun _ => Normal true;
     click := fun _ => Normal tt;
     waitForTimeout := Normal tt;
     screenshot := Normal tt;
     evaluate := Throw "page closed" |}.

End Sample5.

(** ** The dashboard *)

Module Dashboard.

(** An entry of the dashboard as the extraction reads it: its text, and
    the text of the first element inside it that the selector for the
    name, the status or the topic finds ([None] when there is none). *)
Record Entry : Type := {
  entryText : string;
  nameText : option string;
  statusText : option string;
  topicText : option string
}.

Record CallEntry : Type := {
  expertName : string;
  date : string;
  duration : string;
  cost : string;
  status : string;
  topic : string
}.

(** The first match of a pattern: the positions are tried from left to
    right. *)
Fixpoint firstMatch (attempt : string -> option string) (text : string)
  : option string :=
  match attempt text with
  | Some m => Some m
  | None =>
      match text with
      | EmptyString => None
      | String _ text' => firstMatch attempt text'
      end
  end.

Definition isWord (c : ascii) : bool :=
  Str.isDigit c || Str.isUpper c || Str.isLower c || Ascii.eqb c "_".

Definition isDateSep (c : ascii) : bool := Ascii.eqb c "/" || Ascii.eqb c "-".

(** One or two digits followed by something that is not a digit: the
    digits and what follows.  Where the pattern goes on with a character
    that is not a digit, giving back a digit cannot help. *)
Definition oneOrTwoDigits (s : string) : option (string * string) :=
  let run := Str.takeWhile Str.isDigit s in
  if (1 <=? len run)%nat && (len run <=? 2)%nat
  then Some (run, Str.dropWhile Str.isDigit s)
  else None.

(** One or two digits, a slash or a dash, one or two digits, a slash or
    a dash, two to four digits. *)
Definition matchNumericDateAt (s : string) : option string :=
  match oneOrTwoDigits s with
  | Some (d1, String c1 r1) =>
      if isDateSep c1 then
        match oneOrTwoDigits r1 with
        | Some (d2, String c2 r2) =>
            if isDateSep c2 then
              let run := Str.takeWhile Str.isDigit r2 in
              if (2 <=? len run)%nat
              then Some (d1 ++ String c1 (d2 ++ String c2 (String.substring 0 4 run)))%string
              else None
            else None
        | _ => None
        end
      else None
  | _ => None
  end.

(** A word, a space, one or two digits, an optional comma, a space,
    four digits. *)
Definition matchWordyDateAt (s : string) : option string :=
  match Str.takeWhile isWord s, Str.dropWhile isWord s with
  | String w0 w', String sp r1 =>
      if Ascii.eqb sp " " then
        match oneOrTwoDigits r1 with
        | Some (d, r2) =>
            let '(comma, r3) :=
              match r2 with
              | String c r =>
                  if Ascii.eqb c "," then (","%string, r) else (EmptyString, r2)
              | EmptyString => (EmptyString, r2)
              end in
            match r3 with
            | String sp2 r4 =>
                let run := Str.takeWhile Str.isDigit r4 in
                if Ascii.eqb sp2 " " && (4 <=? len run)%nat
                then Some (String w0 w' ++ " " ++ d ++ comma ++ " "
                           ++ String.substring 0 4 run)%string
                else None
            | EmptyString => None
            end
        | None => None
        end
      else None
  | _, _ => None
  end.

Definition matchDateAt (s : string) : option string :=
  match matchNumericDateAt s with
  | Some m => Some m
  | None => matchWordyDateAt s
  end.

(** Digits (captured), white space, "min" without regard to case. *)
Definition matchDurationAt (s : string) : option string :=
  match Str.takeWhile Str.isDigit s with
  | EmptyString => None
  | run =>
      if Str.startsWithCI
           (Str.dropWhile Str.isSpace (Str.dropWhile Str.isDigit s)) "min"
      then Some run
      else None
  end.

(** A dollar sign and digits or dots. *)
Definition matchCostAt (s : string) : option string :=
  match s with
  | String c r =>
      if Ascii.eqb c "$" then
        match Str.takeWhile isDigitOrDot r with
        | EmptyString => None
        | run => Some ("$" ++ run)%string
        end
      else None
  | EmptyString => None
  end.

(** [el?.textContent?.trim() || ""] *)
Definition trimmed (t : option string) : string :=
  match t with
  | Some s => Str.trim s
  | None => EmptyString
  end.

(** The test on the status that goes with a filter. *)
Definition passes (filter status : string) : bool :=
  String.eqb filter "all"
  || (String.eqb filter "upcoming"
      && (Str.includes status "upcoming" || Str.includes status "scheduled"))
  || (String.eqb filter "pending" && Str.includes status "pending")
  || (String.eqb filter "completed"
      && (Str.includes status "completed" || Str.includes status "done")).

(** One round of the loop over the entries: the call pushed, if any. *)
Definition callOf (filter : string) (entry : Entry) : option CallEntry :=
  let text := entryText entry in
  let expertName := trimmed (nameText entry) in
  let date := match firstMatch matchDateAt text with
              | Some m => m
              | None => EmptyString
              end in
  let duration := match firstMatch matchDurationAt text with
                  | Some d => (d ++ " min")%string
                  | None => EmptyString
                  end in
  let cost := match firstMatch matchCostAt text with
              | Some m => m
              | None => EmptyString
              end in
  let status := Str.toLowerCase (trimmed (statusText entry)) in
  let topic := trimmed (topicText entry) in
  if Str.truthy expertName || Str.truthy date then
    if passes filter status
    then Some {| expertName := expertName; date := date; duration := duration;
                 cost := cost; status := status; topic := topic |}
    else None
  else None.

Definition entrySelectors : list string :=
  [ classHas "call-item";
    classHas "booking-item";
    classHas "appointment";
    ("tr, " ++ classHas "row")%string ].

(** The elements of the first selector that finds any. *)
Fixpoint foundEntries (querySelectorAll : string -> list Entry)
  (selectors : list string) : list Entry :=
  match selectors with
  | [] => []
  | sel :: rest =>
      match querySelectorAll sel with
      | [] => foundEntries querySelectorAll rest
      | found => found
      end
  end.

(** The function evaluated in the dashboard page. *)
Definition extractCalls (querySelectorAll : string -> list Entry)
  (filter : string) : list CallEntry :=
  omap (callOf filter) (foundEntries querySelectorAll entrySelectors).

(** The answers of the dashboard page during one call: those it shares
    with every page, the outcome of waiting for a selector, and the
    elements a selector finds (or the error of the evaluation). *)
Record Page : Type := {
  pageOf : FillBooking.BookingPage;
  waitForSelector : string -> completion unit;
  document : completion (string -> list Entry)
}.

Record ListResult : Type := {
  calls : list CallEntry;
  statusFilter : string;
  totalCalls : nat;
  screenshotPath : string
}.

Definition CLARITY_DASHBOARD_URL : string := (CLARITY_BASE ++ "/dashboard")%string.

Definition waitForSPAContent (pg : Page) (indicator : string) : M unit :=
  (catch (lift (waitForSelector pg ("text=" ++ quoted "Loading...")%string))
     (fun _ => ret tt) ;;;
   catch (lift (waitForSelector pg
                  (classHas "loading" ++ ", " ++ classHas "spinner")%string))
     (fun _ => ret tt) ;;;
   lift (waitForSelector pg indicator))%step.

(** [options.status || "all"] *)
Definition statusOrAll (status : option string) : string :=
  match status with
  | Some s => if Str.truthy s then s else "all"
  | None => "all"
  end.

(** [listCalls]; [ensureLoggedIn] is the step that logs in. *)
Definition listCalls (ensureLoggedIn : M unit) (pg : Page)
  (status : option string) : M ListResult :=
  let b := FillBooking.browserOf (pageOf pg) in
  (ensureLoggedIn ;;;
   lift (FillBooking.goto (pageOf pg) CLARITY_DASHBOARD_URL) ;;;
   ask (WaitForTimeout 3000) (waitForTimeout b) ;;;
   FillBooking.dismissCookieBanners (pageOf pg) ;;;
   catch
     (waitForSPAContent pg
        (classHas "call" ++ ", " ++ classHas "booking" ++ ", "
         ++ classHas "dashboard")%string)
     (fun _ => ret tt) ;;;
   let shot := shotPath b "clarity-dashboard" in
   takeShot b shot ;;;
   let filter := statusOrAll status in
   querySelectorAll <- ask Evaluate (document pg) ;;
   let found := extractCalls querySelectorAll filter in
   ret {| calls := found;
          statusFilter := filter;
          totalCalls := length found;
          screenshotPath := shot |})%step.

End Dashboard.

Module Sample6.

Definition entryOf (text who state : string) : Dashboard.Entry :=
  {| Dashboard.entryText := text;
     Dashboard.nameText := Some who;
     Dashboard.statusText := Some state;
     Dashboard.topicText := None |}.

(** A dashboard with one upcoming and one completed call. *)
Definition dashboard : Dashboard.Page :=
  {| Dashboard.pageOf := Sample4.janePage;
     Dashboard.waitForSelector := fun _ => Normal tt;
     Dashboard.document :=
       Normal (fun sel =>
                 if String.eqb sel (classHas "call-item")
                 then [entryOf "Jane Doe Jan 5, 2024 30 min $75.00" " Jane Doe "
                         " Upcoming ";
                       entryOf "Bob B 12/01/2023 15 min $15" "Bob B" "Completed"]
                 else []) |}.

End Sample6.

(** * Theorems *)

(** ** The value score *)

Lemma Qeq_bool_false_of_pos (r : Q) : (0 < r)%Q -> Qeq_bool r 0 = false.
Proof.
  intros Hr. destruct (Qeq_bool r 0) eqn:E; [|reflexivity].
  apply Qeq_bool_eq in E. lra.
Qed.

(** *** Doubles *)

Module DoubleFacts.
Import Double.

Lemma digits2_pos_size (m : positive) : digits2_pos m = Pos.size m.
Proof. induction m; cbn; congruence. Qed.

Lemma pos_lt_pow_digits (m : positive) : (Zpos m < 2 ^ Zpos (digits2_pos m))%Z.
Proof.
  rewrite digits2_pos_size. pose proof (Pos.size_gt m) as H.
  apply Pos2Z.pos_lt_pos in H. rewrite Pos2Z.inj_pow in H. exact H.
Qed.

Lemma pow_digits_le (m : positive) : (2 ^ Zpos (digits2_pos m) <= 2 * Zpos m)%Z.
Proof.
  rewrite digits2_pos_size. pose proof (Pos.size_le m) as H.
  apply Pos2Z.pos_le_pos in H. rewrite Pos2Z.inj_pow in H. exact H.
Qed.

Lemma Zdigits2_bound (m : Z) : (0 <= m)%Z -> (m < 2 ^ Zdigits2 m \/ m = 0)%Z.
Proof.
  destruct m as [|p|p]; intros H; [now right| |lia].
  left. apply pos_lt_pow_digits.
Qed.

Lemma shr_1_m (r : shr_record) :
  (0 <= shr_m r)%Z -> shr_m (shr_1 r) = (shr_m r / 2)%Z.
Proof.
  destruct r as [m rb sb]. cbn [shr_m]. intros H.
  destruct m as [|[p|p|]|p]; cbn [shr_1 shr_m].
  - reflexivity.
  - rewrite Pos2Z.inj_xI. apply Z.div_unique with (r := 1%Z); lia.
  - rewrite Pos2Z.inj_xO. apply Z.div_unique with (r := 0%Z); lia.
  - reflexivity.
  - lia.
Qed.

Lemma iter_shr_1_m (p : positive) :
  forall r, (0 <= shr_m r)%Z ->
  shr_m (@SpecFloat.iter_pos _ shr_1 p r) = (shr_m r / 2 ^ Zpos p)%Z.
Proof.
  induction p as [p IH|p IH|]; intros r Hr; cbn [SpecFloat.iter_pos].
  - assert (H1 : (0 <= shr_m (shr_1 r))%Z)
      by (rewrite shr_1_m by exact Hr; apply Z.div_pos; lia).
    assert (H2 : (0 <= shr_m (@SpecFloat.iter_pos _ shr_1 p (shr_1 r)))%Z)
      by (rewrite IH by exact H1; apply Z.div_pos; [exact H1|lia]).
    rewrite IH by exact H2. rewrite IH by exact H1. rewrite shr_1_m by exact Hr.
    rewrite !Z.div_div by lia. f_equal.
    rewrite <- Z.pow_add_r by lia.
    rewrite <- (Z.pow_1_r 2) at 1. rewrite <- Z.pow_add_r by lia.
    f_equal. lia.
  - assert (H2 : (0 <= shr_m (@SpecFloat.iter_pos _ shr_1 p r))%Z)
      by (rewrite IH by exact Hr; apply Z.div_pos; [exact Hr|lia]).
    rewrite IH by exact H2. rewrite IH by exact Hr.
    rewrite Z.div_div by lia. f_equal.
    rewrite <- Z.pow_add_r by lia. f_equal. lia.
  - rewrite shr_1_m by exact Hr. reflexivity.
Qed.

Lemma shr_record_of_loc_m (m : Z) (l : location) :
  shr_m (shr_record_of_loc m l) = m.
Proof. destruct l as [|[]]; reflexivity. Qed.

(** After the shift that [shr_fexp] makes, the mantissa has at most
    [prec] binary digits. *)
Lemma shr_fexp_bound (m e : Z) (l : location) :
  (0 <= m)%Z ->
  (0 <= shr_m (fst (shr_fexp prec emax m e l)) < 2 ^ prec)%Z.
Proof.
  intros Hm. unfold shr_fexp, shr.
  set (d := Zdigits2 m).
  assert (Hd : (m < 2 ^ d \/ m = 0)%Z) by (apply Zdigits2_bound; exact Hm).
  assert (Hd0 : (0 <= d)%Z) by (unfold d; destruct m; cbn; lia).
  assert (Hn : (d - prec <= fexp prec emax (d + e) - e)%Z)
    by (unfold fexp; lia).
  destruct (fexp prec emax (d + e) - e)%Z as [|p|p] eqn:En; cbn [fst].
  - rewrite shr_record_of_loc_m. split; [exact Hm|].
    destruct Hd as [Hd| ->]; [|unfold prec; lia].
    eapply Z.lt_le_trans; [exact Hd|]. apply Z.pow_le_mono_r; lia.
  - rewrite iter_shr_1_m by (rewrite shr_record_of_loc_m; exact Hm).
    rewrite shr_record_of_loc_m. split; [apply Z.div_pos; lia|].
    apply Z.div_lt_upper_bound; [lia|].
    rewrite <- Z.pow_add_r by (unfold prec; lia).
    destruct Hd as [Hd| ->]; [|apply Z.pow_pos_nonneg; unfold prec; lia].
    eapply Z.lt_le_trans; [exact Hd|]. apply Z.pow_le_mono_r; lia.
  - rewrite shr_record_of_loc_m. split; [exact Hm|].
    destruct Hd as [Hd| ->]; [|unfold prec; lia].
    eapply Z.lt_le_trans; [exact Hd|]. apply Z.pow_le_mono_r; lia.
Qed.

Lemma round_nearest_even_bound (m : Z) (l : location) :
  (0 <= m)%Z -> (0 <= round_nearest_even m l)%Z.
Proof.
  intros Hm. destruct l as [|[]]; cbn [round_nearest_even]; try lia.
  destruct (Z.even m); lia.
Qed.

(** A finite result of the rounding has a mantissa below [2 ^ prec]. *)
Lemma binary_round_aux_bounded (sx : bool) (mx ex : Z) (lx : location)
    (s : bool) (m : positive) (e : Z) :
  (0 <= mx)%Z ->
  binary_round_aux prec emax sx mx ex lx = S754_finite s m e ->
  (Zpos m < 2 ^ prec)%Z.
Proof.
  intros Hmx. unfold binary_round_aux.
  destruct (shr_fexp prec emax mx ex lx) as [mrs1 e1] eqn:E1.
  pose proof (shr_fexp_bound mx ex lx Hmx) as H1. rewrite E1 in H1.
  cbn [fst] in H1.
  set (m2 := round_nearest_even (shr_m mrs1) (loc_of_shr_record mrs1)).
  assert (H2 : (0 <= m2)%Z) by (apply round_nearest_even_bound; lia).
  destruct (shr_fexp prec emax m2 e1 loc_Exact) as [mrs3 e3] eqn:E3.
  pose proof (shr_fexp_bound m2 e1 loc_Exact H2) as H3. rewrite E3 in H3.
  cbn [fst] in H3.
  destruct (shr_m mrs3) as [|p|p]; try discriminate.
  destruct (e3 <=? emax - prec)%Z; [|discriminate].
  intros [= _ <- _]. lia.
Qed.

Lemma mul_bounded (a b : double) (s : bool) (m : positive) (e : Z) :
  mul a b = S754_finite s m e -> (Zpos m < 2 ^ prec)%Z.
Proof.
  unfold mul, SFmul.
  destruct a as [sa|sa| |sa ma ea], b as [sb|sb| |sb mb eb]; try discriminate.
  apply binary_round_aux_bounded. lia.
Qed.

Lemma iter_xO_value (p k : positive) :
  Zpos (Pos.iter xO p k) = (Zpos p * 2 ^ Zpos k)%Z.
Proof.
  induction k as [|k IH] using Pos.peano_ind.
  - cbn. lia.
  - rewrite Pos.iter_succ, Pos2Z.inj_xO, IH, Pos2Z.inj_succ, Z.pow_succ_r by lia.
    ring.
Qed.

Lemma iter_xO_digits (p k : positive) :
  Zpos (digits2_pos (Pos.iter xO p k)) = (Zpos (digits2_pos p) + Zpos k)%Z.
Proof.
  induction k as [|k IH] using Pos.peano_ind.
  - cbn. lia.
  - rewrite Pos.iter_succ. cbn [digits2_pos]. rewrite Pos2Z.inj_succ, IH. lia.
Qed.

Lemma digits_le_prec (p : positive) :
  (Zpos p < 2 ^ prec)%Z -> (Zpos (digits2_pos p) <= prec)%Z.
Proof.
  intros H. pose proof (pow_digits_le p) as Hle.
  assert (Hlt : (2 ^ Zpos (digits2_pos p) < 2 ^ (prec + 1))%Z).
  { rewrite Z.pow_add_r by (unfold prec; lia). change (2 ^ 1)%Z with 2%Z. lia. }
  apply Z.pow_lt_mono_r_iff in Hlt; unfold prec in *; lia.
Qed.

(** A mantissa of exactly [prec] digits is left as it is. *)
Lemma binary_round_aux_exact (s : bool) (m : positive) (e : Z) :
  Zpos (digits2_pos m) = prec -> (-1074 <= e <= 971)%Z ->
  binary_round_aux prec emax s (Zpos m) e loc_Exact = S754_finite s m e.
Proof.
  intros Hd He. unfold binary_round_aux, shr_fexp. cbn [Zdigits2]. rewrite Hd.
  replace (fexp prec emax (prec + e) - e)%Z with 0%Z
    by (unfold fexp, emin, prec, emax; lia).
  cbn [shr shr_record_of_loc shr_m loc_of_shr_record round_nearest_even
       Zdigits2].
  rewrite Hd.
  replace (fexp prec emax (prec + e) - e)%Z with 0%Z
    by (unfold fexp, emin, prec, emax; lia).
  cbn [shr shr_record_of_loc shr_m].
  replace (e <=? emax - prec)%Z with true
    by (symmetry; apply Z.leb_le; unfold prec, emax; lia).
  reflexivity.
Qed.

(** An integer below [2 ^ prec] is represented exactly. *)
Lemma binary_round_exact (s : bool) (p : positive) :
  (Zpos p < 2 ^ prec)%Z ->
  exists m e,
    binary_round prec emax s p 0 = S754_finite s m e /\
    (-52 <= e <= 0)%Z /\ Zpos m = (Zpos p * 2 ^ (- e))%Z.
Proof.
  intros Hp. pose proof (digits_le_prec p Hp) as Hd.
  assert (Hd1 : (1 <= Zpos (digits2_pos p))%Z) by lia.
  unfold binary_round.
  replace (fexp prec emax (Zpos (digits2_pos p) + 0))
    with (Zpos (digits2_pos p) - prec)%Z
    by (unfold fexp, emin, prec, emax in *; lia).
  unfold shl_align. rewrite Z.sub_0_r.
  destruct (Zpos (digits2_pos p) - prec)%Z as [|k|k] eqn:Ek.
  - exists p, 0%Z. split; [|split; [lia|cbn; lia]].
    apply binary_round_aux_exact; lia.
  - lia.
  - exists (Pos.iter xO p k), (Zneg k). split; [|split].
    + apply binary_round_aux_exact.
      * rewrite iter_xO_digits. lia.
      * unfold prec in *. lia.
    + unfold prec in *. lia.
    + rewrite iter_xO_value. reflexivity.
Qed.

Lemma Qfloor_unique (z : Q) (n : Z) :
  (inject_Z n <= z)%Q -> (z < inject_Z n + 1)%Q -> Qfloor z = n.
Proof.
  intros Hle Hlt.
  pose proof (Qfloor_le z) as H1. pose proof (Qlt_floor z) as H2.
  assert (Ha : (inject_Z (Qfloor z) < inject_Z (n + 1))%Q)
    by (rewrite inject_Z_plus; change (inject_Z 1) with 1%Q; lra).
  assert (Hb : (inject_Z n < inject_Z (Qfloor z + 1))%Q) by lra.
  rewrite <- Zlt_Qlt in Ha, Hb. lia.
Qed.

Lemma pow2_pos (k : Z) : (0 <= k)%Z -> (0 < inject_Z (2 ^ k))%Q.
Proof.
  intros Hk. change 0%Q with (inject_Z 0). rewrite <- Zlt_Qlt.
  apply Z.pow_pos_nonneg; lia.
Qed.

(** The value of a double that [binary_normalize] makes of an integer
    below [2 ^ prec] is that integer. *)
Lemma normalize_value (n : Z) (sz : bool) :
  (Z.abs n < 2 ^ prec)%Z ->
  exists v, value (binary_normalize prec emax n 0 sz) = Some v /\
            (v == inject_Z n)%Q.
Proof.
  intros Hn.
  assert (Hfin : forall s p, (Zpos p < 2 ^ prec)%Z ->
            exists v, value (binary_round prec emax s p 0) = Some v /\
                      (v == inject_Z (signed s p))%Q).
  { intros s p Hp.
    destruct (binary_round_exact s p Hp) as (m & e & -> & He & Hm).
    cbn [value]. eexists. split; [reflexivity|].
    unfold signed. destruct (Z.leb_spec 0 e) as [H0|H0].
    - assert (e = 0%Z) as -> by lia. cbn [Z.opp] in Hm.
      change (2 ^ 0)%Z with 1%Z in *. rewrite Z.mul_1_r in *.
      destruct s; cbn [cond_Zopp]; rewrite ?Z.mul_1_r, Hm; reflexivity.
    - pose proof (pow2_pos (- e) ltac:(lia)) as Hpos.
      destruct s; cbn [cond_Zopp].
      + rewrite !inject_Z_opp, Hm, inject_Z_mult. field. lra.
      + rewrite Hm, inject_Z_mult. field. lra. }
  destruct n as [|p|p]; cbn [binary_normalize].
  - exists 0%Q. split; reflexivity.
  - apply (Hfin false p). exact Hn.
  - apply (Hfin true p). exact Hn.
Qed.

Lemma nearestInteger_spec (s : bool) (m : positive) (e : Z) :
  (e < 0)%Z ->
  let v := (inject_Z (signed s m) / inject_Z (2 ^ (- e)))%Q in
  (inject_Z (nearestInteger s m e) <= v + (1 # 2))%Q /\
  (v + (1 # 2) < inject_Z (nearestInteger s m e) + 1)%Q.
Proof.
  intros He v. unfold nearestInteger.
  set (k := (- e)%Z). set (a := (2 * signed s m + 2 ^ k)%Z).
  replace (1 - e)%Z with (k + 1)%Z by (unfold k; lia).
  assert (Hk : (0 <= k)%Z) by (unfold k; lia).
  assert (Hb : (0 < 2 ^ (k + 1))%Z) by (apply Z.pow_pos_nonneg; lia).
  pose proof (Z.mul_div_le a _ Hb) as Hlo.
  pose proof (Z.mul_succ_div_gt a _ Hb) as Hhi.
  set (n := (a / 2 ^ (k + 1))%Z) in *.
  rewrite Z.pow_add_r in Hlo, Hhi by lia. change (2 ^ 1)%Z with 2%Z in *.
  pose proof (pow2_pos k Hk) as HB.
  rewrite Zle_Qle in Hlo. rewrite Zlt_Qlt in Hhi.
  unfold a, Z.succ in *.
  rewrite !inject_Z_mult, !inject_Z_plus, ?inject_Z_mult in Hlo, Hhi.
  change (inject_Z 2) with 2%Q in *. change (inject_Z 1) with 1%Q in *.
  set (B := inject_Z (2 ^ k)) in *. set (SM := inject_Z (signed s m)) in *.
  set (N := inject_Z n) in *.
  assert (Hv : (v * B == SM)%Q) by (unfold v; fold k B SM; field; lra).
  assert (Hx : ((v + (1 # 2)) * (2 * B) == 2 * SM + B)%Q)
    by (rewrite <- Hv; ring).
  rewrite inject_Z_plus in Hhi. change (inject_Z 1) with 1%Q in Hhi.
  fold N in Hhi.
  split.
  - apply Qmult_lt_0_le_reg_r with (z := (2 * B)%Q); [lra|].
    rewrite Hx.
    assert (Hy : (N * (2 * B) == B * 2 * N)%Q) by ring.
    rewrite Hy. exact Hlo.
  - apply Qmult_lt_r with (z := (2 * B)%Q); [lra|].
    rewrite Hx.
    assert (Hy : ((N + 1) * (2 * B) == B * 2 * (N + 1))%Q) by ring.
    rewrite Hy. exact Hhi.
Qed.

Lemma nearestInteger_bound (s : bool) (m : positive) (e : Z) :
  (e < 0)%Z -> (Zpos m < 2 ^ prec)%Z ->
  (Z.abs (nearestInteger s m e) < 2 ^ prec)%Z.
Proof.
  intros He Hm. unfold nearestInteger.
  set (k := (- e)%Z). replace (1 - e)%Z with (k + 1)%Z by (unfold k; lia).
  assert (Hk : (1 <= k)%Z) by (unfold k; lia).
  assert (HP : (2 <= 2 ^ k)%Z).
  { change 2%Z with (2 ^ 1)%Z at 1. apply Z.pow_le_mono_r; lia. }
  rewrite Z.pow_add_r by lia. change (2 ^ 1)%Z with 2%Z.
  set (P := (2 ^ k)%Z) in *.
  assert (Hs : (- 2 ^ prec < signed s m < 2 ^ prec)%Z)
    by (unfold signed; destruct s; cbn [cond_Zopp]; lia).
  change (2 ^ prec)%Z with 9007199254740992%Z in *.
  assert (Hup : ((2 * signed s m + P) / (P * 2) <= 4503599627370496)%Z).
  { apply Z.div_le_upper_bound; lia. }
  assert (Hlo : (- 4503599627370496 <= (2 * signed s m + P) / (P * 2))%Z).
  { apply Z.div_le_lower_bound; lia. }
  lia.
Qed.

(** [Math.round]: the value of the result is the integer nearest to the
    value of the argument, the upper one of two that are equally near. *)
Lemma round_value (x : double) (v : Q) :
  value x = Some v ->
  (forall s m e, x = S754_finite s m e -> (Zpos m < 2 ^ prec)%Z) ->
  exists w, value (round x) = Some w /\
            (w == inject_Z (Qfloor (v + (1 # 2))))%Q.
Proof.
  intros Hv Hb. destruct x as [s|s| |s m e]; try discriminate.
  - injection Hv as <-. exists 0%Q. split; reflexivity.
  - cbn [value] in Hv. cbn [round].
    destruct (Z.leb_spec 0 e) as [He|He].
    + injection Hv as <-. eexists. split; [cbn [value]|].
      * apply Z.leb_le in He. rewrite He. reflexivity.
      * rewrite (Qfloor_unique _ (signed s m * 2 ^ e)); [reflexivity|lra|lra].
    + injection Hv as <-.
      destruct (normalize_value (nearestInteger s m e) s) as (w & Hw & Hwn).
      { apply nearestInteger_bound; [exact He|]. now apply (Hb s m e). }
      exists w. split; [exact Hw|]. rewrite Hwn.
      destruct (nearestInteger_spec s m e He) as [Hlo Hhi].
      rewrite (Qfloor_unique _ (nearestInteger s m e)); [reflexivity| |]; lra.
Qed.

Lemma round_special (x : double) : value x = None -> round x = x.
Proof. destruct x; cbn; congruence. Qed.

(** What [Math.round] makes of a product. *)
Lemma round_mul_roundsTo (a b : double) : roundsTo (mul a b) (round (mul a b)).
Proof.
  unfold roundsTo. destruct (value (mul a b)) as [v|] eqn:Hv.
  - apply round_value; [exact Hv|]. intros s m e. apply mul_bounded.
  - now apply round_special.
Qed.

End DoubleFacts.

(** C2 (value score): the score is absent exactly when the rating or the
    review count is absent; with both present and a rate that is zero or
    negative it is the number 0; with both present and any other rate it
    is the quotient by 100, in double precision, of the integer nearest
    to [y] (the upper one of two that are equally near), where [y] is the
    double that ((reviewCount * rating) / rate) * 100 evaluates to.
    Absence ([None]) and zero ([Some Double.zero]) are different
    results. *)
Theorem calculateValueScore_cases
    (reviewCount rating : option Double.double) (rate : Double.double) :
  (Double.calculateValueScore reviewCount rating rate = None
     <-> (rating = None \/ reviewCount = None)) /\
  (forall rc rt,
     reviewCount = Some rc -> rating = Some rt ->
     Double.le rate Double.zero = true ->
     Double.calculateValueScore reviewCount rating rate = Some Double.zero) /\
  (forall rc rt,
     reviewCount = Some rc -> rating = Some rt ->
     Double.le rate Double.zero = false ->
     let y := Double.mul (Double.div (Double.mul rc rt) rate) Double.hundred in
     exists r,
       Double.calculateValueScore reviewCount rating rate
       = Some (Double.div r Double.hundred) /\
       Double.roundsTo y r) /\
  (None : option Double.double) <> Some Double.zero.
Proof.
  repeat split.
  - unfold Double.calculateValueScore.
    destruct rating as [rt|], reviewCount as [rc|]; auto.
    destruct (Double.le rate Double.zero); discriminate.
  - intros [-> | ->]; unfold Double.calculateValueScore; [reflexivity|].
    destruct rating; reflexivity.
  - intros rc rt -> -> Hr. unfold Double.calculateValueScore.
    now rewrite Hr.
  - intros rc rt -> -> Hr y. unfold Double.calculateValueScore.
    rewrite Hr. exists (Double.round y). split; [reflexivity|].
    apply DoubleFacts.round_mul_roundsTo.
  - discriminate.
Qed.

Lemma calculateValueScore_cases_witness :
  Double.calculateValueScore None (Some (Double.ofZ 4)) (Double.ofZ 2) = None /\
  Double.calculateValueScore (Some (Double.ofZ 12)) (Some (Double.ofZ 4))
    Double.zero = Some Double.zero /\
  exists r,
    Double.calculateValueScore (Some (Double.ofZ 12)) (Some (Double.ofZ 5))
      (Double.ofZ 8)
    = Some (Double.div r Double.hundred) /\
    Double.roundsTo
      (Double.mul (Double.div (Double.mul (Double.ofZ 12) (Double.ofZ 5))
                     (Double.ofZ 8)) Double.hundred) r.
Proof.
  split; [|split].
  - apply (calculateValueScore_cases None (Some (Double.ofZ 4)) (Double.ofZ 2)).
    right. reflexivity.
  - destruct (calculateValueScore_cases (Some (Double.ofZ 12))
                (Some (Double.ofZ 4)) Double.zero) as (_ & H & _).
    apply (H (Double.ofZ 12) (Double.ofZ 4)); reflexivity.
  - destruct (calculateValueScore_cases (Some (Double.ofZ 12))
                (Some (Double.ofZ 5)) (Double.ofZ 8)) as (_ & _ & H & _).
    apply (H (Double.ofZ 12) (Double.ofZ 5)); reflexivity.
Defined.

(** C2, as worded: the score is not always (reviewCount * rating) / rate
    rounded to 2 decimal places.  For 21 reviews, a rating of 4.5 and a
    rate of 20, all three doubles without error, the quotient is 4.725,
    half-way between two hundredths; the product by 100 evaluates to a
    double below 472.5, and the score is the double of 4.72.  For 1
    review, the double of 1.4 (which lies below 1.4) and a rate of 8, the
    quotient lies below 0.175, nearest to 0.17; the product by 100
    evaluates to 17.5, and the score is the double of 0.18. *)
Lemma calculateValueScore_not_the_rounded_quotient :
  let reviews := Double.ofZ 21 in
  let rating := Double.div (Double.ofZ 45) (Double.ofZ 10) in
  let rate := Double.ofZ 20 in
  let rating' := Double.div (Double.ofZ 14) (Double.ofZ 10) in
  (Double.represents reviews 21 = true /\ Double.represents rating (45 # 10) = true /\
   Double.represents rate 20 = true /\
   Qfloor (21 * (45 # 10) / 20 * 100 + (1 # 2)) = 473%Z /\
   Double.calculateValueScore (Some reviews) (Some rating) rate
   = Some (Double.div (Double.ofZ 472) Double.hundred)) /\
  (exists q,
     Double.value rating' = Some q /\ (q < 14 # 10)%Q /\
     Qfloor (1 * q / 8 * 100 + (1 # 2)) = 17%Z /\
     Double.calculateValueScore (Some (Double.ofZ 1)) (Some rating')
       (Double.ofZ 8)
     = Some (Double.div (Double.ofZ 18) Double.hundred)).
Proof.
  cbv zeta. split.
  - repeat split; vm_compute; reflexivity.
  - eexists. split; [vm_compute; reflexivity|].
    split; [vm_compute; reflexivity|]. split; vm_compute; reflexivity.
Qed.

Example valueScore_example :
  calculateValueScore (Some (Num 12)) (Some (Num (48 # 10))) (Num 2)
  = Some (Num (2880 # 100)).
Proof. reflexivity. Qed.

(** ** Persisted state *)

(** C9 (tolerant reads): when the file is missing, cannot be read or does
    not parse as JSON, reading the session gives [null], and loading the
    budget ledger gives the empty ledger with a zero cap provided the
    directory of the ledger exists or can be made; neither throws
    then. *)
Theorem persisted_reads_tolerate_absence_and_corruption (f : File) :
  f = Missing \/ f = Unreadable \/ f = NotJson ->
  getSession f = Normal JNull /\
  (forall fs : BudgetFs,
     budgetFile fs = f ->
     budgetDirExists fs = true \/ mkdirSucceeds fs = true ->
     load fs = Normal emptyBudget).
Proof.
  intros Hf. split.
  - destruct Hf as [-> | [-> | ->]]; reflexivity.
  - intros fs Hfile Hdir. unfold load. rewrite Hfile.
    assert (Hmade : (if negb (budgetDirExists fs)
                     then if mkdirSucceeds fs then Normal tt
                          else Throw "EACCES: permission denied, mkdir"
                     else Normal tt) = Normal tt).
    { destruct (budgetDirExists fs), (mkdirSucceeds fs); simpl;
        try reflexivity. destruct Hdir; discriminate. }
    rewrite Hmade.
    destruct Hf as [-> | [-> | ->]]; reflexivity.
Qed.

Lemma persisted_reads_tolerate_absence_and_corruption_witness :
  getSession NotJson = Normal JNull /\
  load {| budgetDirExists := true; mkdirSucceeds := false; budgetFile := NotJson |}
    = Normal emptyBudget.
Proof.
  destruct (persisted_reads_tolerate_absence_and_corruption NotJson) as [Hs Hl].
  - right. right. reflexivity.
  - split; [exact Hs|]. apply Hl; [reflexivity|]. left. reflexivity.
Defined.

(** C9, as worded: before it looks at the ledger file, [load] makes
    sure that the directory of the ledger exists, outside any [try]; when
    the directory is missing and cannot be made, [load] throws although
    the ledger file is merely missing. *)
Lemma load_throws_without_directory :
  existsSync Missing = false /\
  load {| budgetDirExists := false; mkdirSucceeds := false;
          budgetFile := Missing |}
  = Throw "EACCES: permission denied, mkdir".
Proof. split; reflexivity. Qed.

(** A document that parses is returned as it is. *)
Lemma getSession_parsed (v : json) : getSession (Json v) = Normal v.
Proof. reflexivity. Qed.

(** ** Booking submission *)

(** C1 (submit fails closed): when the session file is missing, cannot be
    read, does not parse, or holds a record whose [bookingFilled] is not
    truthy, [submitBooking] returns the error object and leaves the world
    as it was: no browser is acquired, no selector is queried, nothing is
    clicked, and the session file is not written. *)
Theorem submitBooking_without_fill_is_error (b : Browser) (w : World) :
  sessionFile w = Missing \/ sessionFile w = Unreadable \/
  sessionFile w = NotJson \/
  (exists v, sessionFile w = Json v /\
             jsonTruthy (field v "bookingFilled") = false) ->
  submitBooking b w
  = (Normal (SubmitError
               "No booking form has been filled. Call fill-booking first."
               None false), w).
Proof.
  intros H. destruct w as [f tr]. simpl in H.
  unfold submitBooking, bind, readSessionFile, lift. simpl.
  destruct H as [-> | [-> | [-> | (v & -> & Hv)]]]; simpl;
    try reflexivity.
  rewrite Hv. reflexivity.
Qed.

Lemma submitBooking_without_fill_is_error_witness :
  submitBooking Sample.browser Sample.unfilledWorld
  = (Normal (SubmitError
               "No booking form has been filled. Call fill-booking first."
               None false),
     Sample.unfilledWorld).
Proof.
  apply submitBooking_without_fill_is_error.
  right. right. right. eexists. split; reflexivity.
Defined.

(** With a filled booking the browser is acquired and the selectors are
    tried in order. *)
Example submitBooking_filled_run :
  firstn 5 (trace (snd (submitBooking Sample.browser Sample.filledWorld)))
  = [EnsureBrowser; QuerySelector (hasText "Request Call");
     QuerySelector (hasText "Confirm"); IsVisible (hasText "Confirm");
     Click (hasText "Confirm")].
Proof. reflexivity. Qed.
(** ** Query resolution *)

Lemma CATEGORY_MAP_paths_truthy :
  forallb (fun kv => Str.truthy (snd kv)) CATEGORY_MAP = true.
Proof. vm_compute. reflexivity. Qed.

Lemma assoc_In {V : Type} (k : string) (l : list (string * V)) (v : V) :
  assoc k l = Some v -> In (k, v) l.
Proof.
  induction l as [|[k' v'] l IH]; simpl; [discriminate|].
  destruct (String.eqb_spec k k') as [->|Hne].
  - intros [= ->]. now left.
  - intros H. right. now apply IH.
Qed.

(** The scan keeps the first longest key among those contained in [q]
    that are longer than the initial best. *)
Lemma partialMatch_spec (q : string) (entries : list (string * string))
    (bm bp : string) :
  let r := partialMatch q entries bm bp in
  (r = (bm, bp) \/
   (In r entries /\ Str.includes q (fst r) = true /\
    (String.length bm < String.length (fst r))%nat)) /\
  (String.length bm <= String.length (fst r))%nat /\
  (forall key path, In (key, path) entries -> Str.includes q key = true ->
     (String.length key <= String.length (fst r))%nat).
Proof.
  revert bm bp. induction entries as [|[key path] rest IH]; intros bm bp; simpl.
  - split; [now left|]. split; [lia|]. intros ? ? [].
  - destruct (Str.includes q key) eqn:Hinc; simpl.
    + destruct (Nat.ltb_spec (String.length bm) (String.length key)) as [Hlt|Hge].
      * destruct (IH key path) as (Hsel & Hlen & Hmax).
        split; [|split].
        -- right. destruct Hsel as [->|(Hin & Hi & Hl)].
           ++ simpl. auto.
           ++ split; [now right|]. split; [assumption|lia].
        -- lia.
        -- intros k p [[= <- <-]|Hin] Hk; [assumption|]. eapply Hmax; eauto.
      * destruct (IH bm bp) as (Hsel & Hlen & Hmax).
        split; [|split].
        -- destruct Hsel as [->|(Hin & Hi & Hl)]; [now left|].
           right. split; [now right|]. split; assumption.
        -- assumption.
        -- intros k p [[= <- <-]|Hin] Hk; [lia|]. eapply Hmax; eauto.
    + destruct (IH bm bp) as (Hsel & Hlen & Hmax).
      split; [|split].
      * destruct Hsel as [->|(Hin & Hi & Hl)]; [now left|].
        right. split; [now right|]. split; assumption.
      * assumption.
      * intros k p [[= <- <-]|Hin] Hk; [congruence|]. eapply Hmax; eauto.
Qed.

(** An exact match of the normalised query wins. *)
Lemma queryToBrowseUrl_exact (query path : string) :
  assoc (normalize query) CATEGORY_MAP = Some path ->
  queryToBrowseUrl query = (CLARITY_BASE ++ "/browse/" ++ path)%string.
Proof.
  intros H. unfold queryToBrowseUrl. fold (normalize query).
  unfold getProperty. rewrite H. simpl propTruthy.
  assert (Ht : Str.truthy path = true).
  { pose proof CATEGORY_MAP_paths_truthy as Hall.
    rewrite forallb_forall in Hall. apply (Hall (normalize query, path)).
    now apply assoc_In. }
  rewrite Ht. reflexivity.
Qed.

(** Without an exact match and away from the inherited property names,
    the longest key contained in the query wins. *)
Lemma queryToBrowseUrl_partial (query : string) :
  getProperty CATEGORY_MAP (normalize query) = None ->
  existsb (fun kv => Str.includes (normalize query) (fst kv)) CATEGORY_MAP = true ->
  exists key path,
    In (key, path) CATEGORY_MAP /\
    Str.includes (normalize query) key = true /\
    (forall key' path', In (key', path') CATEGORY_MAP ->
       Str.includes (normalize query) key' = true ->
       (String.length key' <= String.length key)%nat) /\
    queryToBrowseUrl query = (CLARITY_BASE ++ "/browse/" ++ path)%string.
Proof.
  intros Hnone Hex. unfold queryToBrowseUrl. fold (normalize query).
  rewrite Hnone. simpl propTruthy. cbv iota.
  pose proof (partialMatch_spec (normalize query) CATEGORY_MAP "" "") as Hspec.
  destruct (partialMatch (normalize query) CATEGORY_MAP "" "") as [bm bp] eqn:Hpm.
  simpl in Hspec. destruct Hspec as (Hsel & _ & Hmax).
  destruct Hsel as [[= -> ->]|(Hin & Hinc & Hlt)].
  - exfalso. apply existsb_exists in Hex. destruct Hex as ([k p] & Hin & Hk).
    simpl in Hk. pose proof (Hmax k p Hin Hk) as Hle. simpl in Hle.
    assert (k = "") as -> by (destruct k; [reflexivity|simpl in Hle; lia]).
    revert Hin. clear. vm_compute. intuition congruence.
  - exists bm, bp. repeat split; try assumption.
    assert (Ht : Str.truthy bp = true).
    { pose proof CATEGORY_MAP_paths_truthy as Hall.
      rewrite forallb_forall in Hall. apply (Hall (bm, bp) Hin). }
    rewrite Ht. reflexivity.
Qed.

(** Without any match the unfiltered browse page is returned. *)
Lemma queryToBrowseUrl_fallback (query : string) :
  getProperty CATEGORY_MAP (normalize query) = None ->
  existsb (fun kv => Str.includes (normalize query) (fst kv)) CATEGORY_MAP = false ->
  queryToBrowseUrl query = (CLARITY_BASE ++ "/browse")%string.
Proof.
  intros Hnone Hex. unfold queryToBrowseUrl. fold (normalize query).
  rewrite Hnone. simpl propTruthy. cbv iota.
  pose proof (partialMatch_spec (normalize query) CATEGORY_MAP "" "") as Hspec.
  destruct (partialMatch (normalize query) CATEGORY_MAP "" "") as [bm bp] eqn:Hpm.
  simpl in Hspec. destruct Hspec as (Hsel & _ & _).
  destruct Hsel as [[= -> ->]|(Hin & Hinc & _)]; [reflexivity|].
  exfalso. assert (Ht : existsb (fun kv => Str.includes (normalize query) (fst kv))
                          CATEGORY_MAP = true).
  { apply existsb_exists. exists (bm, bp). split; assumption. }
  congruence.
Qed.

Example resolve_marketing_strategy :
  queryToBrowseUrl "marketing strategy" = "https://clarity.fm/browse/sales-marketing".
Proof. reflexivity. Qed.

Example resolve_unknown_topic :
  queryToBrowseUrl "completely unknown topic" = "https://clarity.fm/browse".
Proof. reflexivity. Qed.

Example resolve_longest_key :
  queryToBrowseUrl "I need SEO and email marketing help"
  = "https://clarity.fm/browse/sales-marketing/email-marketing".
Proof. reflexivity. Qed.

(** C8 (query resolution falls back to the browse page when nothing
    matches): the query "constructor" equals no key of the category map
    and contains none, yet the exact-match test [CATEGORY_MAP[q]] finds
    the constructor inherited from Object.prototype, which is truthy, and
    the result is a URL built from that function's text instead of the
    browse fallback. *)
Theorem queryToBrowseUrl_constructor_not_fallback :
  assoc (normalize "constructor") CATEGORY_MAP = None /\
  existsb (fun kv => Str.includes (normalize "constructor") (fst kv)) CATEGORY_MAP
    = false /\
  queryToBrowseUrl "constructor"
    = "https://clarity.fm/browse/function Object() { [native code] }" /\
  queryToBrowseUrl "constructor" <> (CLARITY_BASE ++ "/browse")%string.
Proof.
  repeat split; try reflexivity. vm_compute. discriminate.
Qed.

(** ** Profile enrichment *)

Section Enrichment.

Implicit Types (enriched experts : list ExpertProfile).
Implicit Types (results : list (settled ProfileData)).

Lemma length_applyResults results enriched i j :
  length (applyResults enriched i results j) = length enriched.
Proof.
  revert enriched j. induction results as [|r rest IH]; intros enriched j;
    simpl; [reflexivity|].
  rewrite IH. destruct r; [apply length_alter|reflexivity].
Qed.

(** Positions before the batch are not written. *)
Lemma applyResults_lookup_before results enriched i j k :
  (k < i + j)%nat ->
  applyResults enriched i results j !! k = enriched !! k.
Proof.
  revert enriched j. induction results as [|r rest IH]; intros enriched j Hk;
    simpl; [reflexivity|].
  rewrite IH by lia.
  destruct r; [|reflexivity]. apply list_lookup_alter_ne. lia.
Qed.

(** The result at offset [m] is applied to the record at [i + j + m]. *)
Lemma applyResults_lookup_at results enriched i j m r :
  results !! m = Some r ->
  applyResults enriched i results j !! (i + j + m)%nat
  = (fun e => applyOne e r) <$> enriched !! (i + j + m)%nat.
Proof.
  revert enriched j m. induction results as [|r0 rest IH];
    intros enriched j m Hm; [discriminate|].
  destruct m as [|m]; simpl in *.
  - injection Hm as ->.
    rewrite applyResults_lookup_before by lia.
    replace (i + j + 0)%nat with (i + j)%nat by lia.
    destruct r; simpl.
    + apply list_lookup_alter_eq.
    + destruct (enriched !! (i + j)%nat); reflexivity.
  - replace (i + j + S m)%nat with (i + S j + m)%nat by lia.
    rewrite (IH _ (S j) m Hm).
    destruct r0; [|reflexivity].
    rewrite list_lookup_alter_ne by lia. reflexivity.
Qed.

(** Positions behind the batch are not written. *)
Lemma applyResults_lookup_after results enriched i j k :
  (i + j + length results <= k)%nat ->
  applyResults enriched i results j !! k = enriched !! k.
Proof.
  revert enriched j. induction results as [|r rest IH]; intros enriched j Hk;
    simpl in *; [reflexivity|].
  rewrite IH by lia.
  destruct r; [|reflexivity]. apply list_lookup_alter_ne. lia.
Qed.

(** With enough rounds, every record from [i] on has met its own result,
    and only that. *)
Lemma batchLoop_lookup fuel tabs enriched i k :
  (length enriched <= i + MAX_CONCURRENT * fuel)%nat ->
  batchLoop fuel tabs enriched i !! k
  = if decide (i <= k)%nat
    then (fun e => applyOne e (fetchProfile tabs k)) <$> enriched !! k
    else enriched !! k.
Proof.
  unfold MAX_CONCURRENT.
  revert enriched i. induction fuel as [|fuel IH]; intros enriched i Hfuel.
  - simpl. case_decide; [|reflexivity].
    rewrite (lookup_ge_None_2 enriched k) by lia. reflexivity.
  - simpl. destruct (Nat.ltb_spec i (length enriched)) as [Hlt|Hge].
    + set (batch := take MAX_CONCURRENT (drop i enriched)).
      set (results := imap (fun j _ => fetchProfile tabs (i + j)) batch).
      assert (Hlen : length results = Nat.min 3 (length enriched - i)).
      { unfold results, batch, MAX_CONCURRENT.
        rewrite length_imap, length_take, length_drop. reflexivity. }
      unfold MAX_CONCURRENT in *.
      rewrite IH by (rewrite length_applyResults; lia).
      destruct (decide (i + 3 <= k)%nat) as [Hk3|Hk3].
      * rewrite decide_True by lia.
        rewrite applyResults_lookup_after by lia. reflexivity.
      * destruct (decide (i <= k)%nat) as [Hk|Hk].
        -- destruct (decide (k < length enriched)%nat) as [Hin|Hout].
           ++ assert (Hr : results !! (k - i)%nat
                           = Some (fetchProfile tabs k)).
              { unfold results. rewrite list_lookup_imap.
                unfold batch, MAX_CONCURRENT.
                rewrite lookup_take_lt by lia. rewrite lookup_drop.
                replace (i + (k - i))%nat with k by lia.
                destruct (lookup_lt_is_Some_2 enriched k Hin) as [e He].
                rewrite He. reflexivity. }
              pose proof (applyResults_lookup_at results enriched i 0 _ _ Hr)
                as Happ.
              replace (i + 0 + (k - i))%nat with k in Happ by lia.
              exact Happ.
           ++ rewrite (lookup_ge_None_2 enriched k) by lia.
              apply lookup_ge_None_2. rewrite length_applyResults. lia.
        -- apply applyResults_lookup_before. lia.
    + case_decide; [|reflexivity].
      rewrite (lookup_ge_None_2 enriched k) by lia. reflexivity.
Qed.

(** The loop of [enrichProfiles] has rounds enough: the result is the
    input with every record changed by its own settled result. *)
Lemma enrichProfiles_lookup tabs experts k :
  enrichProfiles tabs experts !! k
  = (fun e => applyOne e (fetchProfile tabs k)) <$> experts !! k.
Proof.
  unfold enrichProfiles. rewrite batchLoop_lookup by (unfold MAX_CONCURRENT; lia).
  rewrite decide_True by lia. reflexivity.
Qed.

Lemma length_batchLoop fuel tabs enriched i :
  length (batchLoop fuel tabs enriched i) = length enriched.
Proof.
  revert enriched i. induction fuel as [|fuel IH]; intros enriched i; simpl;
    [reflexivity|].
  destruct (i <? length enriched)%nat; [|reflexivity].
  rewrite IH. apply length_applyResults.
Qed.

Lemma length_enrichProfiles tabs experts :
  length (enrichProfiles tabs experts) = length experts.
Proof. apply length_batchLoop. Qed.

(** More rounds than needed change nothing. *)
Lemma batchLoop_fuel_irrelevant fuel tabs experts :
  (length experts <= fuel)%nat ->
  batchLoop fuel tabs experts 0 = enrichProfiles tabs experts.
Proof.
  intros Hfuel. apply list_eq. intros k.
  rewrite enrichProfiles_lookup.
  rewrite batchLoop_lookup by (unfold MAX_CONCURRENT; lia).
  rewrite decide_True by lia. reflexivity.
Qed.

End Enrichment.

(** C7 (failures are isolated): a tab that fails leaves its record as it
    was, rating, review count and value score included; what happens to a
    record does not depend on the tabs of the other records; and a record
    whose tab yields a page is updated from that page wherever it stands,
    so a failure in one batch does not stop the later batches. *)
Theorem enrichProfiles_failure_is_isolated
    (tabs : Tabs) (experts : list ExpertProfile) :
  length (enrichProfiles tabs experts) = length experts /\
  (forall i e,
     experts !! i = Some e -> tabs i = TabFails ->
     enrichProfiles tabs experts !! i = Some e) /\
  (forall i j (tabs' : Tabs),
     (forall k, k <> i -> tabs' k = tabs k) -> j <> i ->
     enrichProfiles tabs' experts !! j = enrichProfiles tabs experts !! j) /\
  (forall j e text,
     experts !! j = Some e -> tabs j = TabText text ->
     enrichProfiles tabs experts !! j
     = Some (withRatings e (scrapeRatings text))).
Proof.
  split; [apply length_enrichProfiles|]. split; [|split].
  - intros i e He Hfail. rewrite enrichProfiles_lookup, He.
    unfold fetchProfile. rewrite Hfail. reflexivity.
  - intros i j tabs' Hsame Hji. rewrite !enrichProfiles_lookup.
    unfold fetchProfile. rewrite (Hsame j Hji). reflexivity.
  - intros j e text He Htab. rewrite enrichProfiles_lookup, He.
    unfold fetchProfile. rewrite Htab. reflexivity.
Qed.

Lemma enrichProfiles_failure_is_isolated_witness :
  enrichProfiles Sample.tabsFirstFails Sample.fourExperts !! 0%nat
  = Some (Sample.expertOf "ann" 1) /\
  enrichProfiles Sample.tabsFirstLoads Sample.fourExperts !! 3%nat
  = enrichProfiles Sample.tabsFirstFails Sample.fourExperts !! 3%nat /\
  enrichProfiles Sample.tabsFirstFails Sample.fourExperts !! 3%nat
  = Some (withRatings (Sample.expertOf "dan" 4)
            (scrapeRatings Sample.ratedProfileText)).
Proof.
  destruct (enrichProfiles_failure_is_isolated
              Sample.tabsFirstFails Sample.fourExperts) as (_ & H1 & H2 & H3).
  split; [apply H1; reflexivity|]. split; [|apply H3; reflexivity].
  apply (H2 0%nat 3%nat Sample.tabsFirstLoads); [|discriminate].
  intros k Hk. destruct k; [contradiction|reflexivity].
Defined.

Example enrichProfiles_second_batch :
  map valueScore (enrichProfiles Sample.tabsFirstFails Sample.fourExperts)
  = [None; None; None; Some (Num (1440 # 100))].
Proof. reflexivity. Qed.

(** ** The stable sort *)

Section StableSort.

Context {A : Type} (cmp : A -> A -> number).

Lemma insertBy_Permutation (x : A) (l : list A) :
  Permutation (insertBy cmp x l) (x :: l).
Proof.
  induction l as [|y l IH]; cbn [insertBy]; [reflexivity|].
  destruct (JsNum.gt (cmp x y) (Num 0)); [|reflexivity].
  rewrite IH. apply perm_swap.
Qed.

Lemma sortBy_Permutation (l : list A) : Permutation (sortBy cmp l) l.
Proof.
  induction l as [|x l IH]; cbn [sortBy foldr]; [reflexivity|].
  fold (sortBy cmp l). rewrite insertBy_Permutation. now apply perm_skip.
Qed.

(** An element is moved only behind elements it compares greater than:
    a class of elements closed under "not moved past one another" keeps
    its order. *)
Lemma insertBy_filter (keep : A -> bool) (x : A) (l : list A) :
  (forall y, In y l -> keep x = true -> keep y = true ->
             JsNum.gt (cmp x y) (Num 0) = false) ->
  List.filter keep (insertBy cmp x l) = List.filter keep (x :: l).
Proof.
  induction l as [|y l IH]; intros Hkeep; [reflexivity|].
  cbn [insertBy]. destruct (JsNum.gt (cmp x y) (Num 0)) eqn:Hgt; [|reflexivity].
  cbn [List.filter] in *.
  rewrite IH by (intros z Hz; apply Hkeep; now right).
  specialize (Hkeep y (or_introl eq_refl)).
  destruct (keep x), (keep y); try reflexivity.
  rewrite Hkeep in Hgt by reflexivity. discriminate.
Qed.

Lemma sortBy_filter (keep : A -> bool) (l : list A) :
  (forall x y, In x l -> In y l -> keep x = true -> keep y = true ->
               JsNum.gt (cmp x y) (Num 0) = false) ->
  List.filter keep (sortBy cmp l) = List.filter keep l.
Proof.
  induction l as [|x l IH]; intros Hkeep; [reflexivity|].
  cbn [sortBy foldr]. fold (sortBy cmp l).
  rewrite insertBy_filter.
  - cbn [List.filter]. rewrite IH; [reflexivity|].
    intros a b Ha Hb. apply Hkeep; now right.
  - intros y Hy. apply Hkeep; [now left|right].
    eapply Permutation_in; [apply sortBy_Permutation|exact Hy].
Qed.

(** On a domain [ok] where the comparison is total and transitive, the
    result is sorted. *)
Variable ok : A -> Prop.
Let R (a b : A) : Prop := JsNum.gt (cmp a b) (Num 0) = false.

Hypothesis cmp_total :
  forall a b, ok a -> ok b -> JsNum.gt (cmp a b) (Num 0) = true -> R b a.
Hypothesis cmp_trans :
  forall a b c, ok a -> ok b -> ok c -> R a b -> R b c -> R a c.

Lemma insertBy_sorted (x : A) (l : list A) :
  ok x -> Forall ok l ->
  StronglySorted R l -> StronglySorted R (insertBy cmp x l).
Proof.
  intros Hx Hl Hs. induction Hs as [|y l Hs IH Hy]; cbn [insertBy].
  - repeat constructor.
  - apply Forall_cons in Hl as [Hoky Hl].
    destruct (JsNum.gt (cmp x y) (Num 0)) eqn:Hgt.
    + constructor; [now apply IH|].
      rewrite insertBy_Permutation. constructor; [|assumption].
      now apply cmp_total.
    + constructor; [now constructor|].
      constructor; [exact Hgt|].
      rewrite Forall_forall in Hy, Hl |- *.
      intros z Hz. apply (cmp_trans x y z); auto.
Qed.

Lemma sortBy_sorted (l : list A) :
  Forall ok l -> StronglySorted R (sortBy cmp l).
Proof.
  induction l as [|x l IH]; intros Hl; cbn [sortBy foldr]; [constructor|].
  fold (sortBy cmp l).
  apply Forall_cons in Hl as [Hx Hl].
  apply insertBy_sorted; auto.
  rewrite sortBy_Permutation. assumption.
Qed.

Lemma R_refl (x : A) : ok x -> R x x.
Proof.
  intros Hx. destruct (JsNum.gt (cmp x x) (Num 0)) eqn:Hgt; [|exact Hgt].
  exact (cmp_total x x Hx Hx Hgt).
Qed.

Lemma tiedBy_R (x y : A) : tiedBy cmp x y = true <-> R x y /\ R y x.
Proof.
  unfold tiedBy, R. rewrite andb_true_iff, !negb_true_iff. reflexivity.
Qed.

(** Tied elements keep their input order. *)
Lemma sortBy_tied (l : list A) (z : A) :
  Forall ok l -> ok z ->
  List.filter (tiedBy cmp z) (sortBy cmp l) = List.filter (tiedBy cmp z) l.
Proof.
  intros Hl Hz. apply sortBy_filter. intros x y Hx Hy Hzx Hzy.
  rewrite Forall_forall in Hl.
  apply tiedBy_R in Hzx as [_ Hxz]. apply tiedBy_R in Hzy as [Hzy _].
  apply (cmp_trans x z y); auto; apply Hl; now apply list_elem_of_In.
Qed.

(** Two sorted arrangements of the same elements that keep tied elements
    in the same order are equal. *)
Lemma stable_sorted_unique (l1 l2 : list A) :
  Forall ok l1 -> Permutation l1 l2 ->
  StronglySorted R l1 -> StronglySorted R l2 ->
  (forall z, ok z ->
     List.filter (tiedBy cmp z) l1 = List.filter (tiedBy cmp z) l2) ->
  l1 = l2.
Proof.
  revert l2. induction l1 as [|x t1 IH]; intros l2 Hok Hperm Hs1 Hs2 Htied.
  - apply Permutation_nil in Hperm. now subst.
  - destruct l2 as [|y t2];
      [apply Permutation_sym, Permutation_nil in Hperm; discriminate|].
    apply Forall_cons in Hok as [Hx Hok].
    apply StronglySorted_inv in Hs1 as [Hs1 Hx1].
    apply StronglySorted_inv in Hs2 as [Hs2 Hy2].
    assert (Hy : ok y).
    { assert (Hin : In y (x :: t1))
        by (eapply Permutation_in; [symmetry; exact Hperm|now left]).
      destruct Hin as [<-|Hin]; [assumption|].
      rewrite Forall_forall in Hok. apply Hok. now apply list_elem_of_In. }
    assert (Hxy : R x y).
    { assert (Hin : In y (x :: t1))
        by (eapply Permutation_in; [symmetry; exact Hperm|now left]).
      destruct Hin as [<-|Hin]; [now apply R_refl|].
      rewrite Forall_forall in Hx1. apply Hx1. now apply list_elem_of_In. }
    assert (Hyx : R y x).
    { assert (Hin : In x (y :: t2))
        by (eapply Permutation_in; [exact Hperm|now left]).
      destruct Hin as [<-|Hin]; [now apply R_refl|].
      rewrite Forall_forall in Hy2. apply Hy2. now apply list_elem_of_In. }
    assert (Heq : x = y).
    { pose proof (Htied x Hx) as Hf. cbn [List.filter] in Hf.
      assert (Hxx : tiedBy cmp x x = true)
        by (apply tiedBy_R; split; now apply R_refl).
      assert (Hty : tiedBy cmp x y = true) by (apply tiedBy_R; now split).
      rewrite Hxx, Hty in Hf. now injection Hf. }
    subst y. f_equal. apply IH; try assumption.
    + eapply Permutation_cons_inv; exact Hperm.
    + intros z Hz. pose proof (Htied z Hz) as Hf. cbn [List.filter] in Hf.
      destruct (tiedBy cmp z x); [now injection Hf|exact Hf].
Qed.

(** Hence any stable sort with this comparison returns what the
    insertion sort returns. *)
Lemma sortBy_is_the_stable_sort (l l' : list A) :
  Forall ok l -> Permutation l' l -> StronglySorted R l' ->
  (forall z, ok z ->
     List.filter (tiedBy cmp z) l' = List.filter (tiedBy cmp z) l) ->
  l' = sortBy cmp l.
Proof.
  intros Hl Hperm Hs Htied. apply stable_sorted_unique.
  - now rewrite Hperm.
  - now rewrite sortBy_Permutation.
  - exact Hs.
  - now apply sortBy_sorted.
  - intros z Hz. rewrite sortBy_tied by assumption. now apply Htied.
Qed.

End StableSort.


(** *** The comparison of value scores *)

Lemma mayPrecede_cases (a b : ExpertProfile) :
  scoreIsNumber a -> scoreIsNumber b ->
  (mayPrecede a b <->
   match valueScore a, valueScore b with
   | Some (Num x), Some (Num y) => (y <= x)%Q
   | None, Some _ => False
   | _, _ => True
   end).
Proof.
  unfold scoreIsNumber, mayPrecede, compareScore. intros Ha Hb.
  destruct (valueScore a) as [[|x]|], (valueScore b) as [[|y]|];
    try congruence; simpl; try (split; [auto|reflexivity]);
    try (split; [discriminate|contradiction]).
  rewrite negb_false_iff, Qle_bool_iff. split; intros H; lra.
Qed.

Lemma compareScore_total (a b : ExpertProfile) :
  scoreIsNumber a -> scoreIsNumber b ->
  JsNum.gt (compareScore a b) (Num 0) = true -> mayPrecede b a.
Proof.
  intros Ha Hb Hgt. apply mayPrecede_cases; auto.
  assert (Hn : ~ mayPrecede a b) by (unfold mayPrecede; congruence).
  rewrite (mayPrecede_cases a b Ha Hb) in Hn.
  destruct (valueScore a) as [[|x]|], (valueScore b) as [[|y]|];
    try tauto. lra.
Qed.

Lemma mayPrecede_trans (a b c : ExpertProfile) :
  scoreIsNumber a -> scoreIsNumber b -> scoreIsNumber c ->
  mayPrecede a b -> mayPrecede b c -> mayPrecede a c.
Proof.
  intros Ha Hb Hc. rewrite !mayPrecede_cases by assumption.
  unfold scoreIsNumber in *.
  destruct (valueScore a) as [[|x]|], (valueScore b) as [[|y]|],
    (valueScore c) as [[|z]|]; try tauto; try congruence. lra.
Qed.



(** Whatever stable sorting algorithm the engine uses, on records whose
    scores are numbers it returns what the embedding returns. *)
Lemma resort_is_the_stable_sort (l l' : list ExpertProfile) :
  Forall scoreIsNumber l -> Permutation l' l ->
  StronglySorted mayPrecede l' ->
  (forall z, scoreIsNumber z ->
     List.filter (tiedBy compareScore z) l'
     = List.filter (tiedBy compareScore z) l) ->
  l' = sortBy compareScore l.
Proof.
  intros Hl Hperm Hs Htied.
  apply (sortBy_is_the_stable_sort compareScore scoreIsNumber); auto.
  - apply compareScore_total.
  - apply mayPrecede_trans.
Qed.

(** ** Rates read from a listing *)

Lemma digitsValue_nonneg (s : string) (acc : Z) :
  (0 <= acc)%Z -> (0 <= digitsValue acc s)%Z.
Proof.
  revert acc. induction s as [|c s IH]; intros acc Hacc; simpl; [assumption|].
  apply IH. lia.
Qed.

(** [parseFloat] yields [NaN] or a number that is not negative. *)
Lemma parseFloat_nonneg (s : string) :
  parseFloat s = NaN \/ exists r, parseFloat s = Num r /\ (0 <= r)%Q.
Proof.
  unfold parseFloat.
  set (ip := Str.takeWhile Str.isDigit s).
  set (fp := match Str.dropWhile Str.isDigit s with
             | EmptyString => ""
             | String c r => if isDot c then Str.takeWhile Str.isDigit r else ""
             end).
  assert (Hval : (0 <= inject_Z (digitsValue 0 ip)
                      + inject_Z (digitsValue 0 fp)
                        / inject_Z (10 ^ Z.of_nat (String.length fp)))%Q).
  { pose proof (digitsValue_nonneg ip 0 ltac:(lia)) as Hi.
    pose proof (digitsValue_nonneg fp 0 ltac:(lia)) as Hf.
    assert (Hp : (0 < 10 ^ Z.of_nat (String.length fp))%Z)
      by (apply Z.pow_pos_nonneg; lia).
    assert (H1 : (0 <= inject_Z (digitsValue 0 ip))%Q)
      by (change 0%Q with (inject_Z 0); now rewrite <- Zle_Qle).
    assert (H2 : (0 <= inject_Z (digitsValue 0 fp))%Q)
      by (change 0%Q with (inject_Z 0); now rewrite <- Zle_Qle).
    assert (H3 : (0 < inject_Z (10 ^ Z.of_nat (String.length fp)))%Q)
      by (change 0%Q with (inject_Z 0); now rewrite <- Zlt_Qlt).
    assert (H4 : (0 <= inject_Z (digitsValue 0 fp)
                       / inject_Z (10 ^ Z.of_nat (String.length fp)))%Q).
    { apply Qle_shift_div_l; [assumption|]. lra. }
    lra. }
  destruct ip, fp; eauto.
Qed.

Lemma strongStep_rate (st : StrongState) (s : string) :
  rateIsNonneg (rateNum st) -> rateIsNonneg (rateNum (strongStep st s)).
Proof.
  intros Hst. unfold strongStep.
  destruct (Str.startsWith (Str.trim s) "$" && JsNum.eq (rateNum st) (Num 0)).
  - cbn [rateNum]. unfold JsNum.or.
    destruct (parseFloat_nonneg (keepDigitsAndDots (Str.trim s)))
      as [-> | (r & -> & Hr)].
    + simpl. exists 0%Q. split; [reflexivity|lra].
    + destruct (JsNum.truthy (Num r)); [exists r; auto|].
      exists 0%Q. split; [reflexivity|lra].
  - destruct (negb (Str.startsWith (Str.trim s) "$") && (1 <? len (Str.trim s))%nat
              && negb (Str.truthy (nameS st))); assumption.
Qed.

Lemma scanStrongs_rate (l : list string) : rateIsNonneg (rateNum (scanStrongs l)).
Proof.
  unfold scanStrongs.
  assert (H0 : rateIsNonneg
                 (rateNum {| rateNum := Num 0; rateDisplayS := "N/A"; nameS := "" |})).
  { exists 0%Q. split; [reflexivity|lra]. }
  revert H0. generalize {| rateNum := Num 0; rateDisplayS := "N/A"; nameS := "" |}.
  induction l as [|s l IH]; intros st Hst; simpl; [assumption|].
  apply IH. now apply strongStep_rate.
Qed.

(** What a pushed record says about its card. *)
Lemma extractCard_Some (mn mx : option number) (card : Card) (e : ExpertProfile) :
  extractCard mn mx card = Some e ->
  rateIsNonneg (rate e) /\
  belowMin mn (rate e) = false /\ aboveMax mx (rate e) = false /\
  rating e = None /\ reviewCount e = None /\ valueScore e = None.
Proof.
  unfold extractCard.
  pose proof (scanStrongs_rate (strongs card)) as Hrate.
  destruct (belowMin mn (rateNum (scanStrongs (strongs card)))) eqn:Hmin;
    [discriminate|].
  destruct (aboveMax mx (rateNum (scanStrongs (strongs card)))) eqn:Hmax;
    [discriminate|].
  destruct (Str.truthy (nameS (scanStrongs (strongs card)))
            || Str.truthy (findUsername (hrefs card))); [|discriminate].
  intros [= <-]. cbn [rate rating reviewCount valueScore].
  repeat split; assumption || reflexivity.
Qed.

(** ** What enrichment can put into a record *)


Lemma countMatch_starts_with_digit (ms : list string) (text cap : string) :
  countMatch ms text = Some cap ->
  exists c rest, cap = String c rest /\ Str.isDigit c = true.
Proof.
  induction text as [|c text IH].
  - simpl. discriminate.
  - cbn [countMatch]. destruct (matchCountAt ms (String c text)) as [cap'|] eqn:Hm.
    + intros [= <-]. unfold matchCountAt in Hm.
      destruct (Str.isDigit c) eqn:Hc; [|discriminate].
      destruct (existsb _ ms); [|discriminate].
      injection Hm as <-. eauto.
    + exact IH.
Qed.

Lemma digit_is_not_comma (c : ascii) :
  Str.isDigit c = true -> Ascii.eqb c "," = false.
Proof.
  intros Hc. destruct (Ascii.eqb_spec c ",") as [->|]; [|reflexivity].
  discriminate Hc.
Qed.





(** ** Properties kept by a search *)

Section SearchInvariant.

Variable P : ExpertProfile -> Prop.
Hypothesis P_enriched :
  forall e text, P e -> P (withRatings e (scrapeRatings text)).

Lemma enrichProfiles_Forall (tabs : Tabs) (l : list ExpertProfile) :
  Forall P l -> Forall P (enrichProfiles tabs l).
Proof.
  intros Hl. apply Forall_lookup_2. intros k e Hk.
  rewrite enrichProfiles_lookup in Hk.
  destruct (l !! k) as [e0|] eqn:He0; [|discriminate].
  injection Hk as <-.
  pose proof (Forall_lookup_1 _ _ _ _ Hl He0) as HP.
  unfold fetchProfile. destruct (tabs k); simpl; auto.
Qed.

Lemma replaceFrom_Forall (i : nat) (src dst : list ExpertProfile) :
  Forall P src -> Forall P dst -> Forall P (replaceFrom i src dst).
Proof.
  revert i dst. induction src as [|e src IH]; intros i dst Hsrc Hdst; simpl;
    [assumption|].
  apply Forall_cons in Hsrc as [He Hsrc].
  apply IH; [assumption|]. now apply Forall_insert.
Qed.

Lemma enrichedList_Forall (n : number) (tabs : Tabs) (l : list ExpertProfile) :
  Forall P l -> Forall P (enrichedList n tabs l).
Proof.
  intros Hl. unfold enrichedList. apply replaceFrom_Forall; [|assumption].
  apply enrichProfiles_Forall. unfold slice0. now apply Forall_take.
Qed.

Lemma searchExperts_Forall (opts : SearchOptions) (allItems : list Card)
    (tabs : Tabs) :
  Forall P (listedExperts opts allItems) ->
  Forall P (experts (searchExperts opts allItems tabs)).
Proof.
  intros Hl. unfold searchExperts.
  destruct (enrichRequested opts (listedExperts opts allItems));
    [|exact Hl].
  destruct (enrich opts) as [n|]; [|exact Hl].
  cbn [experts]. rewrite sortBy_Permutation. now apply enrichedList_Forall.
Qed.

End SearchInvariant.

Lemma listedExperts_extracted (opts : SearchOptions) (allItems : list Card)
    (e : ExpertProfile) :
  In e (listedExperts opts allItems) ->
  exists card e0,
    In card (List.filter isCandidate allItems) /\
    extractCard (minRate opts) (maxRate opts) card = Some e0 /\
    e = scoreExpert e0.
Proof.
  unfold listedExperts, extractCards. rewrite in_map_iff.
  intros (e0 & <- & Hin). apply list_elem_of_In, list_elem_of_omap in Hin.
  destruct Hin as (card & Hcard & Hex).
  exists card, e0. split; [|auto].
  apply list_elem_of_In. unfold slice0 in Hcard.
  eapply subseteq_take; eauto.
Qed.


(** ** The re-sort after enrichment *)



(** ** The listing: limit and rate bounds *)

Lemma length_omap_le {A B : Type} (f : A -> option B) (l : list A) :
  (length (omap f l) <= length l)%nat.
Proof.
  induction l as [|x l IH]; [reflexivity|].
  change (omap f (x :: l))
    with (match f x with Some y => y :: omap f l | None => omap f l end).
  destruct (f x); cbn [length]; lia.
Qed.

Lemma sliceEnd_nonneg (len : nat) (q : Q) :
  (0 <= q)%Q -> sliceEnd len (Num q) = Nat.min (Z.to_nat (Qfloor q)) len.
Proof.
  intros Hq. unfold sliceEnd.
  apply Qle_bool_iff in Hq as Hb. rewrite Hb.
  assert (H0 : (0 <= Qfloor q)%Z).
  { change 0%Z with (Qfloor 0). now apply Qfloor_resp_le. }
  destruct (Z.ltb_spec (Qfloor q) 0); [lia|reflexivity].
Qed.

Lemma sliceEnd_le (len : nat) (e : number) : (sliceEnd len e <= len)%nat.
Proof.
  unfold sliceEnd. destruct e as [|q]; [lia|].
  destruct (_ <? 0)%Z; lia.
Qed.

(** C4, as the code has it (the limit is applied to the candidate cards,
    before the rate filter): the result is no longer than the first
    [limit] candidates; every record of the result comes from one of
    them; and list items that follow the first [limit] candidates never
    change the result, whatever their rates. *)
Theorem extractCards_limit_before_filter
    (maxResults : number) (minRate maxRate : option number)
    (allItems : list Card) :
  let cards := List.filter isCandidate allItems in
  let n := sliceEnd (length cards) maxResults in
  (length (extractCards maxResults minRate maxRate allItems) <= n)%nat /\
  (forall e,
     In e (extractCards maxResults minRate maxRate allItems) ->
     exists i card,
       (i < n)%nat /\ cards !! i = Some card /\
       extractCard minRate maxRate card = Some e) /\
  (forall q extra,
     maxResults = Num q -> (0 <= q)%Q ->
     (Z.to_nat (Qfloor q) <= length cards)%nat ->
     extractCards maxResults minRate maxRate (allItems ++ extra)
     = extractCards maxResults minRate maxRate allItems).
Proof.
  intros cards n. unfold extractCards, slice0. fold cards. fold n.
  split; [|split].
  - etransitivity; [apply length_omap_le|].
    rewrite length_take. lia.
  - intros e He. apply list_elem_of_In, list_elem_of_omap in He.
    destruct He as (card & Hcard & Hex).
    apply elem_of_take in Hcard as (i & Hi & Hlt). eauto.
  - intros q extra -> Hq Hlen. rewrite List.filter_app. fold cards.
    unfold n. rewrite length_app, !sliceEnd_nonneg by assumption.
    rewrite !Nat.min_l by lia.
    rewrite take_app_le by lia. reflexivity.
Qed.

Lemma extractCards_limit_before_filter_witness :
  (exists i card,
     (i < 2)%nat /\
     List.filter isCandidate [Sample.cardAlice; Sample.cardBob] !! i = Some card /\
     extractCard None (Some (Num 10)) card = Some Sample.expertBob) /\
  extractCards (Num 1) None (Some (Num 10))
    ([Sample.cardAlice] ++ [Sample.cardBob])
  = extractCards (Num 1) None (Some (Num 10)) [Sample.cardAlice].
Proof.
  split.
  - destruct (extractCards_limit_before_filter
                (Num 2) None (Some (Num 10)) [Sample.cardAlice; Sample.cardBob])
      as (_ & H & _).
    apply (H Sample.expertBob). left. reflexivity.
  - destruct (extractCards_limit_before_filter
                (Num 1) None (Some (Num 10)) [Sample.cardAlice]) as (_ & _ & H).
    apply (H 1%Q [Sample.cardBob]); [reflexivity|discriminate|].
    vm_compute. lia.
Defined.

(** C4, as the claim states it, fails: with a limit of one and an upper
    bound of 10, a page of two candidate cards at 50 and at 5 per minute
    yields nothing, although the second card is within the bound; filter
    first and limit afterwards would yield that card. *)
Lemma extractCards_discarded_card_takes_slot :
  let page := [Sample.cardAlice; Sample.cardBob] in
  length (List.filter isCandidate page) = 2%nat /\
  extractCard None (Some (Num 10)) Sample.cardAlice = None /\
  extractCard None (Some (Num 10)) Sample.cardBob = Some Sample.expertBob /\
  extractCards (Num 1) None (Some (Num 10)) page = [] /\
  filterThenLimit (Num 1) None (Some (Num 10)) page = [Sample.expertBob] /\
  extractCards (Num 1) None (Some (Num 10)) page
  <> filterThenLimit (Num 1) None (Some (Num 10)) page.
Proof.
  repeat split; try reflexivity. vm_compute. discriminate.
Qed.

Lemma belowMin_false (mn r : Q) :
  (0 <= r)%Q -> belowMin (Some (Num mn)) (Num r) = false -> (mn <= r)%Q.
Proof.
  intros Hr. unfold belowMin, JsNum.truthy, JsNum.lt.
  destruct (Qeq_bool mn 0) eqn:E; simpl.
  - intros _. apply Qeq_bool_eq in E. lra.
  - rewrite negb_false_iff, Qle_bool_iff. auto.
Qed.

Lemma aboveMax_false (mx r : Q) :
  aboveMax (Some (Num mx)) (Num r) = false -> ~ (mx == 0)%Q -> (r <= mx)%Q.
Proof.
  unfold aboveMax, JsNum.truthy, JsNum.gt, JsNum.lt. intros H Hmx.
  destruct (Qeq_bool mx 0) eqn:E; simpl in H.
  - apply Qeq_bool_eq in E. contradiction.
  - rewrite negb_false_iff, Qle_bool_iff in H. exact H.
Qed.

(** C5, as the code has it: with both bounds given, every returned
    record has minRate <= rate, and rate <= maxRate unless maxRate is 0,
    a bound of 0 not being applied. *)
Theorem searchExperts_rates_within_bounds
    (opts : SearchOptions) (allItems : list Card) (tabs : Tabs) (mn mx : Q) :
  minRate opts = Some (Num mn) ->
  maxRate opts = Some (Num mx) ->
  forall e,
    In e (experts (searchExperts opts allItems tabs)) ->
    exists r,
      rate e = Num r /\ (mn <= r)%Q /\ (~ (mx == 0)%Q -> (r <= mx)%Q).
Proof.
  intros Hmn Hmx.
  set (P := fun e : ExpertProfile =>
              exists r, rate e = Num r /\ (mn <= r)%Q /\
                        (~ (mx == 0)%Q -> (r <= mx)%Q)).
  assert (Hall : Forall P (experts (searchExperts opts allItems tabs))).
  { apply searchExperts_Forall.
    - intros e text HP. exact HP.
    - apply Forall_forall. intros e He. apply list_elem_of_In in He.
      destruct (listedExperts_extracted _ _ _ He) as (card & e0 & _ & Hex & ->).
      destruct (extractCard_Some _ _ _ _ Hex)
        as ((r & Hr & Hpos) & Hmin & Hmax & _).
      rewrite Hmn, Hr in Hmin. rewrite Hmx, Hr in Hmax.
      exists r. cbn [scoreExpert rate]. split; [exact Hr|]. split.
      + now apply belowMin_false.
      + now apply aboveMax_false. }
  intros e He. rewrite Forall_forall in Hall. apply Hall.
  now apply list_elem_of_In.
Qed.

Lemma searchExperts_rates_within_bounds_witness :
  exists r,
    rate Sample.expertBob = Num r /\ (1 <= r)%Q /\
    (~ (10 == 0)%Q -> (r <= 10)%Q).
Proof.
  apply (searchExperts_rates_within_bounds Sample.boundsOneToTen
           [Sample.cardAlice; Sample.cardBob] Sample.noTabs 1%Q 10%Q);
    [reflexivity|reflexivity|].
  left. reflexivity.
Defined.

(** C5, as the claim states it, fails: with minRate = 0 and maxRate = 0
    both given, a card at 5 per minute is returned. *)
Lemma searchExperts_zero_maxRate_exceeded :
  exists e,
    In e (experts (searchExperts Sample.zeroBounds [Sample.cardBob] Sample.noTabs)) /\
    minRate Sample.zeroBounds = Some (Num 0) /\
    maxRate Sample.zeroBounds = Some (Num 0) /\
    rate e = Num 5 /\ ~ (5 <= 0)%Q.
Proof.
  exists Sample.expertBob. repeat split; try reflexivity.
  - left. reflexivity.
  - intros H. apply Qle_bool_iff in H. discriminate H.
Qed.

Lemma extractCards_bounds_ext (maxResults : number)
    (mn mx mn' mx' : option number) (allItems : list Card) :
  (forall r, belowMin mn r = belowMin mn' r) ->
  (forall r, aboveMax mx r = aboveMax mx' r) ->
  extractCards maxResults mn mx allItems
  = extractCards maxResults mn' mx' allItems.
Proof.
  intros Hmin Hmax. unfold extractCards. apply list_omap_ext.
  apply Forall_Forall2_diag. apply Forall_forall. intros card _.
  unfold extractCard. rewrite Hmin, Hmax. reflexivity.
Qed.

(** C10 (a bound of 0 is no bound): the lower-bound test never fires for
    minRate = 0, the upper-bound test never fires for maxRate = 0, just as
    when the bound is absent; hence a search with a bound of 0 returns
    what the search without that bound returns, and with maxRate = 0 a
    card at 5 per minute is returned rather than nothing. *)
Theorem zero_rate_bound_is_no_bound :
  (forall r, belowMin (Some (Num 0)) r = false /\ belowMin None r = false) /\
  (forall r, aboveMax (Some (Num 0)) r = false /\ aboveMax None r = false) /\
  (forall q mn pg lim en allItems tabs,
     searchExperts {| query := q; minRate := mn; maxRate := Some (Num 0);
                      page := pg; limit := lim; enrich := en |} allItems tabs
     = searchExperts {| query := q; minRate := mn; maxRate := None;
                        page := pg; limit := lim; enrich := en |} allItems tabs) /\
  (forall q mx pg lim en allItems tabs,
     searchExperts {| query := q; minRate := Some (Num 0); maxRate := mx;
                      page := pg; limit := lim; enrich := en |} allItems tabs
     = searchExperts {| query := q; minRate := None; maxRate := mx;
                        page := pg; limit := lim; enrich := en |} allItems tabs) /\
  experts (searchExperts Sample.zeroBounds [Sample.cardBob] Sample.noTabs)
  = [Sample.expertBob].
Proof.
  split; [intros r; split; reflexivity|].
  split; [intros r; split; reflexivity|].
  split; [|split; [|reflexivity]].
  - intros q mn pg lim en allItems tabs.
    unfold searchExperts, listedExperts, searchLimit. cbn [minRate maxRate limit enrich page query].
    rewrite (extractCards_bounds_ext _ mn (Some (Num 0)) mn None);
      [reflexivity|reflexivity|].
    intros r. reflexivity.
  - intros q mx pg lim en allItems tabs.
    unfold searchExperts, listedExperts, searchLimit. cbn [minRate maxRate limit enrich page query].
    rewrite (extractCards_bounds_ext _ (Some (Num 0)) mx None mx);
      [reflexivity| |reflexivity].
    intros r. reflexivity.
Qed.

(** ** The profile view *)

(** Whatever the page, the profile read has a rating, a review count and
    a value score: none of them is ever [null]. *)
Lemma viewProfile_never_absent (p : ProfilePage) (uname : string) :
  exists e,
    viewProfile (PageReady p) uname = ViewOk e /\
    rating e <> None /\ reviewCount e <> None /\ valueScore e <> None.
Proof.
  eexists. split; [reflexivity|].
  cbn [scoreExpert extractProfile rating reviewCount valueScore].
  repeat split; try discriminate.
  unfold calculateValueScore.
  destruct (JsNum.le _ _); discriminate.
Qed.

(** C3 (absent ratings stay absent in a profile read): on a profile page
    whose text has no rating marker and no review-count marker,
    [viewProfile] returns rating 0 and review count 0, and the value score
    computed from them is 0, not [null]; the enrichment, which reads the
    same text with the same patterns, returns [null] for both. *)
Theorem viewProfile_defaults_to_zero :
  ratingMatches 0 Sample.bareProfileText = [] /\
  countMatch REVIEW_MARKERS Sample.bareProfileText = None /\
  scrapeRatings Sample.bareProfileText
  = {| pd_rating := None; pd_reviewCount := None |} /\
  exists e,
    viewProfile (PageReady Sample.bareProfile) "jane" = ViewOk e /\
    rating e = Some (Num 0) /\
    reviewCount e = Some (Num 0) /\
    exists v, valueScore e = Some (Num v) /\ (v == 0)%Q.
Proof.
  repeat split; try reflexivity.
  eexists. split; [reflexivity|].
  repeat split; try reflexivity.
  eexists. split; reflexivity.
Qed.

(** * Further properties *)

(** ** The search result *)

Lemma length_replaceFrom (i : nat) (src dst : list ExpertProfile) :
  length (replaceFrom i src dst) = length dst.
Proof.
  revert i dst. induction src as [|e src IH]; intros i dst; simpl;
    [reflexivity|].
  rewrite IH. apply length_insert.
Qed.

Lemma replaceFrom_lookup (src dst : list ExpertProfile) (i k : nat) :
  replaceFrom i src dst !! k
  = if decide (i <= k < i + length src /\ k < length dst)%nat
    then src !! (k - i)%nat
    else dst !! k.
Proof.
  revert i dst. induction src as [|e src IH]; intros i dst; simpl.
  - case_decide; [lia|reflexivity].
  - rewrite IH, length_insert.
    destruct (decide (k = i)) as [->|Hne].
    + rewrite decide_False by lia.
      destruct (decide (i < length dst)%nat) as [Hlt|Hge].
      * rewrite decide_True by lia. rewrite Nat.sub_diag.
        now apply list_lookup_insert_eq.
      * rewrite decide_False by lia. rewrite list_insert_ge by lia.
        reflexivity.
    + rewrite list_lookup_insert_ne by lia.
      destruct (decide (S i <= k < S i + length src /\ k < length dst)%nat)
        as [Hin|Hout].
      * rewrite decide_True by lia.
        replace (k - i)%nat with (S (k - S i)) by lia. reflexivity.
      * rewrite decide_False by lia. reflexivity.
Qed.

(** The array that reaches the sort: the records in front of the slice
    end have met their tabs, the others are as listed. *)
Lemma enrichedList_lookup (n : number) (tabs : Tabs) (l : list ExpertProfile)
    (k : nat) :
  enrichedList n tabs l !! k
  = if decide (k < sliceEnd (length l) n)%nat
    then (fun e => applyOne e (fetchProfile tabs k)) <$> l !! k
    else l !! k.
Proof.
  unfold enrichedList, slice0. rewrite replaceFrom_lookup.
  rewrite length_enrichProfiles, length_take.
  pose proof (sliceEnd_le (length l) n) as Hle.
  destruct (decide (k < sliceEnd (length l) n)%nat) as [Hk|Hk].
  - rewrite decide_True by lia. rewrite Nat.sub_0_r.
    rewrite enrichProfiles_lookup, lookup_take_lt by lia. reflexivity.
  - rewrite decide_False by lia. reflexivity.
Qed.

Lemma applyOne_identity (e : ExpertProfile) (r : settled ProfileData) :
  identityOf (applyOne e r) = identityOf e.
Proof. destruct r; reflexivity. Qed.

Lemma enrichedList_identity (n : number) (tabs : Tabs) (l : list ExpertProfile) :
  map identityOf (enrichedList n tabs l) = map identityOf l.
Proof.
  apply list_eq. intros k.
  change (map identityOf) with (fmap (M := list) identityOf).
  rewrite !list_lookup_fmap, enrichedList_lookup.
  case_decide; [|reflexivity].
  destruct (l !! k); simpl; [|reflexivity].
  now rewrite applyOne_identity.
Qed.

Lemma length_enrichedList (n : number) (tabs : Tabs) (l : list ExpertProfile) :
  length (enrichedList n tabs l) = length l.
Proof. apply length_replaceFrom. Qed.

(** A search returns as many experts as the listing has. *)
Lemma length_searchExperts
    (opts : SearchOptions) (allItems : list Card) (tabs : Tabs) :
  length (experts (searchExperts opts allItems tabs))
  = length (listedExperts opts allItems).
Proof.
  unfold searchExperts.
  destruct (enrichRequested opts (listedExperts opts allItems));
    [|reflexivity].
  destruct (enrich opts) as [n|]; [|reflexivity].
  cbn [experts].
  rewrite (Permutation_length (sortBy_Permutation _ _)).
  apply length_enrichedList.
Qed.

(** X1 (the same experts): whatever the enrichment does, a search returns
    the experts of the listing, each once more, with name, user name, URL,
    rate, bio and call count as listed; only the order and the rating
    fields can differ. *)
Theorem searchExperts_same_experts
    (opts : SearchOptions) (allItems : list Card) (tabs : Tabs) :
  Permutation (map identityOf (experts (searchExperts opts allItems tabs)))
              (map identityOf (listedExperts opts allItems)) /\
  totalResults (searchExperts opts allItems tabs)
  = length (listedExperts opts allItems).
Proof.
  unfold searchExperts.
  destruct (enrichRequested opts (listedExperts opts allItems));
    [|split; reflexivity].
  destruct (enrich opts) as [n|]; [|split; reflexivity].
  cbn [experts totalResults]. split.
  - rewrite sortBy_Permutation, enrichedList_identity. reflexivity.
  - rewrite (Permutation_length (sortBy_Permutation _ _)).
    apply length_enrichedList.
Qed.

(** X2 (only the first records are enriched): the result of a search with
    [enrich = n] depends on the tabs of the records in front of the slice
    end only; the profile pages of later records have no influence. *)
Theorem searchExperts_enrichment_scope
    (opts : SearchOptions) (allItems : list Card) (tabs tabs' : Tabs)
    (n : number) :
  enrich opts = Some n ->
  (forall i,
     (i < sliceEnd (length (listedExperts opts allItems)) n)%nat ->
     tabs i = tabs' i) ->
  searchExperts opts allItems tabs = searchExperts opts allItems tabs'.
Proof.
  intros Hn Hsame. unfold searchExperts. rewrite Hn.
  set (listed := listedExperts opts allItems) in *.
  assert (Hlist : enrichedList n tabs listed = enrichedList n tabs' listed).
  { apply list_eq. intros k. rewrite !enrichedList_lookup.
    case_decide; [|reflexivity].
    unfold fetchProfile. now rewrite Hsame. }
  assert (Hen : enrichProfiles tabs (slice0 listed n)
                = enrichProfiles tabs' (slice0 listed n)).
  { apply list_eq. intros k. rewrite !enrichProfiles_lookup.
    destruct (decide (k < sliceEnd (length listed) n)%nat) as [Hk|Hk].
    - unfold fetchProfile. now rewrite Hsame.
    - unfold slice0. rewrite lookup_take_ge by lia. reflexivity. }
  rewrite Hlist, Hen. reflexivity.
Qed.

Lemma searchExperts_enrichment_scope_witness :
  searchExperts Sample.enrichTwo [Sample.cardAlice; Sample.cardBob]
    Sample.tabsFirstFails
  = searchExperts Sample.enrichTwo [Sample.cardAlice; Sample.cardBob]
      Sample.noTabs.
Proof.
  apply (searchExperts_enrichment_scope _ _ _ _ (Num 2)); [reflexivity|].
  intros i Hi. vm_compute in Hi.
  destruct i as [|[|i]]; [reflexivity|reflexivity|lia].
Defined.

(** X3 (no enrichment, no ratings): when no enrichment is requested the
    experts are returned as listed, every rating, review count and value
    score is [null], and the count of enriched records is 0. *)
Theorem searchExperts_unenriched
    (opts : SearchOptions) (allItems : list Card) (tabs : Tabs) :
  enrichRequested opts (listedExperts opts allItems) = false ->
  experts (searchExperts opts allItems tabs) = listedExperts opts allItems /\
  enriched (searchExperts opts allItems tabs) = 0%nat /\
  Forall (fun e => rating e = None /\ reviewCount e = None
                   /\ valueScore e = None)
         (experts (searchExperts opts allItems tabs)).
Proof.
  intros Hreq. unfold searchExperts. rewrite Hreq. cbn [experts enriched].
  split; [reflexivity|]. split; [reflexivity|].
  apply Forall_forall. intros e He. apply list_elem_of_In in He.
  destruct (listedExperts_extracted _ _ _ He) as (card & e0 & _ & Hex & ->).
  destruct (extractCard_Some _ _ _ _ Hex) as (_ & _ & _ & Hrt & Hrc & _).
  cbn [scoreExpert rating reviewCount valueScore]. rewrite Hrt, Hrc.
  repeat split; reflexivity.
Qed.

Lemma searchExperts_unenriched_witness :
  experts (searchExperts Sample.zeroBounds [Sample.cardAlice; Sample.cardBob]
             Sample.tabsFirstFails)
  = listedExperts Sample.zeroBounds [Sample.cardAlice; Sample.cardBob].
Proof.
  apply (searchExperts_unenriched Sample.zeroBounds
           [Sample.cardAlice; Sample.cardBob] Sample.tabsFirstFails).
  reflexivity.
Defined.

Lemma searchLimit_cases (opts : SearchOptions) :
  (forall q, limit opts = Some (Num q) -> ~ (q == 0)%Q ->
             searchLimit opts = Num q /\ (q <= 20)%Q
             \/ searchLimit opts = Num 20 /\ (20 <= q)%Q) /\
  ((limit opts = None \/ limit opts = Some NaN
    \/ exists q, limit opts = Some (Num q) /\ (q == 0)%Q) ->
   searchLimit opts = Num 10).
Proof.
  unfold searchLimit. split.
  - intros q -> Hq. unfold JsNum.or, JsNum.truthy.
    destruct (Qeq_bool q 0) eqn:E; [apply Qeq_bool_eq in E; contradiction|].
    cbn [negb numMin]. destruct (Qle_bool q 20) eqn:Hle.
    + left. apply Qle_bool_iff in Hle. auto.
    + right. split; [reflexivity|].
      destruct (Qlt_le_dec q 20) as [Hlt|Hge]; [|exact Hge].
      assert (Hle' : (q <= 20)%Q) by lra.
      apply Qle_bool_iff in Hle'. congruence.
  - intros [-> | [-> | (q & -> & Hq)]]; try reflexivity.
    unfold JsNum.or, JsNum.truthy. apply Qeq_bool_iff in Hq. rewrite Hq.
    reflexivity.
Qed.

Lemma length_extractCards_le (maxResults : number) (mn mx : option number)
    (allItems : list Card) :
  (length (extractCards maxResults mn mx allItems)
   <= sliceEnd (length (List.filter isCandidate allItems)) maxResults)%nat.
Proof.
  unfold extractCards, slice0.
  etransitivity; [apply length_omap_le|].
  rewrite length_take. lia.
Qed.

Lemma Qfloor_nonneg (q : Q) : (0 <= q)%Q -> (0 <= Qfloor q)%Z.
Proof.
  intros Hq. change 0%Z with (Qfloor 0). now apply Qfloor_resp_le.
Qed.

(** X4 (size of a result): when the limit is absent or not negative, a
    search returns at most 20 experts; at most 10 when the limit is
    absent or 0; and at most [limit] (rounded down) when it is positive. *)
Theorem searchExperts_result_size
    (opts : SearchOptions) (allItems : list Card) (tabs : Tabs) :
  (forall q, limit opts = Some (Num q) -> (0 <= q)%Q) ->
  let n := length (experts (searchExperts opts allItems tabs)) in
  (n <= 20)%nat /\
  ((limit opts = None \/ limit opts = Some (Num 0)) -> (n <= 10)%nat) /\
  (forall q, limit opts = Some (Num q) -> (0 < q)%Q ->
             (n <= Z.to_nat (Qfloor q))%nat).
Proof.
  intros Hnonneg n.
  assert (Hn : n = length (listedExperts opts allItems)).
  { unfold n. apply length_searchExperts. }
  assert (Hle : (n <= sliceEnd (length (List.filter isCandidate allItems))
                              (searchLimit opts))%nat).
  { rewrite Hn. unfold listedExperts. rewrite length_map.
    apply length_extractCards_le. }
  destruct (searchLimit_cases opts) as [Hpos Hdef].
  assert (H10 : (sliceEnd (length (List.filter isCandidate allItems)) (Num 10)
                 <= 10)%nat).
  { rewrite sliceEnd_nonneg by lra. change (Z.to_nat (Qfloor 10)) with 10%nat.
    lia. }
  assert (H20 : (sliceEnd (length (List.filter isCandidate allItems)) (Num 20)
                 <= 20)%nat).
  { rewrite sliceEnd_nonneg by lra. change (Z.to_nat (Qfloor 20)) with 20%nat.
    lia. }
  assert (Hq : forall q, limit opts = Some (Num q) -> (0 < q)%Q ->
                         (n <= Z.to_nat (Qfloor q))%nat /\ (n <= 20)%nat).
  { intros q Hl Hq.
    destruct (Hpos q Hl ltac:(lra)) as [[Hs Hq20] | [Hs Hq20]];
      rewrite Hs in Hle.
    - rewrite sliceEnd_nonneg in Hle by lra. split; [lia|].
      assert (Qfloor q <= Qfloor 20)%Z by now apply Qfloor_resp_le.
      change (Qfloor 20) with 20%Z in *.
      pose proof (Qfloor_nonneg q ltac:(lra)). lia.
    - split; [|lia].
      assert (Qfloor 20 <= Qfloor q)%Z by now apply Qfloor_resp_le.
      change (Qfloor 20) with 20%Z in *. lia. }
  split; [|split].
  - destruct (limit opts) as [[|q]|] eqn:Hl.
    + rewrite Hdef in Hle by auto. lia.
    + destruct (Qlt_le_dec 0 q) as [Hpos'|Hneg].
      * apply (Hq q eq_refl Hpos').
      * assert (q == 0)%Q by (pose proof (Hnonneg q eq_refl); lra).
        rewrite Hdef in Hle by (right; right; eauto). lia.
    + rewrite Hdef in Hle by auto. lia.
  - intros [Hl | Hl]; rewrite Hdef in Hle; try lia.
    + now left.
    + right. right. exists 0%Q. split; [exact Hl|reflexivity].
  - intros q Hl Hpos'. apply (Hq q Hl Hpos').
Qed.

Lemma searchExperts_result_size_witness :
  (length (experts (searchExperts Sample.enrichTwo
                      [Sample.cardAlice; Sample.cardBob] Sample.noTabs))
   <= 10)%nat.
Proof.
  destruct (searchExperts_result_size Sample.enrichTwo
              [Sample.cardAlice; Sample.cardBob] Sample.noTabs) as (_ & H & _).
  - intros q Hq. discriminate Hq.
  - apply H. left. reflexivity.
Defined.

Lemma Permutation_filter_length {A : Type} (f : A -> bool) (l l' : list A) :
  Permutation l l' ->
  length (List.filter f l) = length (List.filter f l').
Proof.
  induction 1 as [|x l l' _ IH|x y l|l l' l'' _ IH1 _ IH2]; simpl.
  - reflexivity.
  - destruct (f x); simpl; congruence.
  - destruct (f x), (f y); reflexivity.
  - congruence.
Qed.

Lemma listedExperts_unrated (opts : SearchOptions) (allItems : list Card) :
  Forall (fun e => hasRating e = false) (listedExperts opts allItems).
Proof.
  apply Forall_forall. intros e He. apply list_elem_of_In in He.
  destruct (listedExperts_extracted _ _ _ He) as (card & e0 & _ & Hex & ->).
  destruct (extractCard_Some _ _ _ _ Hex) as (_ & _ & _ & Hrt & _).
  unfold hasRating. cbn [scoreExpert rating]. now rewrite Hrt.
Qed.

Lemma filter_none {A : Type} (f : A -> bool) (l : list A) :
  Forall (fun x => f x = false) l -> List.filter f l = [].
Proof.
  induction 1 as [|x l Hx _ IH]; simpl; [reflexivity|]. now rewrite Hx.
Qed.

Lemma enrichedList_app (n : number) (tabs : Tabs) (l : list ExpertProfile) :
  enrichedList n tabs l
  = enrichProfiles tabs (slice0 l n) ++ drop (sliceEnd (length l) n) l.
Proof.
  pose proof (sliceEnd_le (length l) n) as Hle.
  assert (Hlen : length (enrichProfiles tabs (slice0 l n))
                 = sliceEnd (length l) n).
  { rewrite length_enrichProfiles. unfold slice0. rewrite length_take. lia. }
  apply list_eq. intros k. rewrite enrichedList_lookup.
  destruct (decide (k < sliceEnd (length l) n)%nat) as [Hk|Hk].
  - rewrite lookup_app_l by lia.
    rewrite enrichProfiles_lookup. unfold slice0.
    now rewrite lookup_take_lt by lia.
  - rewrite lookup_app_r by lia. rewrite Hlen, lookup_drop.
    f_equal. lia.
Qed.

(** The count of enriched records: the [enriched] field of a search
    result is the number of returned experts that have a rating, and it
    never exceeds the number of records the enrichment was asked for. *)
Theorem searchExperts_enriched_count
    (opts : SearchOptions) (allItems : list Card) (tabs : Tabs) :
  let r := searchExperts opts allItems tabs in
  enriched r = length (List.filter hasRating (experts r)) /\
  (enriched r <= length (experts r))%nat /\
  (forall n, enrich opts = Some n ->
     (enriched r <= sliceEnd (length (listedExperts opts allItems)) n)%nat).
Proof.
  cbv zeta. set (listed := listedExperts opts allItems).
  pose proof (listedExperts_unrated opts allItems) as Hunrated.
  fold listed in Hunrated.
  assert (Hcases :
    enriched (searchExperts opts allItems tabs)
    = length (List.filter hasRating (experts (searchExperts opts allItems tabs)))
    /\ forall n, enrich opts = Some n ->
         (enriched (searchExperts opts allItems tabs)
          <= sliceEnd (length listed) n)%nat).
  { unfold searchExperts. fold listed.
    destruct (enrichRequested opts listed).
    - destruct (enrich opts) as [n|]; cbn [experts enriched].
      + split.
        * rewrite (Permutation_filter_length hasRating _ _
                     (sortBy_Permutation compareScore _)).
          rewrite enrichedList_app, List.filter_app.
          rewrite (filter_none hasRating (drop _ listed))
            by now apply Forall_drop.
          now rewrite app_nil_r.
        * intros n' [= <-].
          etransitivity; [apply filter_length_le|].
          rewrite length_enrichProfiles. unfold slice0.
          rewrite length_take. lia.
      + split; [now rewrite filter_none|]. intros n' Hn'. discriminate.
    - cbn [experts enriched]. split; [now rewrite filter_none|].
      intros; lia. }
  destruct Hcases as [Heq Hle]. split; [exact Heq|]. split; [|exact Hle].
  rewrite Heq. apply filter_length_le.
Qed.

Lemma searchExperts_enriched_count_witness :
  (enriched (searchExperts Sample.enrichTwo [Sample.cardAlice; Sample.cardBob]
               Sample.tabsSecondRated) <= 2)%nat.
Proof.
  destruct (searchExperts_enriched_count Sample.enrichTwo
              [Sample.cardAlice; Sample.cardBob] Sample.tabsSecondRated)
    as (_ & _ & H).
  apply (H (Num 2)). reflexivity.
Defined.

(** ** The shape of a listed record *)

Lemma dropWhile_takeWhile (f : ascii -> bool) (s : string) :
  Str.dropWhile f (Str.takeWhile f s) = "".
Proof.
  induction s as [|c s IH]; simpl; [reflexivity|].
  destruct (f c) eqn:Hc; simpl; [|reflexivity]. now rewrite Hc.
Qed.

Lemma findUsername_not_nav (links : list string) :
  inList (findUsername links) NAV_PATHS = false.
Proof.
  induction links as [|href rest IH]; cbn [findUsername]; [reflexivity|].
  destruct (hrefHandle href) as [m1|]; [|exact IH].
  destruct (inList m1 NAV_PATHS) eqn:Hnav; cbn [negb]; [exact IH|exact Hnav].
Qed.

Lemma findUsername_handle (links : list string) :
  allChars isHandleChar (findUsername links) = true.
Proof.
  induction links as [|href rest IH]; cbn [findUsername]; [reflexivity|].
  destruct (hrefHandle href) as [m1|] eqn:Hh; [|exact IH].
  destruct (negb (inList m1 NAV_PATHS)); [|exact IH].
  unfold hrefHandle in Hh. destruct href as [|c r]; [discriminate|].
  destruct (Ascii.eqb c "/"); [|discriminate].
  unfold allChars.
  destruct (Str.takeWhile isHandleChar r) eqn:Ht; [discriminate|].
  injection Hh as <-. rewrite <- Ht. now rewrite dropWhile_takeWhile.
Qed.

Lemma firstRating_range (caps : list string) :
  ratingInRange (firstRating caps).
Proof.
  induction caps as [|m rest IH]; cbn [firstRating]; [now left|].
  destruct (JsNum.gt (parseFloat m) (Num 0) && JsNum.le (parseFloat m) (Num 5))
    eqn:Hin; [|exact IH].
  right. apply andb_true_iff in Hin as [Hgt Hle].
  destruct (parseFloat m) as [|x]; [discriminate|].
  exists x. split; [reflexivity|].
  unfold JsNum.gt, JsNum.lt, JsNum.le in *.
  apply negb_true_iff in Hgt. apply Qle_bool_iff in Hle. split; [|exact Hle].
  destruct (Qlt_le_dec 0 x) as [H|H]; [exact H|].
  apply Qle_bool_iff in H. congruence.
Qed.

Lemma parseInt_count_natural (c : ascii) (rest : string) :
  Str.isDigit c = true ->
  countIsNatural (Some (parseInt (dropFirstComma (String c rest)))).
Proof.
  intros Hc. right. cbn [dropFirstComma]. rewrite (digit_is_not_comma c Hc).
  unfold parseInt. cbn [Str.takeWhile]. rewrite Hc.
  eexists. split; [reflexivity|]. apply digitsValue_nonneg. lia.
Qed.

Lemma scrapeRatings_ranges (text : string) :
  ratingInRange (pd_rating (scrapeRatings text)) /\
  countIsNatural (pd_reviewCount (scrapeRatings text)).
Proof.
  unfold scrapeRatings. cbn [pd_rating pd_reviewCount]. split.
  - apply firstRating_range.
  - destruct (countMatch REVIEW_MARKERS text) as [cap|] eqn:Hc; [|now left].
    destruct (countMatch_starts_with_digit _ _ _ Hc) as (c & rest & -> & Hd).
    now apply parseInt_count_natural.
Qed.

Lemma calculateValueScore_nonneg (rc rt : option number) (r : number) :
  countIsNatural rc -> ratingInRange rt -> rateIsNonneg r ->
  scoreIsNonneg (calculateValueScore rc rt r).
Proof.
  intros Hrc Hrt (q & -> & Hq).
  destruct Hrt as [-> | (x & -> & Hx0 & Hx5)]; [now left|].
  destruct Hrc as [-> | (z & -> & Hz)]; [now left|].
  right. unfold calculateValueScore. cbn [JsNum.le].
  destruct (Qle_bool q 0) eqn:Hle.
  - exists 0%Q. split; [reflexivity|lra].
  - assert (Hpos : (0 < q)%Q).
    { destruct (Qlt_le_dec 0 q) as [H|H]; [exact H|].
      apply Qle_bool_iff in H. congruence. }
    cbn [JsNum.mul JsNum.div]. rewrite (Qeq_bool_false_of_pos q Hpos).
    cbn [JsNum.mul JsNum.div JsNum.round].
    change (Qeq_bool 100 0) with false. cbv iota.
    eexists. split; [reflexivity|].
    assert (Hz' : (0 <= inject_Z z)%Q)
      by (change 0%Q with (inject_Z 0); now rewrite <- Zle_Qle).
    assert (Hy : (0 <= inject_Z z * x / q)%Q).
    { apply Qle_shift_div_l; [exact Hpos|].
      rewrite Qmult_0_l. apply Qmult_le_0_compat; [exact Hz'|].
      now apply Qlt_le_weak. }
    set (y := (inject_Z z * x / q)%Q) in *.
    assert (Hf : (0 <= Qfloor (y * 100 + (1 # 2)))%Z)
      by (apply Qfloor_nonneg; lra).
    set (k := Qfloor (y * 100 + (1 # 2))) in *.
    assert (Hf' : (0 <= inject_Z k)%Q)
      by (change 0%Q with (inject_Z 0); now rewrite <- Zle_Qle).
    apply Qle_shift_div_l; [reflexivity|]. lra.
Qed.

Lemma withRatings_wellFormed (e : ExpertProfile) (text : string) :
  wellFormedListing e -> wellFormedListing (withRatings e (scrapeRatings text)).
Proof.
  intros (Hn & Hu & Hnav & Hh & Hr & _).
  destruct (scrapeRatings_ranges text) as [Hrt Hrc].
  unfold wellFormedListing.
  cbn [withRatings name url username rate rating reviewCount valueScore].
  repeat split; try assumption.
  now apply calculateValueScore_nonneg.
Qed.

Lemma extractCard_wellFormed (mn mx : option number) (card : Card)
    (e : ExpertProfile) :
  extractCard mn mx card = Some e -> wellFormedListing (scoreExpert e).
Proof.
  intros Hex. destruct (extractCard_Some _ _ _ _ Hex) as (Hr & _ & _ & Hrt & Hrc & _).
  unfold extractCard in Hex.
  destruct (belowMin _ _); [discriminate|].
  destruct (aboveMax _ _); [discriminate|].
  destruct (Str.truthy (nameS (scanStrongs (strongs card)))) eqn:Hname;
    cbn [orb] in Hex.
  - injection Hex as <-. unfold wellFormedListing.
    cbn [scoreExpert name url username rate rating reviewCount valueScore].
    repeat split.
    + intros E. rewrite E in Hname. discriminate.
    + apply findUsername_not_nav.
    + apply findUsername_handle.
    + apply scanStrongs_rate.
    + now left.
    + now left.
    + now left.
  - destruct (Str.truthy (findUsername (hrefs card))) eqn:Hun; [|discriminate].
    injection Hex as <-. unfold wellFormedListing.
    cbn [scoreExpert name url username rate rating reviewCount valueScore].
    repeat split.
    + intros E. rewrite E in Hun. discriminate.
    + apply findUsername_not_nav.
    + apply findUsername_handle.
    + apply scanStrongs_rate.
    + now left.
    + now left.
    + now left.
Qed.

Lemma searchExperts_wellFormed
    (opts : SearchOptions) (allItems : list Card) (tabs : Tabs) :
  Forall wellFormedListing (experts (searchExperts opts allItems tabs)).
Proof.
  apply searchExperts_Forall; [apply withRatings_wellFormed|].
  apply Forall_forall. intros e He. apply list_elem_of_In in He.
  destruct (listedExperts_extracted _ _ _ He) as (card & e0 & _ & Hex & ->).
  eapply extractCard_wellFormed; eauto.
Qed.

(** X5 (names, handles and links of a search result): every returned
    expert has a name that is not empty, a profile URL that is the site
    followed by its user name, and a user name that is made of letters,
    digits, underscores and hyphens and is none of the navigation paths
    of the site. *)
Theorem searchExperts_handles
    (opts : SearchOptions) (allItems : list Card) (tabs : Tabs)
    (e : ExpertProfile) :
  In e (experts (searchExperts opts allItems tabs)) ->
  name e <> "" /\
  url e = ("https://clarity.fm/" ++ username e)%string /\
  inList (username e) NAV_PATHS = false /\
  allChars isHandleChar (username e) = true.
Proof.
  intros He.
  pose proof (searchExperts_wellFormed opts allItems tabs) as Hall.
  rewrite Forall_forall in Hall.
  destruct (Hall e ltac:(now apply list_elem_of_In)) as (H1 & H2 & H3 & H4 & _).
  auto.
Qed.

Lemma searchExperts_handles_witness :
  name Sample.expertBob <> "" /\
  url Sample.expertBob = ("https://clarity.fm/" ++ username Sample.expertBob)%string /\
  inList (username Sample.expertBob) NAV_PATHS = false /\
  allChars isHandleChar (username Sample.expertBob) = true.
Proof.
  apply (searchExperts_handles Sample.zeroBounds [Sample.cardBob] Sample.noTabs).
  left. reflexivity.
Defined.



(** ** Booking submission, step by step *)

Lemma submitBooking_eq (b : Browser) (w : World) :
  submitBooking b w
  = match getSession (sessionFile w) with
    | Normal session =>
        if negb (jsonTruthy (field session "bookingFilled"))
        then (Normal noBookingError, w)
        else match ensureBrowser b w with
             | (Normal _, w1) => submitTail b session w1
             | (Throw m, w1) => (Throw m, w1)
             end
    | Throw m => (Throw m, w)
    end.
Proof.
  unfold submitBooking, bind, readSessionFile, lift.
  destruct (getSession (sessionFile w)); [|reflexivity].
  destruct (negb (jsonTruthy (field value "bookingFilled"))); reflexivity.
Qed.

Lemma getSession_total (f : File) : exists v, getSession f = Normal v.
Proof. destruct f; eexists; reflexivity. Qed.

(** The guard of [submitBooking]. *)
Lemma submitBooking_guard (b : Browser) (w : World) :
  notFilled (sessionFile w) -> submitBooking b w = (Normal noBookingError, w).
Proof.
  intros Hnf. rewrite submitBooking_eq. destruct (sessionFile w); try reflexivity.
  cbn [getSession existsSync negb readJson tryCatch]. simpl in Hnf.
  rewrite Hnf. reflexivity.
Qed.



Lemma noClickAfterGood_app (b : Browser) (l1 l2 : list Event) :
  noClickAfterGood b l1 = true -> forallb notClick l2 = true ->
  noClickAfterGood b (l1 ++ l2) = true.
Proof.
  induction l1 as [|e l1 IH]; intros H1 H2; simpl in *.
  - induction l2 as [|e l2 IH2]; simpl in *; [reflexivity|].
    apply andb_true_iff in H2 as [He H2].
    destruct (goodClick b e); [exact H2|]. now apply IH2.
  - destruct (goodClick b e).
    + rewrite forallb_app. now rewrite H1.
    + now apply IH.
Qed.

Lemma noClickAfterGood_skip (b : Browser) (l1 l2 : list Event) :
  forallb (fun e => negb (goodClick b e)) l1 = true ->
  noClickAfterGood b (l1 ++ l2) = noClickAfterGood b l2.
Proof.
  induction l1 as [|e l1 IH]; intros H1; simpl in *; [reflexivity|].
  apply andb_true_iff in H1 as [He H1].
  apply negb_true_iff in He. rewrite He. now apply IH.
Qed.

Lemma notClick_notGood (b : Browser) (l : list Event) :
  forallb notClick l = true ->
  forallb (fun e => negb (goodClick b e)) l = true.
Proof.
  induction l as [|e l IH]; simpl; [reflexivity|].
  intros H. apply andb_true_iff in H as [He H]. rewrite IH by assumption.
  destruct e; try reflexivity. discriminate He.
Qed.


(** The loop over the submit selectors never throws, never touches the
    session file, and stops at the first click that returns. *)
Lemma clickSubmit_run (b : Browser) (selectors : list string) (w : World) :
  exists r new,
    clickSubmit b selectors w
    = (Normal r, {| sessionFile := sessionFile w; trace := trace w ++ new |}) /\
    noClickAfterGood b new = true.
Proof.
  revert w. induction selectors as [|selector rest IH]; intros w.
  - exists false, []. cbn [clickSubmit]. unfold ret. rewrite app_nil_r.
    destruct w; split; reflexivity.
  - cbn [clickSubmit]. unfold bind, catch, ask, ret.
    cbn [sessionFile trace].
    destruct (querySelector b selector) as [[|]|m1] eqn:Hq.
    + destruct (isVisible b selector) as [[|]|m2] eqn:Hv.
      * destruct (click b selector) as [[]|m3] eqn:Hc.
        -- exists true, [QuerySelector selector; IsVisible selector; Click selector].
           cbn [sessionFile trace]. rewrite <- !app_assoc. split; [reflexivity|].
           cbn. rewrite Hc. reflexivity.
        -- destruct (IH {| sessionFile := sessionFile w;
                           trace := ((trace w ++ [QuerySelector selector])
                                     ++ [IsVisible selector]) ++ [Click selector] |})
             as (r & new & Hrun & Hnew).
           exists r, ([QuerySelector selector; IsVisible selector; Click selector] ++ new).
           cbn [sessionFile trace] in *. rewrite Hrun.
           rewrite <- !app_assoc. split; [reflexivity|].
           rewrite noClickAfterGood_skip; [exact Hnew|].
           cbn. rewrite Hc. reflexivity.
      * destruct (IH {| sessionFile := sessionFile w;
                        trace := (trace w ++ [QuerySelector selector])
                                 ++ [IsVisible selector] |})
          as (r & new & Hrun & Hnew).
        exists r, ([QuerySelector selector; IsVisible selector] ++ new).
        cbn [sessionFile trace] in *. rewrite Hrun.
        rewrite <- !app_assoc. split; [reflexivity|].
        rewrite noClickAfterGood_skip; [exact Hnew|reflexivity].
      * destruct (IH {| sessionFile := sessionFile w;
                        trace := (trace w ++ [QuerySelector selector])
                                 ++ [IsVisible selector] |})
          as (r & new & Hrun & Hnew).
        exists r, ([QuerySelector selector; IsVisible selector] ++ new).
        cbn [sessionFile trace] in *. rewrite Hrun.
        rewrite <- !app_assoc. split; [reflexivity|].
        rewrite noClickAfterGood_skip; [exact Hnew|reflexivity].
    + destruct (IH {| sessionFile := sessionFile w;
                      trace := trace w ++ [QuerySelector selector] |})
        as (r & new & Hrun & Hnew).
      exists r, ([QuerySelector selector] ++ new).
      cbn [sessionFile trace] in *. rewrite Hrun.
      rewrite <- !app_assoc. split; [reflexivity|].
      rewrite noClickAfterGood_skip; [exact Hnew|reflexivity].
    + destruct (IH {| sessionFile := sessionFile w;
                      trace := trace w ++ [QuerySelector selector] |})
        as (r & new & Hrun & Hnew).
      exists r, ([QuerySelector selector] ++ new).
      cbn [sessionFile trace] in *. rewrite Hrun.
      rewrite <- !app_assoc. split; [reflexivity|].
      rewrite noClickAfterGood_skip; [exact Hnew|reflexivity].
Qed.

(** [ensureBrowser] clicks nothing; it succeeds whenever a launch would;
    with a reusable browser and a readable record it leaves the session
    file alone; otherwise it may remove the record or write a fresh one. *)
Lemma ensureBrowser_run (b : Browser) (w : World) :
  exists r f new,
    ensureBrowser b w = (r, {| sessionFile := f; trace := trace w ++ new |}) /\
    forallb notClick new = true /\
    (launch b = Normal tt -> r = Normal tt) /\
    (reconnect b = Reused ->
     (exists v, sessionFile w = Json v /\ v <> JNull) ->
     r = Normal tt /\ f = sessionFile w) /\
    (r = Normal tt ->
     f = sessionFile w \/ f = Missing
     \/ exists endpoint, f = Json (freshSession b endpoint)).
Proof.
  destruct w as [f tr].
  unfold ensureBrowser, bind, catch, emit, readSessionFile, lift, ret, raise,
    setSessionFile.
  cbn [sessionFile trace].
  destruct f as [| | |v]; cbn [existsSync readJson];
    try destruct v;
    destruct (reconnect b) eqn:Hrec;
    destruct (unlinkSession b) as [[]|mu] eqn:Hu;
    destruct (launch b) as [[]|m] eqn:Hl;
    destruct (wsEndpoint b) as [endpoint|] eqn:Hws;
    cbn [sessionFile trace]; rewrite <- ?app_assoc;
    (eexists _, _, _; split; [reflexivity|]);
    (split; [reflexivity|]);
    (split; [intros; congruence|]);
    (split; [intros Hr (v' & Hv' & Hnull);
             try discriminate; try (injection Hv' as <-; congruence);
             split; reflexivity|]);
    intros Hres; try discriminate Hres; eauto.
Qed.

Lemma assoc_setField_eq (k : string) (v : json) (fields : list (string * json)) :
  assoc k (setField k v fields) = Some v.
Proof.
  induction fields as [|[k' v'] fields IH]; simpl.
  - now rewrite String.eqb_refl.
  - destruct (String.eqb k k') eqn:E; simpl.
    + now rewrite String.eqb_refl.
    + now rewrite E.
Qed.

Lemma assoc_setField_ne (k k' : string) (v : json)
    (fields : list (string * json)) :
  k' <> k -> assoc k' (setField k v fields) = assoc k' fields.
Proof.
  intros Hne. induction fields as [|[k0 v0] fields IH]; simpl.
  - apply String.eqb_neq in Hne. now rewrite Hne.
  - destruct (String.eqb k k0) eqn:E; simpl.
    + apply String.eqb_eq in E. subst k0.
      apply String.eqb_neq in Hne. now rewrite Hne.
    + now rewrite IH.
Qed.

Ltac finish_tail Hn1 :=
  cbn [sessionFile trace]; rewrite <- ?app_assoc;
  eexists _, _, _; split; [reflexivity|];
  split; [apply noClickAfterGood_app; [exact Hn1|reflexivity]|];
  split; [try discriminate|try discriminate; try reflexivity].

(** The part of [submitBooking] that follows the acquisition of the
    browser never throws; it writes the session file only to clear
    [bookingFilled], and only when it reports success. *)
Lemma submitTail_run (b : Browser) (session : json) (w : World) :
  exists r f new,
    submitTail b session w
    = (Normal r, {| sessionFile := f; trace := trace w ++ new |}) /\
    noClickAfterGood b new = true /\
    (succeeded (Normal r) = true -> notFilled f) /\
    (succeeded (Normal r) = false -> f = sessionFile w).
Proof.
  unfold submitTail, catch, bind.
  destruct (clickSubmit_run b submitSelectors w) as (sub & new1 & Hrun & Hn1).
  rewrite Hrun. clear Hrun.
  unfold updateSession, takeShot.
  unfold ask, emit, ret, bind, readSessionFile, lift, setSessionFile.
  cbn [sessionFile trace negb].
  destruct sub; cbn [negb].
  - destruct (waitForTimeout b) as [[]|m1]; cbn [sessionFile trace];
      [|destruct (screenshot b) as [[]|]; finish_tail Hn1].
    destruct (querySelector b paymentSelector) as [[|]|m2];
      cbn [sessionFile trace];
      [destruct (screenshot b) as [[]|]; finish_tail Hn1
      |
      |destruct (screenshot b) as [[]|]; finish_tail Hn1].
    destruct (screenshot b) as [[]|m3]; cbn [sessionFile trace];
      [|finish_tail Hn1].
    destruct (evaluate b) as [conf|m4]; cbn [sessionFile trace];
      [|finish_tail Hn1].
    destruct (sessionFile w) as [| | |v] eqn:Hf;
      cbn [existsSync readJson sessionFile trace];
      try (finish_tail Hn1; intros _; exact I).
    destruct v; cbn [assignFields sessionFile trace];
      try (finish_tail Hn1; intros _; reflexivity).
    finish_tail Hn1. intros _. cbn [notFilled field fold_left fst snd].
    rewrite assoc_setField_eq. reflexivity.
  - destruct (screenshot b) as [[]|]; finish_tail Hn1.
Qed.

Lemma noClick_noClickAfterGood (b : Browser) (l : list Event) :
  forallb notClick l = true -> noClickAfterGood b l = true.
Proof.
  intros H. apply (noClickAfterGood_app b [] l); [reflexivity|exact H].
Qed.

Lemma filled_session (f : File) (session : json) :
  getSession f = Normal session ->
  jsonTruthy (field session "bookingFilled") = true ->
  f = Json session /\ session <> JNull.
Proof.
  intros Hs Ht. destruct f; cbn in Hs; injection Hs as <-;
    try discriminate Ht.
  split; [reflexivity|]. intros ->. discriminate Ht.
Qed.

(** One call of [submitBooking], as a whole. *)
Lemma submitBooking_run (b : Browser) (w : World) :
  exists r f new,
    submitBooking b w = (r, {| sessionFile := f; trace := trace w ++ new |}) /\
    noClickAfterGood b new = true /\
    (launch b = Normal tt -> exists x, r = Normal x) /\
    (succeeded r = true -> notFilled f) /\
    (reconnect b = Reused -> succeeded r = false -> f = sessionFile w).
Proof.
  rewrite submitBooking_eq.
  destruct (getSession_total (sessionFile w)) as [session Hs]. rewrite Hs.
  destruct (jsonTruthy (field session "bookingFilled")) eqn:Ht; cbn [negb].
  - destruct (filled_session _ _ Hs Ht) as [Hf Hnull].
    destruct (ensureBrowser_run b w)
      as (r1 & f1 & new1 & Hrun & Hnc & Hl & Hre & Hcases).
    rewrite Hrun. destruct r1 as [[]|m].
    + destruct (submitTail_run b session
                  {| sessionFile := f1; trace := trace w ++ new1 |})
        as (r & f & new2 & Hrun2 & Hn2 & Hsucc & Hfail).
      rewrite Hrun2. cbn [sessionFile trace] in *.
      exists (Normal r), f, (new1 ++ new2). rewrite app_assoc.
      split; [reflexivity|]. split.
      { rewrite noClickAfterGood_skip; [exact Hn2|].
        now apply notClick_notGood. }
      split; [eauto|]. split; [exact Hsucc|].
      intros Hr Hns. rewrite (Hfail Hns).
      apply Hre; [exact Hr|]. eauto.
    + exists (Throw m), f1, new1. split; [reflexivity|].
      split; [now apply noClick_noClickAfterGood|].
      split; [intros Hlaunch; specialize (Hl Hlaunch); discriminate|].
      split; [discriminate|].
      intros Hr _. destruct (Hre Hr) as [Hn _]; [eauto|discriminate].
  - exists (Normal noBookingError), (sessionFile w), [].
    rewrite app_nil_r. destruct w. cbn [sessionFile trace].
    repeat split; eauto; discriminate.
Qed.

(** X7 (a submitted booking cannot be submitted twice): when
    [submitBooking] reports success, the session it leaves behind holds no
    filled booking, so that any further [submitBooking], with whatever
    browser, returns the no-booking error and touches nothing. *)
Theorem submitBooking_success_clears_booking (b b' : Browser) (w : World) :
  succeeded (fst (submitBooking b w)) = true ->
  submitBooking b' (snd (submitBooking b w))
  = (Normal noBookingError, snd (submitBooking b w)).
Proof.
  intros Hs.
  destruct (submitBooking_run b w) as (r & f & new & Hrun & _ & _ & Hclear & _).
  rewrite Hrun in *. cbn [fst snd] in *.
  apply submitBooking_guard. cbn [sessionFile]. now apply Hclear.
Qed.

(** X8 (a submit that does not succeed keeps the booking): with a browser
    that is reused, whenever [submitBooking] does not report success (no
    booking filled, no button found, payment step detected, or any
    exception) the session file is left exactly as it was; in particular
    a booking stays filled after the payment step was detected. *)
Theorem submitBooking_failure_keeps_session (b : Browser) (w : World) :
  reconnect b = Reused ->
  succeeded (fst (submitBooking b w)) = false ->
  sessionFile (snd (submitBooking b w)) = sessionFile w.
Proof.
  intros Hr Hs.
  destruct (submitBooking_run b w) as (r & f & new & Hrun & _ & _ & _ & Hkeep).
  rewrite Hrun in *. cbn [fst snd sessionFile] in *. now apply Hkeep.
Qed.

(** X9 (one click per call): [submitBooking] only ever adds to the trace,
    and once a click on a submit control has returned normally it logs no
    further click. *)
Theorem submitBooking_clicks_once (b : Browser) (w : World) :
  exists new,
    trace (snd (submitBooking b w)) = trace w ++ new /\
    noClickAfterGood b new = true.
Proof.
  destruct (submitBooking_run b w) as (r & f & new & Hrun & Hn & _).
  rewrite Hrun. exists new. split; [reflexivity|exact Hn].
Qed.

(** X10 (failures are reported, not thrown): when the browser can be
    launched, [submitBooking] always returns an object; an exception of
    any step after the acquisition of the browser is turned into an error
    object. *)
Theorem submitBooking_returns (b : Browser) (w : World) :
  launch b = Normal tt ->
  exists x, fst (submitBooking b w) = Normal x.
Proof.
  intros Hl.
  destruct (submitBooking_run b w) as (r & f & new & Hrun & _ & Hret & _).
  rewrite Hrun. cbn [fst]. now apply Hret.
Qed.

(** Reset forgets a filled booking: a reset that reports success
    leaves no session file, so that [submitBooking] afterwards returns the
    no-booking error and touches nothing; a reset that reports an error
    leaves the session file as it was. *)
Theorem reset_then_submit (held : option (completion unit))
    (unlink : completion unit) (f : File) :
  (forall m b tr,
     fst (reset held unlink f) = ResetOk m ->
     snd (reset held unlink f) = Missing /\
     submitBooking b {| sessionFile := snd (reset held unlink f); trace := tr |}
     = (Normal noBookingError,
        {| sessionFile := snd (reset held unlink f); trace := tr |})) /\
  (forall m, fst (reset held unlink f) = ResetError m ->
             snd (reset held unlink f) = f).
Proof.
  split.
  - intros m b tr Hok.
    assert (Hmiss : snd (reset held unlink f) = Missing).
    { unfold reset in *. destruct held as [[[]|]|]; cbn in *; try discriminate;
        destruct f; cbn in *; try reflexivity;
        destruct unlink as [[]|]; cbn in *; try discriminate; reflexivity. }
    split; [exact Hmiss|]. rewrite Hmiss. reflexivity.
  - intros m Herr. unfold reset in *.
    destruct held as [[[]|]|]; cbn in *; try reflexivity;
      destruct f; cbn in *; try discriminate; try reflexivity;
      destruct unlink as [[]|]; cbn in *; try discriminate; reflexivity.
Qed.

Lemma submitBooking_success_clears_booking_witness :
  submitBooking Sample.browser
    (snd (submitBooking Sample2.browserOk Sample.filledWorld))
  = (Normal noBookingError,
     snd (submitBooking Sample2.browserOk Sample.filledWorld)).
Proof.
  apply submitBooking_success_clears_booking. reflexivity.
Defined.

Lemma submitBooking_failure_keeps_session_witness :
  paymentPending (fst (submitBooking Sample2.browserPayment Sample.filledWorld))
  = true /\
  sessionFile (snd (submitBooking Sample2.browserPayment Sample.filledWorld))
  = sessionFile Sample.filledWorld.
Proof.
  split; [reflexivity|].
  apply submitBooking_failure_keeps_session; reflexivity.
Defined.

Lemma submitBooking_returns_witness :
  exists x, fst (submitBooking Sample.browser Sample.filledWorld) = Normal x.
Proof. apply submitBooking_returns. reflexivity. Defined.

Lemma reset_then_submit_witness :
  snd (reset None (Normal tt) (sessionFile Sample.filledWorld)) = Missing.
Proof.
  destruct (reset_then_submit None (Normal tt) (sessionFile Sample.filledWorld))
    as [H _].
  apply (H "Browser session closed and cleared." Sample.browser []).
  reflexivity.
Defined.

(** ** The session record *)

Lemma assoc_app {V : Type} (k : string) (l1 l2 : list (string * V)) :
  assoc k (l1 ++ l2)
  = match assoc k l1 with Some v => Some v | None => assoc k l2 end.
Proof.
  induction l1 as [|[k' v'] l1 IH]; simpl; [reflexivity|].
  destruct (String.eqb k k'); [reflexivity|exact IH].
Qed.

Lemma assoc_assignFields (updates fields : list (string * json)) (k : string) :
  assoc k (fold_left (fun fs kv => setField (fst kv) (snd kv) fs) updates fields)
  = assigned updates fields k.
Proof.
  unfold assigned. revert fields.
  induction updates as [|[k0 v0] updates IH]; intros fields; simpl;
    [reflexivity|].
  rewrite IH, assoc_app. destruct (assoc k (rev updates)); [reflexivity|].
  simpl. destruct (String.eqb k k0) eqn:E.
  - apply String.eqb_eq in E. subst. apply assoc_setField_eq.
  - apply assoc_setField_ne. now apply String.eqb_neq.
Qed.

(** X11 (updating the session record): on a record that is an object,
    [updateSession] writes the record back with every updated key at its
    new value (the last one, when a key is updated twice) and every other
    key as it was, and [getSession] then reads that record; it never
    creates a session file where there is none; and on a file that cannot
    be read or parsed it throws and writes nothing. *)
Theorem updateSession_spec (updates : list (string * json)) (w : World) :
  (forall fields,
     sessionFile w = Json (JObject fields) ->
     exists fields',
       updateSession updates w
       = (Normal tt, {| sessionFile := Json (JObject fields');
                        trace := trace w ++ [WriteSession] |}) /\
       getSession (Json (JObject fields')) = Normal (JObject fields') /\
       forall k, assoc k fields' = assigned updates fields k) /\
  (sessionFile w = Missing -> updateSession updates w = (Normal tt, w)) /\
  (sessionFile w = Unreadable \/ sessionFile w = NotJson
   \/ sessionFile w = Json JNull ->
   exists m, updateSession updates w = (Throw m, w)).
Proof.
  destruct w as [f tr]. cbn [sessionFile trace].
  unfold updateSession, bind, readSessionFile, lift, emit, ret, setSessionFile.
  cbn [sessionFile trace].
  split; [|split].
  - intros fields ->. cbn. eexists. split; [reflexivity|].
    split; [reflexivity|]. intros k. apply assoc_assignFields.
  - intros ->. reflexivity.
  - intros [-> | [-> | ->]]; cbn; eauto.
Qed.

Lemma updateSession_spec_witness :
  exists fields',
    updateSession [("bookingFilled", JBool true); ("currentExpert", JString "bob")]
      Sample2.sessionWorld
    = (Normal tt, {| sessionFile := Json (JObject fields');
                     trace := [WriteSession] |}) /\
    assoc "bookingFilled" fields' = Some (JBool true) /\
    assoc "loggedIn" fields' = Some (JBool true).
Proof.
  destruct (updateSession_spec
              [("bookingFilled", JBool true); ("currentExpert", JString "bob")]
              Sample2.sessionWorld) as (H & _).
  destruct (H Sample2.sessionFields eq_refl) as (fields' & Hrun & _ & Hk).
  exists fields'. split; [exact Hrun|].
  split; [rewrite Hk|rewrite Hk]; reflexivity.
Defined.
(** ** The budget tracker *)

Lemma assoc_setProp_eq {V : Type} (k : string) (v : V) (l : list (string * V)) :
  assoc k (setProp k v l) = Some v.
Proof.
  induction l as [|[k' v'] l IH]; cbn [setProp assoc].
  - now rewrite String.eqb_refl.
  - destruct (String.eqb k k') eqn:E; cbn [assoc].
    + now rewrite String.eqb_refl.
    + now rewrite E.
Qed.

Lemma assoc_setProp_ne {V : Type} (k k0 : string) (v : V)
    (l : list (string * V)) :
  k0 <> k -> assoc k0 (setProp k v l) = assoc k0 l.
Proof.
  intros Hne. induction l as [|[k' v'] l IH]; cbn [setProp assoc].
  - apply String.eqb_neq in Hne. now rewrite Hne.
  - destruct (String.eqb_spec k k') as [<-|Hk]; cbn [assoc].
    + apply String.eqb_neq in Hne. now rewrite Hne.
    + destruct (String.eqb k0 k'); [reflexivity|exact IH].
Qed.

Module BudgetFacts.
Import BudgetTracker.

Lemma monthOr_idem (month : option string) (now : string) :
  monthOr (Some (monthOr month now)) now = monthOr month now.
Proof.
  unfold monthOr. destruct month as [m|].
  - destruct (Str.truthy m) eqn:E; [now rewrite E|].
    now destruct (Str.truthy (currentMonth now)).
  - now destruct (Str.truthy (currentMonth now)).
Qed.

Lemma monthOr_current (now : string) :
  monthOr (Some (currentMonth now)) now = currentMonth now.
Proof. exact (monthOr_idem None now). Qed.

Lemma sumTotals_snoc (l : list BudgetEntry) (e : BudgetEntry) :
  sumTotals (l ++ [e])%list = Double.add (sumTotals l) (estimatedTotal e).
Proof. unfold sumTotals. now rewrite fold_left_app. Qed.

(** What a returning [addEntry] did: the month held [old] (nothing, when
    it had no array yet) and now holds [old] followed by the new entry;
    every other property of [entries] and the cap are as before. *)
Lemma addEntry_run d name minutes rate now saved d' :
  addEntry d name minutes rate now saved = Normal d' ->
  exists old,
    (entriesAt d (currentMonth now) = Own old \/
     (entriesAt d (currentMonth now) = Absent /\ old = [])) /\
    entriesAt d' (currentMonth now)
      = Own (old ++ [newEntry name minutes rate now])%list /\
    (forall m, m <> currentMonth now -> entriesAt d' m = entriesAt d m) /\
    monthlyCap d' = monthlyCap d.
Proof.
  unfold addEntry. set (month := currentMonth now).
  destruct (entriesAt d month) as [old| |] eqn:Hat.
  - rewrite Hat. destruct saved as [u|e]; [|discriminate]. intros [= <-].
    exists old. split; [now left|]. unfold entriesAt; cbn [entries monthlyCap].
    rewrite assoc_setProp_eq. split; [reflexivity|]. split; [|reflexivity].
    intros m Hm. now rewrite assoc_setProp_ne.
  - rewrite Hat. discriminate.
  - assert (Hown : entriesAt
                     {| monthlyCap := monthlyCap d;
                        entries := setProp month [] (entries d) |} month
                   = Own []).
    { unfold entriesAt; cbn [entries]. now rewrite assoc_setProp_eq. }
    rewrite Hown. destruct saved as [u|e]; [|discriminate]. intros [= <-].
    exists []. split; [now right|]. unfold entriesAt; cbn [entries monthlyCap].
    rewrite assoc_setProp_eq. split; [reflexivity|]. split; [|reflexivity].
    intros m Hm. now rewrite !assoc_setProp_ne.
Qed.

Lemma getMonthlySpend_current d now :
  getMonthlySpend d None now
  = match entriesAt d (currentMonth now) with
    | Own l => Normal (sumTotals l)
    | Absent => Normal Double.zero
    | Inherited => Throw "entries.reduce is not a function"
    end.
Proof. reflexivity. Qed.

Lemma addEntry_spend_eq d name minutes rate now saved d' :
  addEntry d name minutes rate now saved = Normal d' ->
  exists s,
    getMonthlySpend d None now = Normal s /\
    getMonthlySpend d' None now = Normal (Double.add s (Double.mul minutes rate)).
Proof.
  intros Hadd. destruct (addEntry_run _ _ _ _ _ _ _ Hadd)
    as (old & Hold & Hnew & _ & _).
  rewrite !getMonthlySpend_current, Hnew, sumTotals_snoc.
  cbn [newEntry estimatedTotal].
  destruct Hold as [->|[-> ->]]; eexists; split; reflexivity.
Qed.

(** Adding zero to a sum does not change how it compares. *)
Lemma gt_add_zero (s cap : Double.double) :
  Double.gt (Double.add s Double.zero) cap = Double.gt s cap.
Proof.
  destruct s as [[]|[]| |[] m e], cap as [[]|[]| |[] m' e']; reflexivity.
Qed.

End BudgetFacts.

(** X12 (recording a call): when [addEntry] returns, the spend of the
    current month is the spend before plus duration times rate, the
    spend of every other (named) month is what it was, and the cap is
    untouched. *)
Theorem addEntry_adds_to_current_month
    (d d' : BudgetTracker.BudgetData) (name : string) (minutes rate : Double.double)
    (now : string) (saved : completion unit) :
  BudgetTracker.addEntry d name minutes rate now saved = Normal d' ->
  (exists s,
     BudgetTracker.getMonthlySpend d None now = Normal s /\
     BudgetTracker.getMonthlySpend d' None now
       = Normal (Double.add s (Double.mul minutes rate))) /\
  (forall m, Str.truthy m = true -> m <> BudgetTracker.currentMonth now ->
     BudgetTracker.getMonthlySpend d' (Some m) now
     = BudgetTracker.getMonthlySpend d (Some m) now) /\
  BudgetTracker.monthlyCap d' = BudgetTracker.monthlyCap d.
Proof.
  intros Hadd. split; [exact (BudgetFacts.addEntry_spend_eq _ _ _ _ _ _ _ Hadd)|].
  destruct (BudgetFacts.addEntry_run _ _ _ _ _ _ _ Hadd)
    as (old & Hold & Hnew & Hother & Hcap).
  split; [|exact Hcap].
  intros m Ht Hm. unfold BudgetTracker.getMonthlySpend, BudgetTracker.monthOr.
  rewrite Ht. now rewrite Hother.
Qed.

Lemma addEntry_adds_to_current_month_witness :
  let d := {| BudgetTracker.monthlyCap := Double.ofZ 100; BudgetTracker.entries := [] |} in
  let now := "2026-03-01T10:00:00.000Z" in
  exists d',
    BudgetTracker.addEntry d "jane" (Double.ofZ 30) (Double.ofZ 2) now (Normal tt) = Normal d' /\
    BudgetTracker.getMonthlySpend d' None now
      = Normal (Double.add Double.zero (Double.mul (Double.ofZ 30) (Double.ofZ 2))).
Proof.
  eexists. split; [reflexivity|].
  destruct (addEntry_adds_to_current_month
              {| BudgetTracker.monthlyCap := Double.ofZ 100; BudgetTracker.entries := [] |}
              _ "jane" (Double.ofZ 30) (Double.ofZ 2) "2026-03-01T10:00:00.000Z" (Normal tt)
              eq_refl) as [(s & Hs & Hs') _].
  injection Hs as <-. exact Hs'.
Defined.

(** X13 (the history only grows): when [addEntry] returns, the entries
    that [getStatus] lists for the current month are the entries it
    listed before followed by the new entry, whose estimated total is
    duration times rate. *)
Theorem addEntry_appends_to_history
    (d d' : BudgetTracker.BudgetData) (name : string) (minutes rate : Double.double)
    (now : string) (saved : completion unit) :
  BudgetTracker.addEntry d name minutes rate now saved = Normal d' ->
  exists st st',
    BudgetTracker.getStatus d None now = Normal st /\
    BudgetTracker.getStatus d' None now = Normal st' /\
    BudgetTracker.statusEntries st'
      = (BudgetTracker.statusEntries st
         ++ [BudgetTracker.newEntry name minutes rate now])%list /\
    BudgetTracker.estimatedTotal (BudgetTracker.newEntry name minutes rate now)
      = Double.mul minutes rate.
Proof.
  intros Hadd.
  destruct (BudgetFacts.addEntry_run _ _ _ _ _ _ _ Hadd)
    as (old & Hold & Hnew & _ & _).
  unfold BudgetTracker.getStatus.
  change (BudgetTracker.monthOr None now) with (BudgetTracker.currentMonth now).
  unfold BudgetTracker.getMonthlySpend.
  rewrite BudgetFacts.monthOr_current, Hnew.
  destruct Hold as [->|[-> ->]]; do 2 eexists;
    (split; [reflexivity|]); (split; [reflexivity|]); split; reflexivity.
Qed.

Lemma addEntry_appends_to_history_witness :
  let d := {| BudgetTracker.monthlyCap := Double.ofZ 100;
              BudgetTracker.entries :=
                [("2026-03",
                  [BudgetTracker.newEntry "bob" (Double.ofZ 15) (Double.ofZ 1)
                     "2026-03-01T09:00:00.000Z"])] |} in
  let now := "2026-03-02T10:00:00.000Z" in
  exists d' st',
    BudgetTracker.addEntry d "jane" (Double.ofZ 30) (Double.ofZ 2) now (Normal tt) = Normal d' /\
    BudgetTracker.getStatus d' None now = Normal st' /\
    List.map BudgetTracker.expert (BudgetTracker.statusEntries st')
      = ["bob"; "jane"].
Proof.
  eexists.
  destruct (addEntry_appends_to_history
              {| BudgetTracker.monthlyCap := Double.ofZ 100;
                 BudgetTracker.entries :=
                   [("2026-03",
                     [BudgetTracker.newEntry "bob" (Double.ofZ 15) (Double.ofZ 1)
                        "2026-03-01T09:00:00.000Z"])] |}
              _ "jane" (Double.ofZ 30) (Double.ofZ 2) "2026-03-02T10:00:00.000Z" (Normal tt)
              eq_refl) as (st & st' & Hst & Hst' & Happ & _).
  exists st'. split; [reflexivity|]. split; [exact Hst'|].
  rewrite Happ. injection Hst as <-. reflexivity.
Defined.

(** X15 (the status and the budget check agree): whenever [getStatus] returns,
    its [overBudget] flag is the answer of [isOverBudget] for no
    additional cost, for every cap and every ledger, including a cap of
    zero, a negative cap and sums that are not numbers. *)
Theorem getStatus_overBudget_is_isOverBudget
    (d : BudgetTracker.BudgetData) (month : option string) (now : string)
    (st : BudgetTracker.Status) :
  BudgetTracker.getStatus d month now = Normal st ->
  BudgetTracker.isOverBudget d Double.zero month now
  = Normal (BudgetTracker.overBudget st).
Proof.
  unfold BudgetTracker.getStatus, BudgetTracker.isOverBudget,
    BudgetTracker.getMonthlySpend.
  rewrite BudgetFacts.monthOr_idem.
  set (total := match BudgetTracker.entriesAt d (BudgetTracker.monthOr month now) with
                | BudgetTracker.Own l => Normal (BudgetTracker.sumTotals l)
                | BudgetTracker.Inherited => _
                | BudgetTracker.Absent => _
                end).
  destruct total as [s|e]; [|discriminate]. intros [= <-].
  cbn [BudgetTracker.overBudget].
  rewrite BudgetFacts.gt_add_zero.
  destruct (BudgetTracker.monthlyCap d) as [[]|[]| |[] m e]; reflexivity.
Qed.

Lemma getStatus_overBudget_is_isOverBudget_witness :
  let d := {| BudgetTracker.monthlyCap := Double.ofZ 20;
              BudgetTracker.entries :=
                [("2026-03",
                  [BudgetTracker.newEntry "bob" (Double.ofZ 15) (Double.ofZ 2)
                     "2026-03-01T09:00:00.000Z"])] |} in
  BudgetTracker.isOverBudget d Double.zero (Some "2026-03")
    "2026-04-01T00:00:00.000Z"
  = Normal true.
Proof.
  cbv zeta.
  exact (getStatus_overBudget_is_isOverBudget
           {| BudgetTracker.monthlyCap := Double.ofZ 20;
              BudgetTracker.entries :=
                [("2026-03",
                  [BudgetTracker.newEntry "bob" (Double.ofZ 15) (Double.ofZ 2)
                     "2026-03-01T09:00:00.000Z"])] |}
           (Some "2026-03") "2026-04-01T00:00:00.000Z" _ eq_refl).
Defined.

(** X16 (what the status reports): when the spend of the month can be
    read, [spent] is the quotient by 100, in double precision, of the
    integer nearest to the double that spend * 100 evaluates to; with a
    cap above zero [remaining] is the same of (cap - spend) * 100 and
    [overBudget] tells whether the unrounded spend is above the cap; with
    any other cap (zero, negative or not a number) [remaining] is -1 and
    [overBudget] is false whatever was spent. *)
Theorem getStatus_report
    (d : BudgetTracker.BudgetData) (month : option string) (now : string)
    (total : Double.double) :
  BudgetTracker.getMonthlySpend d month now = Normal total ->
  let cap := BudgetTracker.monthlyCap d in
  exists st r,
    BudgetTracker.getStatus d month now = Normal st /\
    BudgetTracker.spent st = Double.div r Double.hundred /\
    Double.roundsTo (Double.mul total Double.hundred) r /\
    (Double.gt cap Double.zero = true ->
       (exists r',
          BudgetTracker.remaining st = Double.div r' Double.hundred /\
          Double.roundsTo
            (Double.mul (Double.sub cap total) Double.hundred) r') /\
       BudgetTracker.overBudget st = Double.gt total cap) /\
    (Double.gt cap Double.zero = false ->
       BudgetTracker.remaining st = Double.ofZ (-1) /\
       BudgetTracker.overBudget st = false).
Proof.
  intros Hs cap. unfold BudgetTracker.getStatus.
  assert (Hs' : BudgetTracker.getMonthlySpend d
                  (Some (BudgetTracker.monthOr month now)) now = Normal total).
  { unfold BudgetTracker.getMonthlySpend in *.
    now rewrite BudgetFacts.monthOr_idem. }
  rewrite Hs'. fold cap.
  eexists. exists (Double.round (Double.mul total Double.hundred)).
  split; [reflexivity|].
  cbn [BudgetTracker.spent BudgetTracker.remaining BudgetTracker.overBudget].
  split; [reflexivity|].
  split; [apply DoubleFacts.round_mul_roundsTo|]. split.
  - intros Hcap. rewrite Hcap. cbn [andb]. split; [|reflexivity].
    exists (Double.round (Double.mul (Double.sub cap total) Double.hundred)).
    split; [reflexivity|apply DoubleFacts.round_mul_roundsTo].
  - intros Hcap. rewrite Hcap. split; reflexivity.
Qed.

Lemma getStatus_report_witness :
  let d := {| BudgetTracker.monthlyCap := Double.ofZ 20;
              BudgetTracker.entries :=
                [("2026-03",
                  [BudgetTracker.newEntry "bob" (Double.ofZ 15)
                     (Double.div (Double.ofZ 1234) (Double.ofZ 1000))
                     "2026-03-01T09:00:00.000Z"])] |} in
  exists st r,
    BudgetTracker.getStatus d (Some "2026-03") "2026-03-05T00:00:00.000Z"
      = Normal st /\
    BudgetTracker.spent st = Double.div r Double.hundred /\
    BudgetTracker.overBudget st = false.
Proof.
  cbv zeta.
  destruct (BudgetTracker.getMonthlySpend
              {| BudgetTracker.monthlyCap := Double.ofZ 20;
                 BudgetTracker.entries :=
                   [("2026-03",
                     [BudgetTracker.newEntry "bob" (Double.ofZ 15)
                        (Double.div (Double.ofZ 1234) (Double.ofZ 1000))
                        "2026-03-01T09:00:00.000Z"])] |}
              (Some "2026-03") "2026-03-05T00:00:00.000Z")
    as [total|m] eqn:Hs; [|exfalso; vm_compute in Hs; discriminate Hs].
  destruct (getStatus_report _ _ _ _ Hs)
    as (st & r & Hst & Hspent & _ & Hpos & _).
  exists st, r. split; [exact Hst|]. split; [exact Hspent|].
  destruct (Hpos eq_refl) as [_ Hover]. rewrite Hover.
  vm_compute in Hs. injection Hs as <-. vm_compute. reflexivity.
Defined.

(** X17 (a month named like an inherited property): asked for a month
    whose name is a property every object inherits, such as
    constructor, and for which the ledger has no entry of its own,
    [getStatus] throws instead of reporting an empty month, while
    [isOverBudget] without a positive cap still answers no. *)
Theorem getStatus_inherited_month_throws
    (d : BudgetTracker.BudgetData) (m : string) (now : string) :
  assoc m (BudgetTracker.entries d) = None ->
  assoc m OBJECT_PROTOTYPE <> None ->
  (exists e, BudgetTracker.getStatus d (Some m) now = Throw e) /\
  (exists e, BudgetTracker.getMonthlySpend d (Some m) now = Throw e) /\
  (Double.le (BudgetTracker.monthlyCap d) Double.zero = true ->
     forall c, BudgetTracker.isOverBudget d c (Some m) now = Normal false).
Proof.
  intros Hown Hproto.
  assert (Ht : Str.truthy m = true).
  { destruct m; [|reflexivity]. exfalso. apply Hproto. reflexivity. }
  assert (Hat : BudgetTracker.entriesAt d m = BudgetTracker.Inherited).
  { unfold BudgetTracker.entriesAt. rewrite Hown.
    destruct (assoc m OBJECT_PROTOTYPE); [reflexivity|congruence]. }
  assert (Hsp : BudgetTracker.getMonthlySpend d (Some m) now
                = Throw "entries.reduce is not a function").
  { unfold BudgetTracker.getMonthlySpend, BudgetTracker.monthOr.
    now rewrite Ht, Hat. }
  split; [|split].
  - unfold BudgetTracker.getStatus.
    replace (BudgetTracker.monthOr (Some m) now) with m
      by (unfold BudgetTracker.monthOr; now rewrite Ht).
    rewrite Hsp. eexists; reflexivity.
  - eexists; exact Hsp.
  - intros Hle c. unfold BudgetTracker.isOverBudget. now rewrite Hle.
Qed.

Lemma getStatus_inherited_month_throws_witness :
  exists e,
    BudgetTracker.getStatus
      {| BudgetTracker.monthlyCap := Double.ofZ 0; BudgetTracker.entries := [] |}
      (Some "constructor") "2026-03-05T00:00:00.000Z" = Throw e.
Proof.
  refine (proj1 (getStatus_inherited_month_throws
                   {| BudgetTracker.monthlyCap := Double.ofZ 0;
                      BudgetTracker.entries := [] |}
                   "constructor" "2026-03-05T00:00:00.000Z" eq_refl _)).
  discriminate.
Defined.
(** ** Comparing experts *)

Lemma username_scoreExpert (e : ExpertProfile) :
  username (scoreExpert e) = username e.
Proof. reflexivity. Qed.

Lemma viewProfileAt_ok pathname v u p :
  viewProfileAt pathname v u = Normal (ViewOk p) ->
  exists uname page,
    normalizeUsername pathname u = Normal uname /\
    loaded v = Normal (PageReady page) /\
    p = scoreExpert (extractProfile page uname).
Proof.
  unfold viewProfileAt.
  destruct (connected v); [|discriminate].
  destruct (normalizeUsername pathname u) as [uname|]; [|discriminate].
  destruct (loaded v) as [[|page]|]; cbn [viewProfile]; try discriminate.
  intros [= <-]. now exists uname, page.
Qed.

(** What the loop has done when it runs to its end. *)
Lemma loadProfiles_ok pathname visits usernames :
  forall i acc profiles,
    loadProfiles pathname visits i usernames acc = Normal (inr profiles) ->
    exists new,
      profiles = (acc ++ new)%list /\
      length new = length usernames /\
      forall k u, usernames !! k = Some u ->
        exists p, new !! k = Some p /\
          viewProfileAt pathname (visits (i + k)%nat) u = Normal (ViewOk p).
Proof.
  induction usernames as [|u rest IH]; intros i acc profiles; cbn [loadProfiles].
  - intros [= <-]. exists []. rewrite app_nil_r. repeat split.
    intros k u Hk. destruct k; discriminate.
  - destruct (viewProfileAt pathname (visits i) u) as [[msg|p]|] eqn:Hv;
      try discriminate.
    intros H. destruct (IH _ _ _ H) as (new & -> & Hlen & Hall).
    exists (p :: new). rewrite <- app_assoc. split; [reflexivity|].
    split; [cbn [length]; now rewrite Hlen|].
    intros [|k] u' Hk.
    + injection Hk as <-. exists p. split; [reflexivity|].
      now rewrite Nat.add_0_r.
    + destruct (Hall k u' Hk) as (p' & Hp' & Hv').
      exists p'. split; [exact Hp'|].
      now replace (i + S k)%nat with (S i + k)%nat by lia.
Qed.

(** What the loop answers when the visits go well up to the [k]-th and
    the [k]-th does not. *)
Lemma loadProfiles_stops pathname visits usernames :
  forall i acc k u,
    usernames !! k = Some u ->
    (forall j v, (j < k)%nat -> usernames !! j = Some v ->
       exists p, viewProfileAt pathname (visits (i + j)%nat) v = Normal (ViewOk p)) ->
    (forall message,
       viewProfileAt pathname (visits (i + k)%nat) u = Normal (ViewError message) ->
       loadProfiles pathname visits i usernames acc
       = Normal (inl ("Failed to load profile for " ++ quoted u ++ ": "
                      ++ message)%string)) /\
    (forall m,
       viewProfileAt pathname (visits (i + k)%nat) u = Throw m ->
       loadProfiles pathname visits i usernames acc = Throw m).
Proof.
  induction usernames as [|u0 rest IH]; intros i acc k u Hk Hbefore;
    [destruct k; discriminate|].
  destruct k as [|k].
  - injection Hk as ->. rewrite Nat.add_0_r. cbn [loadProfiles].
    split; intros ? ->; reflexivity.
  - cbn [loadProfiles].
    destruct (Hbefore 0%nat u0 ltac:(lia) eq_refl) as (p & Hp).
    rewrite Nat.add_0_r in Hp. rewrite Hp.
    replace (i + S k)%nat with (S i + k)%nat by lia.
    apply IH; [exact Hk|].
    intros j v Hj Hv. replace (S i + j)%nat with (i + S j)%nat by lia.
    apply Hbefore; [lia|exact Hv].
Qed.

Lemma numLe_refl (a : number) : a <> NaN -> numLe a a.
Proof. destruct a; [congruence|]. intros _. cbn. lra. Qed.

(** The head of the sorted copy: the first of the profiles with the
    highest score. *)
Lemma sortBy_compareBest_head (l : list ExpertProfile) :
  Forall (fun p => scoreOr p <> NaN) l ->
  forall b rest, sortBy compareBest l = b :: rest ->
  exists j,
    l !! j = Some b /\
    (forall p, In p l -> numLe (scoreOr p) (scoreOr b)) /\
    (forall i p, (i < j)%nat -> l !! i = Some p -> numLt (scoreOr p) (scoreOr b)).
Proof.
  induction l as [|x l IH]; intros Hnum b rest; [discriminate|].
  apply Forall_cons in Hnum as [Hx Hl].
  cbn [sortBy foldr]. fold (sortBy compareBest l).
  destruct (sortBy compareBest l) as [|y s] eqn:Hs.
  - assert (l = []) as ->.
    { apply Permutation_nil. rewrite <- Hs.
      apply sortBy_Permutation. }
    cbn [insertBy]. intros [= <- <-]. exists 0%nat.
    split; [reflexivity|]. split.
    + intros p [<-|[]]. now apply numLe_refl.
    + intros i p Hi. lia.
  - destruct (IH Hl y s eq_refl) as (j & Hj & Hmax & Hfirst).
    assert (Hy : scoreOr y <> NaN).
    { rewrite Forall_forall in Hl. apply Hl.
      apply list_elem_of_lookup_2 in Hj. exact Hj. }
    cbn [insertBy]. unfold compareBest at 1.
    destruct (scoreOr x) as [|sx] eqn:Ex; [congruence|].
    destruct (scoreOr y) as [|sy] eqn:Ey; [congruence|].
    cbn [JsNum.sub]. unfold JsNum.gt, JsNum.lt.
    destruct (Qle_bool (sy - sx) 0) eqn:E; cbn [negb].
    + apply Qle_bool_iff in E. intros [= <- <-]. exists 0%nat.
      split; [reflexivity|]. rewrite Ex. split.
      * intros p [<-|Hp]; [rewrite Ex; cbn; lra|].
        specialize (Hmax p Hp).
        destruct (scoreOr p); cbn in *; [exact Hmax|lra].
      * intros i p Hi. lia.
    + assert (Hlt : (sx < sy)%Q).
      { destruct (Qlt_le_dec sx sy) as [Hl'|Hl']; [exact Hl'|].
        assert (H : Qle_bool (sy - sx) 0 = true) by (apply Qle_bool_iff; lra).
        congruence. }
      intros [= <- <-]. exists (S j). split; [exact Hj|]. rewrite Ey. split.
      * intros p [<-|Hp]; [rewrite Ex; cbn; lra|].
        exact (Hmax p Hp).
      * intros [|i] p Hi Hp.
        -- injection Hp as <-. rewrite Ex. exact Hlt.
        -- exact (Hfirst i p ltac:(lia) Hp).
Qed.

Lemma compareExperts_ok pathname visits experts profiles best :
  compareExperts pathname visits experts = Normal (CompareOk profiles best) ->
  (2 <= length (requestedNames experts) <= 3)%nat /\
  loadProfiles pathname visits 0 (requestedNames experts) []
  = Normal (inr profiles) /\
  exists rest, sortBy compareBest profiles = best :: rest.
Proof.
  unfold compareExperts.
  destruct (Nat.ltb_spec (length (requestedNames experts)) 2) as [|H2];
    [discriminate|].
  destruct (Nat.ltb_spec 3 (length (requestedNames experts))) as [|H3];
    [discriminate|].
  cbn [orb].
  destruct (loadProfiles pathname visits 0 (requestedNames experts) [])
    as [[msg|ps]|]; try discriminate.
  destruct (sortBy compareBest ps) as [|b rest] eqn:Hs; [discriminate|].
  intros [= <- <-]. split; [lia|]. split; [reflexivity|].
  now exists rest.
Qed.

(** X18 (the profiles of a comparison): when [compareExperts] answers
    with profiles, two or three names were asked for, and the profiles
    are, in the order of the names, what [viewProfile] returned for each
    name on its visit; each carries the normalised name and a value
    score. *)
Theorem compareExperts_profiles
    (pathname : string -> completion string) (visits : nat -> Visit)
    (experts : string) (profiles : list ExpertProfile) (best : ExpertProfile) :
  compareExperts pathname visits experts = Normal (CompareOk profiles best) ->
  length profiles = length (requestedNames experts) /\
  (2 <= length profiles <= 3)%nat /\
  forall k u, requestedNames experts !! k = Some u ->
    exists p uname,
      profiles !! k = Some p /\
      viewProfileAt pathname (visits k) u = Normal (ViewOk p) /\
      normalizeUsername pathname u = Normal uname /\
      username p = uname /\
      url p = ("https://clarity.fm/" ++ uname)%string /\
      valueScore p <> None.
Proof.
  intros H. destruct (compareExperts_ok _ _ _ _ _ H) as (Hlen & Hload & _).
  destruct (loadProfiles_ok _ _ _ _ _ _ Hload) as (new & Hps & Hnew & Hall).
  cbn [app] in Hps. subst new.
  split; [exact Hnew|]. split; [lia|].
  intros k u Hk. destruct (Hall k u Hk) as (p & Hp & Hv).
  cbn [Nat.add] in Hv.
  destruct (viewProfileAt_ok _ _ _ _ Hv) as (uname & page & Hn & _ & ->).
  exists (scoreExpert (extractProfile page uname)), uname.
  repeat split; try assumption.
  unfold scoreExpert; cbn [valueScore].
  unfold extractProfile; cbn [reviewCount rating rate].
  unfold calculateValueScore. destruct (JsNum.le _ _); discriminate.
Qed.

Lemma compareExperts_profiles_witness :
  exists p,
    [username p] = ["bob"] /\
    exists profiles best,
      compareExperts Sample3.noUrl Sample3.visits "jane, @bob"
      = Normal (CompareOk profiles best) /\
      profiles !! 1%nat = Some p.
Proof.
  destruct (compareExperts_profiles Sample3.noUrl Sample3.visits "jane, @bob"
              _ _ eq_refl) as (_ & _ & Hall).
  destruct (Hall 1%nat "@bob" eq_refl) as (p & uname & Hp & _ & Hn & Hu & _).
  exists p. split.
  - rewrite Hu. injection Hn as <-. reflexivity.
  - do 2 eexists. split; [reflexivity|exact Hp].
Defined.

(** X19 (the best value): when the scores of the profiles are numbers,
    [bestValue] is one of the profiles, no profile has a higher score,
    and every profile asked for before it has a strictly lower score: of
    several profiles with the highest score the first one asked for is
    reported. *)
Theorem compareExperts_bestValue
    (pathname : string -> completion string) (visits : nat -> Visit)
    (experts : string) (profiles : list ExpertProfile) (best : ExpertProfile) :
  compareExperts pathname visits experts = Normal (CompareOk profiles best) ->
  Forall (fun p => scoreOr p <> NaN) profiles ->
  exists j,
    profiles !! j = Some best /\
    (forall p, In p profiles -> numLe (scoreOr p) (scoreOr best)) /\
    (forall i p, (i < j)%nat -> profiles !! i = Some p ->
       numLt (scoreOr p) (scoreOr best)).
Proof.
  intros H Hnum. destruct (compareExperts_ok _ _ _ _ _ H) as (_ & _ & rest & Hs).
  exact (sortBy_compareBest_head profiles Hnum best rest Hs).
Qed.

Lemma compareExperts_bestValue_witness :
  exists profiles best j,
    compareExperts Sample3.noUrl Sample3.visits "jane, @bob"
    = Normal (CompareOk profiles best) /\
    profiles !! j = Some best /\
    forall p, In p profiles -> numLe (scoreOr p) (scoreOr best).
Proof.
  pose proof (compareExperts_bestValue Sample3.noUrl Sample3.visits
                "jane, @bob" _ _ eq_refl) as H.
  destruct H as (j & Hj & Hmax & _).
  - repeat constructor; vm_compute; discriminate.
  - do 2 eexists. exists j. split; [reflexivity|]. split; [exact Hj|exact Hmax].
Defined.

(** X20 (a profile that cannot be loaded ends the comparison): when the
    visits before the one for a name went well and that visit reports
    an error, the answer is an error naming that name as it was given,
    whatever later visits would have brought; when that visit throws,
    so does [compareExperts]. *)
Theorem compareExperts_first_failure
    (pathname : string -> completion string) (visits : nat -> Visit)
    (experts : string) (k : nat) (u : string) :
  (2 <= length (requestedNames experts) <= 3)%nat ->
  requestedNames experts !! k = Some u ->
  (forall j v, (j < k)%nat -> requestedNames experts !! j = Some v ->
     exists p, viewProfileAt pathname (visits j) v = Normal (ViewOk p)) ->
  (forall message,
     viewProfileAt pathname (visits k) u = Normal (ViewError message) ->
     compareExperts pathname visits experts
     = Normal (CompareError ("Failed to load profile for " ++ quoted u ++ ": "
                             ++ message)%string)) /\
  (forall m,
     viewProfileAt pathname (visits k) u = Throw m ->
     compareExperts pathname visits experts = Throw m).
Proof.
  intros Hlen Hk Hbefore.
  destruct (loadProfiles_stops pathname visits (requestedNames experts)
              0%nat [] k u Hk Hbefore) as (Herr & Hthrow).
  unfold compareExperts.
  destruct (Nat.ltb_spec (length (requestedNames experts)) 2) as [|H2]; [lia|].
  destruct (Nat.ltb_spec 3 (length (requestedNames experts))) as [|H3]; [lia|].
  cbn [orb]. split.
  - intros message Hm. now rewrite (Herr message Hm).
  - intros m Hm. now rewrite (Hthrow m Hm).
Qed.

Lemma compareExperts_first_failure_witness :
  exists message,
    compareExperts Sample3.noUrl Sample3.visitsSecondMissing "jane,bob"
    = Normal (CompareError message).
Proof.
  eexists.
  refine (proj1 (compareExperts_first_failure Sample3.noUrl
                   Sample3.visitsSecondMissing "jane,bob" 1%nat "bob" _ eq_refl _)
            _ eq_refl).
  - vm_compute. lia.
  - intros [|j] v Hj Hv; [|lia]. injection Hv as <-. eexists. reflexivity.
Defined.
(** ** Filling the booking form *)

Section KeepsSession.

Context {A B : Type}.

Lemma keeps_ret (a : A) : keepsSession (ret a).
Proof. intros w. reflexivity. Qed.

Lemma keeps_lift (c : completion A) : keepsSession (lift c).
Proof. intros w. reflexivity. Qed.

Lemma keeps_ask (e : Event) (c : completion A) : keepsSession (ask e c).
Proof. intros w. reflexivity. Qed.

Lemma keeps_bind (c : M A) (k : A -> M B) :
  keepsSession c -> (forall a, keepsSession (k a)) -> keepsSession (bind c k).
Proof.
  intros Hc Hk w. unfold bind. specialize (Hc w).
  destruct (c w) as [[a|m] w1]; cbn [snd] in *; [|exact Hc].
  now rewrite Hk.
Qed.

Lemma keeps_catch (c : M A) (h : string -> M A) :
  keepsSession c -> (forall m, keepsSession (h m)) -> keepsSession (catch c h).
Proof.
  intros Hc Hh w. unfold catch. specialize (Hc w).
  destruct (c w) as [[a|m] w1]; cbn [snd] in *; [exact Hc|].
  now rewrite Hh.
Qed.

End KeepsSession.

Ltac keeps :=
  repeat first
    [ apply keeps_ret | apply keeps_lift | apply keeps_ask
    | apply keeps_bind; [|intros ?] | apply keeps_catch; [|intros ?]
    | assumption
    | match goal with
      | |- keepsSession (if ?x then _ else _) => destruct x
      | |- keepsSession (match ?x with _ => _ end) => destruct x
      end ].

Module FillFacts.
Import FillBooking.

Lemma keeps_clickCookie (b : Browser) (selectors : list string) :
  keepsSession (clickCookie b selectors).
Proof. induction selectors as [|s rest IH]; cbn [clickCookie]; keeps. Qed.

Lemma keeps_dismissCookieBanners (pg : BookingPage) :
  keepsSession (dismissCookieBanners pg).
Proof. unfold dismissCookieBanners. keeps; apply keeps_clickCookie. Qed.

Lemma keeps_clickBooking (b : Browser) (selectors : list string) (flag : bool) :
  keepsSession (clickBooking b selectors flag).
Proof.
  revert flag. induction selectors as [|s rest IH]; intros flag;
    cbn [clickBooking]; keeps. apply IH.
Qed.

Lemma keeps_fillDuration (pg : BookingPage) (minutes : number) :
  keepsSession (fillDuration pg minutes).
Proof. unfold fillDuration. keeps. Qed.

Lemma keeps_fillFirst (pg : BookingPage) (selectors : list string) (v : string) :
  keepsSession (fillFirst pg selectors v).
Proof. induction selectors as [|s rest IH]; cbn [fillFirst]; keeps. Qed.

Lemma keeps_fillSlotsFrom (pg : BookingPage) (slots : list string) :
  forall i inputs, keepsSession (fillSlotsFrom pg i slots inputs).
Proof.
  induction slots as [|s rest IH]; intros i [|n]; cbn [fillSlotsFrom]; keeps.
  apply IH.
Qed.

Lemma keeps_fillSlots (pg : BookingPage) (slots : list string) :
  keepsSession (fillSlots pg slots).
Proof. unfold fillSlots. keeps; apply keeps_fillSlotsFrom. Qed.

Lemma keeps_takeShot (b : Browser) (path : string) : keepsSession (takeShot b path).
Proof. unfold takeShot. keeps. Qed.

Lemma records_bind {T : Type} (u : string) (c : M T) (k : T -> M FillResult) :
  keepsSession c -> (forall a, recordsOnSuccess u (k a)) ->
  recordsOnSuccess u (bind c k).
Proof.
  intros Hc Hk w. unfold bind. specialize (Hc w).
  destruct (c w) as [[a|m] w1]; cbn [snd] in *; [|exact Hc].
  specialize (Hk a w1). rewrite Hc in Hk. exact Hk.
Qed.

Lemma records_error {T : Type} (u : string) (c : M T) (message shot : string) :
  keepsSession c ->
  recordsOnSuccess u (bind c (fun _ => ret (FillError message shot))).
Proof.
  intros Hc w. unfold bind, ret. specialize (Hc w).
  destruct (c w) as [[a|m] w1]; exact Hc.
Qed.

Lemma records_final (u : string) (r : FillBookingResult) :
  recordsOnSuccess u
    (bind (updateSession [("bookingFilled", JBool true);
                          ("currentExpert", JString u)])
          (fun _ => ret (FillOk r))).
Proof.
  intros [f tr]. unfold bind, updateSession, readSessionFile, lift, emit,
    setSessionFile, ret. cbn [sessionFile trace].
  destruct f as [| | |v]; cbn [existsSync readJson]; try reflexivity.
  destruct v; reflexivity.
Qed.

End FillFacts.

Module FillRun.
Import FillBooking FillFacts.

Lemma fillForm_records pg cfg options u :
  recordsOnSuccess u (fillForm pg cfg options u).
Proof.
  unfold fillForm.
  apply records_bind; [keeps|intros _].
  apply records_bind; [keeps|intros _].
  apply records_bind; [apply keeps_dismissCookieBanners|intros _].
  apply records_bind; [keeps|intros text].
  apply records_bind; [keeps|intros shownName].
  apply records_bind; [apply keeps_clickBooking|intros clicked].
  destruct clicked; cbn [negb].
  - apply records_bind; [keeps|intros _].
    apply records_bind; [apply keeps_fillDuration|intros _].
    apply records_bind;
      [destruct (topic options) as [t|];
       [destruct (Str.truthy t); [apply keeps_fillFirst|keeps]|keeps]
      |intros _].
    apply records_bind; [apply keeps_fillFirst|intros _].
    apply records_bind; [apply keeps_fillSlots|intros _].
    apply records_bind; [apply keeps_takeShot|intros _].
    apply records_final.
  - apply records_error. apply keeps_takeShot.
Qed.

(** One call of [fillBooking]: it throws with the log-in or with the
    user name, or it is [fillForm] in the world the log-in left. *)
Lemma fillBooking_eq pre pathname pg cfg options w :
  fillBooking pre pathname pg cfg options w
  = match pre w with
    | (Normal _, w1) =>
        match normalizeUsername pathname (expert options) with
        | Normal u => fillForm pg cfg options u w1
        | Throw m => (Throw m, w1)
        end
    | (Throw m, w1) => (Throw m, w1)
    end.
Proof.
  unfold fillBooking, bind, lift.
  destruct (pre w) as [[a|m] w1]; [|reflexivity].
  destruct (normalizeUsername pathname (expert options)); reflexivity.
Qed.

Lemma answers_bind {T A : Type} (Q : A -> Prop) (c : M T) (k : T -> M A) :
  (forall a, answers Q (k a)) -> answers Q (bind c k).
Proof.
  intros Hk w r w'. unfold bind.
  destruct (c w) as [[a|m] w1]; [apply Hk|discriminate].
Qed.

Lemma answers_ask {T A : Type} (Q : A -> Prop) (e : Event) (c : completion T)
    (k : T -> M A) :
  (forall a, c = Normal a -> answers Q (k a)) -> answers Q (bind (ask e c) k).
Proof.
  intros Hk w r w'. unfold bind, ask.
  destruct c as [a|m]; [now apply Hk|discriminate].
Qed.

Lemma answers_after {T A : Type} (Q : A -> Prop) (c : M T) (k : T -> M A)
    (a0 : T) :
  (forall w, exists w', c w = (Normal a0, w')) ->
  answers Q (k a0) -> answers Q (bind c k).
Proof.
  intros Hc Hk w r w'. unfold bind.
  destruct (Hc w) as (w1 & ->). apply Hk.
Qed.

Lemma answers_ret {A : Type} (Q : A -> Prop) (a : A) : Q a -> answers Q (ret a).
Proof. intros Ha w r w' [= <- _]. exact Ha. Qed.

(** The loop over the booking buttons never throws, and ends with the
    flag set exactly when it began so or one of the buttons could be
    clicked. *)
Lemma clickBooking_result (b : Browser) (selectors : list string) :
  forall flag w, exists w',
    clickBooking b selectors flag w
    = (Normal (flag || existsb (canClick b) selectors), w').
Proof.
  induction selectors as [|s rest IH]; intros flag w; cbn [clickBooking existsb].
  - exists w. unfold ret. now rewrite orb_false_r.
  - unfold canClick at 1.
    unfold bind at 1, catch at 1, bind at 1, ask at 1.
    destruct (querySelector b s) as [[|]|m1]; cbn [fst snd].
    + unfold bind at 1, ask at 1.
      destruct (click b s) as [[]|m2]; cbn [fst snd orb].
      * replace (flag || true) with (true || existsb (canClick b) rest)
          by (now rewrite orb_true_r).
        unfold catch, bind at 1, ask, ret.
        destruct (waitForTimeout b) as [[]|m3]; cbn [fst snd].
        -- eexists. reflexivity.
        -- apply IH.
      * unfold ret; cbn [fst snd]. apply IH.
    + unfold ret; cbn [fst snd]. apply IH.
    + unfold ret; cbn [fst snd]. apply IH.
Qed.


Lemma fillForm_answers pg cfg options u :
  answers (fillFormAnswer pg cfg options u) (fillForm pg cfg options u).
Proof.
  unfold fillForm.
  apply answers_bind; intros _.
  apply answers_bind; intros _.
  apply answers_bind; intros _.
  apply answers_ask; intros text Htext.
  apply answers_bind; intros shownName.
  eapply answers_after; [intros w; apply clickBooking_result|].
  cbn [orb].
  destruct (existsb (canClick (browserOf pg)) bookingButtonSelectors) eqn:Hc;
    cbn [negb].
  - do 7 (apply answers_bind; intros _).
    apply answers_ret. unfold fillFormAnswer. rewrite Hc.
    cbn [bookedDuration estimatedCost costPerMinute budgetWarning
         expertProfileUrl].
    split; [reflexivity|]. split; [reflexivity|]. split; [reflexivity|].
    split; [exists text; split; [exact Htext|reflexivity]|].
    split; reflexivity.
  - apply answers_bind; intros _. apply answers_ret.
    unfold fillFormAnswer. rewrite Hc. split; reflexivity.
Qed.

End FillRun.
(** ** Filling, then submitting *)

Lemma submitTail_not_guard (b : Browser) (session : json) (w : World) :
  fst (submitTail b session w) <> Normal noBookingError.
Proof.
  unfold submitTail, catch, bind, noBookingError.
  destruct (clickSubmit_run b submitSelectors w) as (sub & new1 & Hrun & _).
  rewrite Hrun. clear Hrun.
  unfold updateSession, takeShot.
  unfold ask, emit, ret, bind, readSessionFile, lift, setSessionFile.
  cbn [sessionFile trace].
  destruct sub; cbn [negb].
  - destruct (waitForTimeout b) as [[]|m1]; cbn [sessionFile trace];
      [|destruct (screenshot b) as [[]|]; cbn [fst]; discriminate].
    destruct (querySelector b paymentSelector) as [[|]|m2];
      cbn [sessionFile trace];
      [destruct (screenshot b) as [[]|]; cbn [fst]; discriminate
      |
      |destruct (screenshot b) as [[]|]; cbn [fst]; discriminate].
    destruct (screenshot b) as [[]|m3]; cbn [sessionFile trace];
      [|cbn [fst]; discriminate].
    destruct (evaluate b) as [conf|m4]; cbn [sessionFile trace];
      [|cbn [fst]; discriminate].
    destruct (sessionFile w) as [| | |v];
      cbn [existsSync readJson sessionFile trace];
      try (cbn [fst]; discriminate).
    destruct v; cbn [assignFields sessionFile trace fst]; discriminate.
  - destruct (screenshot b) as [[]|]; cbn [fst]; discriminate.
Qed.

(** With a session whose [bookingFilled] is set, [submitBooking] does
    not answer with the no-booking error. *)
Lemma submitBooking_past_guard (b : Browser) (w : World)
    (fields : list (string * json)) :
  sessionFile w = Json (JObject fields) ->
  assoc "bookingFilled" fields = Some (JBool true) ->
  fst (submitBooking b w) <> Normal noBookingError.
Proof.
  intros Hf Hb. rewrite submitBooking_eq, Hf.
  cbn [getSession existsSync negb readJson tryCatch field].
  rewrite Hb. cbn [jsonTruthy negb].
  destruct (ensureBrowser b w) as [[[]|m] w1]; cbn [fst].
  - apply submitTail_not_guard.
  - discriminate.
Qed.

(** X21 (a filled form is recorded): when [fillBooking] answers with
    success and the session file, as the log-in left it, holds an
    object, then the file holds that object with [bookingFilled] set to
    true and [currentExpert] set to the normalised user name, its other
    properties unchanged; a [submitBooking] that follows does not answer
    that no form was filled. *)
Theorem fillBooking_records_booking
    (ensureLoggedIn : M unit) (pathname : string -> completion string)
    (pg : FillBooking.BookingPage) (cfg : FillBooking.Config)
    (options : FillBooking.FillBookingOptions) (w w' : World)
    (r : FillBooking.FillBookingResult) (fields : list (string * json)) :
  FillBooking.fillBooking ensureLoggedIn pathname pg cfg options w
  = (Normal (FillBooking.FillOk r), w') ->
  sessionFile (snd (ensureLoggedIn w)) = Json (JObject fields) ->
  exists fields' username,
    sessionFile w' = Json (JObject fields') /\
    normalizeUsername pathname (FillBooking.expert options) = Normal username /\
    assoc "bookingFilled" fields' = Some (JBool true) /\
    assoc "currentExpert" fields' = Some (JString username) /\
    (forall k, k <> "bookingFilled" -> k <> "currentExpert" ->
       assoc k fields' = assoc k fields) /\
    forall b, fst (submitBooking b w') <> Normal noBookingError.
Proof.
  intros Hrun Hf. rewrite FillRun.fillBooking_eq in Hrun.
  destruct (ensureLoggedIn w) as [[[]|m] w1]; [|discriminate].
  destruct (normalizeUsername pathname (FillBooking.expert options))
    as [u|m]; [|discriminate].
  pose proof (FillRun.fillForm_records pg cfg options u w1) as Hrec.
  rewrite Hrun in Hrec. cbn [snd] in Hf. rewrite Hf in Hrec.
  cbn [recorded] in Hrec.
  eexists _, u. split; [exact Hrec|]. split; [reflexivity|].
  assert (Hb : assoc "bookingFilled"
                 (setField "currentExpert" (JString u)
                    (setField "bookingFilled" (JBool true) fields))
               = Some (JBool true)).
  { rewrite assoc_setField_ne by discriminate. apply assoc_setField_eq. }
  split; [exact Hb|]. split; [apply assoc_setField_eq|]. split.
  - intros k Hk1 Hk2. now rewrite !assoc_setField_ne.
  - intros b. eapply submitBooking_past_guard; [exact Hrec|exact Hb].
Qed.

Lemma fillBooking_records_booking_witness :
  exists fields',
    sessionFile
      (snd (FillBooking.fillBooking Sample4.loggedIn Sample3.noUrl
              Sample4.janePage Sample4.config (Sample4.options 30)
              Sample2.sessionWorld))
    = Json (JObject fields') /\
    assoc "currentExpert" fields' = Some (JString "jane").
Proof.
  destruct (FillBooking.fillBooking Sample4.loggedIn Sample3.noUrl
              Sample4.janePage Sample4.config (Sample4.options 30)
              Sample2.sessionWorld) as [[[msg shot|r]|m] w'] eqn:Hrun;
    [exfalso; vm_compute in Hrun; discriminate Hrun
    |
    |exfalso; vm_compute in Hrun; discriminate Hrun].
  destruct (fillBooking_records_booking _ _ _ _ _ _ _ _ Sample2.sessionFields
              Hrun eq_refl) as (fields' & u & Hf & Hu & _ & Hc & _).
  vm_compute in Hu. injection Hu as <-.
  exists fields'. split; [exact Hf|exact Hc].
Defined.

(** X22 (a filled form without a session file): when the log-in leaves
    no session file, a [fillBooking] that answers with success records
    nothing, and a [submitBooking] that follows answers that no form
    was filled and touches nothing. *)
Theorem fillBooking_without_session_file
    (ensureLoggedIn : M unit) (pathname : string -> completion string)
    (pg : FillBooking.BookingPage) (cfg : FillBooking.Config)
    (options : FillBooking.FillBookingOptions) (w w' : World)
    (r : FillBooking.FillBookingResult) :
  FillBooking.fillBooking ensureLoggedIn pathname pg cfg options w
  = (Normal (FillBooking.FillOk r), w') ->
  sessionFile (snd (ensureLoggedIn w)) = Missing ->
  sessionFile w' = Missing /\
  forall b, submitBooking b w' = (Normal noBookingError, w').
Proof.
  intros Hrun Hf. rewrite FillRun.fillBooking_eq in Hrun.
  destruct (ensureLoggedIn w) as [[[]|m] w1]; [|discriminate].
  destruct (normalizeUsername pathname (FillBooking.expert options))
    as [u|m]; [|discriminate].
  pose proof (FillRun.fillForm_records pg cfg options u w1) as Hrec.
  rewrite Hrun in Hrec. cbn [snd] in Hf. rewrite Hf in Hrec.
  cbn [recorded] in Hrec. split; [exact Hrec|].
  intros b. apply submitBooking_guard. now rewrite Hrec.
Qed.

Lemma fillBooking_without_session_file_witness :
  sessionFile
    (snd (FillBooking.fillBooking Sample4.loggedIn Sample3.noUrl
            Sample4.janePage Sample4.config (Sample4.options 30)
            Sample4.noFileWorld))
  = Missing.
Proof.
  destruct (FillBooking.fillBooking Sample4.loggedIn Sample3.noUrl
              Sample4.janePage Sample4.config (Sample4.options 30)
              Sample4.noFileWorld) as [[[msg shot|r]|m] w'] eqn:Hrun;
    [exfalso; vm_compute in Hrun; discriminate Hrun
    |
    |exfalso; vm_compute in Hrun; discriminate Hrun].
  exact (proj1 (fillBooking_without_session_file _ _ _ _ _ _ _ _ Hrun eq_refl)).
Defined.

(** X23 (only a success writes the session): whenever [fillBooking]
    does not answer with success, because it throws or because it found
    no booking button, the session file is as the log-in left it; a
    [bookingFilled] set by an earlier call stays set. *)
Theorem fillBooking_failure_keeps_session
    (ensureLoggedIn : M unit) (pathname : string -> completion string)
    (pg : FillBooking.BookingPage) (cfg : FillBooking.Config)
    (options : FillBooking.FillBookingOptions) (w : World) :
  (forall r, fst (FillBooking.fillBooking ensureLoggedIn pathname pg cfg options w)
             <> Normal (FillBooking.FillOk r)) ->
  sessionFile (snd (FillBooking.fillBooking ensureLoggedIn pathname pg cfg options w))
  = sessionFile (snd (ensureLoggedIn w)).
Proof.
  intros Hno. rewrite FillRun.fillBooking_eq in *.
  destruct (ensureLoggedIn w) as [[[]|m] w1]; [|reflexivity].
  destruct (normalizeUsername pathname (FillBooking.expert options))
    as [u|m]; [|reflexivity].
  pose proof (FillRun.fillForm_records pg cfg options u w1) as Hrec.
  destruct (FillBooking.fillForm pg cfg options u w1) as [[[msg shot|r]|m] w'];
    cbn [fst snd] in *; try exact Hrec.
  exfalso. now apply (Hno r).
Qed.

Lemma fillBooking_failure_keeps_session_witness :
  sessionFile
    (snd (FillBooking.fillBooking Sample4.loggedIn Sample3.noUrl
            Sample4.noButtonPage Sample4.config (Sample4.options 30)
            Sample.filledWorld))
  = sessionFile Sample.filledWorld.
Proof.
  apply (fillBooking_failure_keeps_session Sample4.loggedIn Sample3.noUrl
           Sample4.noButtonPage Sample4.config (Sample4.options 30)
           Sample.filledWorld).
  intros r H. vm_compute in H. discriminate H.
Defined.




(** X25 (success needs a click): [fillBooking] answers with success
    only if one of the booking buttons was found and the click on it
    returned, and with the no-button error only if that holds for none
    of them; the error carries the screenshot taken. *)
Theorem fillBooking_needs_booking_button
    (ensureLoggedIn : M unit) (pathname : string -> completion string)
    (pg : FillBooking.BookingPage) (cfg : FillBooking.Config)
    (options : FillBooking.FillBookingOptions) (w w' : World)
    (res : FillBooking.FillResult) :
  FillBooking.fillBooking ensureLoggedIn pathname pg cfg options w
  = (Normal res, w') ->
  match res with
  | FillBooking.FillOk _ =>
      exists selector,
        In selector FillBooking.bookingButtonSelectors /\
        querySelector (FillBooking.browserOf pg) selector = Normal true /\
        click (FillBooking.browserOf pg) selector = Normal tt
  | FillBooking.FillError _ shot =>
      shot = shotPath (FillBooking.browserOf pg) "clarity-booking-no-button" /\
      forall selector,
        In selector FillBooking.bookingButtonSelectors ->
        querySelector (FillBooking.browserOf pg) selector = Normal true ->
        click (FillBooking.browserOf pg) selector <> Normal tt
  end.
Proof.
  intros Hrun. rewrite FillRun.fillBooking_eq in Hrun.
  destruct (ensureLoggedIn w) as [[[]|m] w1]; [|discriminate].
  destruct (normalizeUsername pathname (FillBooking.expert options))
    as [u|m]; [|discriminate].
  pose proof (FillRun.fillForm_answers pg cfg options u w1 _ _ Hrun) as Ha.
  destruct res as [msg shot|r]; cbn [fillFormAnswer] in Ha.
  - destruct Ha as (Hc & Hshot). split; [exact Hshot|].
    intros selector Hin Hq Hcl.
    assert (Ht : existsb (canClick (FillBooking.browserOf pg))
                   FillBooking.bookingButtonSelectors = true).
    { apply existsb_exists. exists selector. split; [exact Hin|].
      unfold canClick. now rewrite Hq, Hcl. }
    congruence.
  - destruct Ha as (Hc & _). apply existsb_exists in Hc.
    destruct Hc as (selector & Hin & Hcan). exists selector.
    split; [exact Hin|]. unfold canClick in Hcan.
    destruct (querySelector (FillBooking.browserOf pg) selector) as [[|]|];
      try discriminate.
    destruct (click (FillBooking.browserOf pg) selector) as [[]|];
      try discriminate.
    split; reflexivity.
Qed.

Lemma fillBooking_needs_booking_button_witness :
  exists selector,
    In selector FillBooking.bookingButtonSelectors /\
    querySelector (FillBooking.browserOf Sample4.janePage) selector = Normal true.
Proof.
  destruct (FillBooking.fillBooking Sample4.loggedIn Sample3.noUrl
              Sample4.janePage Sample4.config (Sample4.options 30)
              Sample2.sessionWorld) as [[[msg shot|r]|m] w'] eqn:Hrun;
    [exfalso; vm_compute in Hrun; discriminate Hrun
    |
    |exfalso; vm_compute in Hrun; discriminate Hrun].
  destruct (fillBooking_needs_booking_button _ _ _ _ _ _ _ _ Hrun)
    as (selector & Hin & Hq & _).
  exists selector. split; [exact Hin|exact Hq].
Defined.
(** ** Resolving a query *)

Lemma toLowerCase_app (s t : string) :
  Str.toLowerCase (s ++ t) = (Str.toLowerCase s ++ Str.toLowerCase t)%string.
Proof. induction s as [|c s IH]; cbn; [reflexivity|now rewrite IH]. Qed.

Lemma isSpace_not_upper (c : ascii) : Str.isSpace c = true -> Str.lowerChar c = c.
Proof.
  unfold Str.lowerChar, Str.isSpace, Str.isUpper. intros H.
  destruct ((65 <=? nat_of_ascii c)%nat && (nat_of_ascii c <=? 90)%nat) eqn:E;
    [|reflexivity].
  exfalso. apply andb_true_iff in E as [E1 E2].
  apply Nat.leb_le in E1, E2.
  apply orb_true_iff in H as [H|H].
  - apply andb_true_iff in H as [_ H]. apply Nat.leb_le in H. lia.
  - apply Nat.eqb_eq in H. lia.
Qed.

Lemma allChars_cons (f : ascii -> bool) (c : ascii) (s : string) :
  allChars f (String c s) = true -> f c = true /\ allChars f s = true.
Proof.
  unfold allChars. cbn [Str.dropWhile].
  destruct (f c); [now split|discriminate].
Qed.

Lemma toLowerCase_spaces (ws : string) :
  allChars Str.isSpace ws = true -> Str.toLowerCase ws = ws.
Proof.
  induction ws as [|c ws IH]; intros H; [reflexivity|].
  apply allChars_cons in H as [Hc Hws]. cbn [Str.toLowerCase].
  now rewrite (isSpace_not_upper c Hc), IH.
Qed.

Lemma trimStart_spaces (ws s : string) :
  allChars Str.isSpace ws = true -> Str.trimStart (ws ++ s) = Str.trimStart s.
Proof.
  induction ws as [|c ws IH]; intros H; [reflexivity|].
  apply allChars_cons in H as [Hc Hws]. cbn [append Str.trimStart].
  rewrite Hc. now apply IH.
Qed.

Lemma trimEnd_all_spaces (ws : string) :
  allChars Str.isSpace ws = true -> Str.trimEnd ws = EmptyString.
Proof.
  induction ws as [|c ws IH]; intros H; [reflexivity|].
  apply allChars_cons in H as [Hc Hws]. cbn [Str.trimEnd].
  now rewrite (IH Hws), Hc.
Qed.

Lemma trimEnd_spaces (s ws : string) :
  allChars Str.isSpace ws = true -> Str.trimEnd (s ++ ws) = Str.trimEnd s.
Proof.
  intros H. induction s as [|c s IH]; cbn [append Str.trimEnd].
  - now apply trimEnd_all_spaces.
  - now rewrite IH.
Qed.

Lemma trimStart_app_nonspace (s t : string) :
  Str.trimStart s <> EmptyString ->
  Str.trimStart (s ++ t) = (Str.trimStart s ++ t)%string.
Proof.
  induction s as [|c s IH]; cbn [append Str.trimStart]; [congruence|].
  destruct (Str.isSpace c); [exact IH|reflexivity].
Qed.

Lemma trimStart_all_spaces (s : string) :
  Str.trimStart s = EmptyString -> allChars Str.isSpace s = true.
Proof.
  unfold allChars. induction s as [|c s IH]; cbn [Str.trimStart Str.dropWhile];
    [reflexivity|].
  destruct (Str.isSpace c); [exact IH|discriminate].
Qed.

Lemma trimStart_only_spaces (ws : string) :
  allChars Str.isSpace ws = true -> Str.trimStart ws = EmptyString.
Proof.
  induction ws as [|c ws IH]; intros H; [reflexivity|].
  apply allChars_cons in H as [Hc Hws]. cbn [Str.trimStart].
  rewrite Hc. now apply IH.
Qed.

(** White space around a text does not survive [trim]. *)
Lemma trim_padding (pre s post : string) :
  allChars Str.isSpace pre = true -> allChars Str.isSpace post = true ->
  Str.trim (pre ++ s ++ post) = Str.trim s.
Proof.
  intros Hpre Hpost. unfold Str.trim. rewrite trimStart_spaces by exact Hpre.
  destruct (Str.trimStart s) as [|c r] eqn:E.
  - pose proof (trimStart_all_spaces s E) as Hs.
    rewrite (trimStart_spaces s post Hs).
    now rewrite (trimStart_only_spaces post Hpost).
  - rewrite trimStart_app_nonspace by (rewrite E; discriminate).
    rewrite E. now apply trimEnd_spaces.
Qed.

Lemma normalize_padding (pre q q' post : string) :
  allChars Str.isSpace pre = true -> allChars Str.isSpace post = true ->
  Str.toLowerCase q = Str.toLowerCase q' ->
  normalize (pre ++ q ++ post) = normalize q'.
Proof.
  intros Hpre Hpost Hq. unfold normalize.
  rewrite !toLowerCase_app, (toLowerCase_spaces pre Hpre),
    (toLowerCase_spaces post Hpost), Hq.
  now apply trim_padding.
Qed.

(** X26 (case and padding do not matter): two queries that differ only
    in the case of their letters and in white space around them resolve
    to the same address. *)
Theorem queryToBrowseUrl_ignores_case_and_padding (pre q q' post : string) :
  allChars Str.isSpace pre = true -> allChars Str.isSpace post = true ->
  Str.toLowerCase q = Str.toLowerCase q' ->
  queryToBrowseUrl (pre ++ q ++ post) = queryToBrowseUrl q'.
Proof.
  intros Hpre Hpost Hq. unfold queryToBrowseUrl.
  fold (normalize (pre ++ q ++ post)). fold (normalize q').
  now rewrite (normalize_padding pre q q' post Hpre Hpost Hq).
Qed.

Lemma queryToBrowseUrl_ignores_case_and_padding_witness :
  queryToBrowseUrl ("  " ++ "Email MARKETING" ++ " ")
  = queryToBrowseUrl "email marketing".
Proof.
  apply queryToBrowseUrl_ignores_case_and_padding; reflexivity.
Defined.

(** X27 (how a query resolves): for a query that, lower-cased and
    trimmed, is not the name of a property every object inherits, the
    address is that of the category whose key the query equals; failing
    that, that of a category whose key the query contains and than which
    no contained key is longer; failing that, the unfiltered browse
    page. *)
Theorem queryToBrowseUrl_resolution (query : string) :
  assoc (normalize query) OBJECT_PROTOTYPE = None ->
  match assoc (normalize query) CATEGORY_MAP with
  | Some path =>
      queryToBrowseUrl query = (CLARITY_BASE ++ "/browse/" ++ path)%string
  | None =>
      if existsb (fun kv => Str.includes (normalize query) (fst kv)) CATEGORY_MAP
      then
        exists key path,
          In (key, path) CATEGORY_MAP /\
          Str.includes (normalize query) key = true /\
          (forall key' path', In (key', path') CATEGORY_MAP ->
             Str.includes (normalize query) key' = true ->
             (String.length key' <= String.length key)%nat) /\
          queryToBrowseUrl query = (CLARITY_BASE ++ "/browse/" ++ path)%string
      else queryToBrowseUrl query = (CLARITY_BASE ++ "/browse")%string
  end.
Proof.
  intros Hproto.
  destruct (assoc (normalize query) CATEGORY_MAP) as [path|] eqn:Hown.
  - now apply queryToBrowseUrl_exact.
  - assert (Hnone : getProperty CATEGORY_MAP (normalize query) = None).
    { unfold getProperty. now rewrite Hown. }
    destruct (existsb _ CATEGORY_MAP) eqn:Hex.
    + now apply queryToBrowseUrl_partial.
    + now apply queryToBrowseUrl_fallback.
Qed.

Lemma queryToBrowseUrl_resolution_witness :
  exists key path,
    In (key, path) CATEGORY_MAP /\
    Str.includes "i need seo and email marketing help" key = true /\
    queryToBrowseUrl "I need SEO and email marketing help"
    = (CLARITY_BASE ++ "/browse/" ++ path)%string.
Proof.
  pose proof (queryToBrowseUrl_resolution "I need SEO and email marketing help"
                eq_refl) as H.
  destruct H as (key & path & Hin & Hinc & _ & Hurl).
  exists key, path. split; [exact Hin|]. split; [exact Hinc|exact Hurl].
Defined.
(** ** Acquiring the browser *)

(** X28 (the browser and the session file): [ensureBrowser] leaves the
    session file as it was, or removes it, or writes the record of a
    newly launched browser; it never marks a booking as filled.  When the
    recorded browser cannot be reconnected, the record is removed; a
    failure to remove it is swallowed.  So when the removal succeeds, or
    a browser is launched and recorded, a filled booking is forgotten and
    a [submitBooking] that follows answers that no form was filled; when
    the removal fails and no browser is recorded, the session file, with
    a filled booking, stays as it was. *)
Theorem ensureBrowser_session (b : Browser) (w : World) :
  let w' := snd (ensureBrowser b w) in
  (sessionFile w' = sessionFile w \/ sessionFile w' = Missing \/
   exists endpoint,
     wsEndpoint b = Some endpoint /\
     sessionFile w' = Json (freshSession b endpoint)) /\
  (notFilled (sessionFile w) -> notFilled (sessionFile w')) /\
  (reconnect b = ConnectFails ->
   unlinkSession b = Normal tt \/
   (launch b = Normal tt /\ wsEndpoint b <> None) ->
   notFilled (sessionFile w') /\
   forall b', submitBooking b' w' = (Normal noBookingError, w')) /\
  (reconnect b = ConnectFails ->
   unlinkSession b <> Normal tt -> wsEndpoint b = None ->
   sessionFile w' = sessionFile w).
Proof.
  cbv zeta.
  assert (H : (sessionFile (snd (ensureBrowser b w)) = sessionFile w \/
               sessionFile (snd (ensureBrowser b w)) = Missing \/
               exists endpoint,
                 wsEndpoint b = Some endpoint /\
                 sessionFile (snd (ensureBrowser b w))
                 = Json (freshSession b endpoint)) /\
              (reconnect b = ConnectFails ->
               unlinkSession b = Normal tt \/
               (launch b = Normal tt /\ wsEndpoint b <> None) ->
               notFilled (sessionFile (snd (ensureBrowser b w)))) /\
              (reconnect b = ConnectFails ->
               unlinkSession b <> Normal tt -> wsEndpoint b = None ->
               sessionFile (snd (ensureBrowser b w)) = sessionFile w)).
  { destruct w as [f tr].
    unfold ensureBrowser, bind, catch, emit, readSessionFile, lift, ret, raise,
      setSessionFile.
    cbn [sessionFile trace].
    destruct f as [| | |v]; cbn [existsSync readJson];
      try destruct v;
      destruct (reconnect b) eqn:Hrec;
      destruct (unlinkSession b) as [[]|mu] eqn:Hu;
      destruct (launch b) as [[]|m] eqn:Hl;
      destruct (wsEndpoint b) as [endpoint|] eqn:Hws;
      cbn [sessionFile trace snd];
      (split; [eauto|]);
      (split;
       [intros Hc [Hok|[Hok Hend]];
        try discriminate Hc; try discriminate Hok; try congruence;
        try exact I; reflexivity
       |intros Hc Hno Hend;
        try discriminate Hc; try discriminate Hend; try congruence;
        reflexivity]). }
  destruct H as (Hcases & Hgone & Hstays).
  split; [exact Hcases|]. split; [|split].
  - intros Hnf. destruct Hcases as [->|[->|(endpoint & _ & ->)]];
      [exact Hnf|exact I|reflexivity].
  - intros Hc Hok. split; [now apply Hgone|].
    intros b'. apply submitBooking_guard. now apply Hgone.
  - exact Hstays.
Qed.

Lemma ensureBrowser_session_witness :
  submitBooking Sample.browser
    (snd (ensureBrowser Sample5.browserGone Sample.filledWorld))
  = (Normal noBookingError,
     snd (ensureBrowser Sample5.browserGone Sample.filledWorld)) /\
  sessionFile (snd (ensureBrowser Sample5.browserStuck Sample.filledWorld))
  = sessionFile Sample.filledWorld.
Proof.
  split.
  - destruct (ensureBrowser_session Sample5.browserGone Sample.filledWorld)
      as (_ & _ & H & _).
    apply (H eq_refl (or_introl eq_refl)).
  - destruct (ensureBrowser_session Sample5.browserStuck Sample.filledWorld)
      as (_ & _ & _ & H).
    apply (H eq_refl); [discriminate|reflexivity].
Defined.
(** ** The dashboard *)



Lemma omap_none {A B : Type} (f : A -> option B) (l : list A) :
  (forall x, f x = None) -> omap f l = [].
Proof.
  intros Hf. induction l as [|x l IH]; [reflexivity|].
  change (omap f (x :: l)) with
    (match f x with Some y => y :: omap f l | None => omap f l end).
  now rewrite Hf.
Qed.

Module DashboardFacts.
Import Dashboard.




Lemma passes_unknown (filter status : string) :
  filter <> "all" -> filter <> "upcoming" -> filter <> "pending" ->
  filter <> "completed" -> passes filter status = false.
Proof.
  intros H1 H2 H3 H4. unfold passes.
  apply String.eqb_neq in H1, H2, H3, H4. now rewrite H1, H2, H3, H4.
Qed.

(** What every answer of [listCalls] satisfies. *)
Lemma listCalls_answers pre pg st :
  answers
    (fun r => exists q,
       document pg = Normal q /\
       calls r = extractCalls q (statusOrAll st) /\
       statusFilter r = statusOrAll st /\
       totalCalls r = length (calls r))
    (listCalls pre pg st).
Proof.
  unfold listCalls.
  do 6 (apply FillRun.answers_bind; intros _).
  apply FillRun.answers_ask; intros q Hq.
  apply FillRun.answers_ret. exists q. repeat split. exact Hq.
Qed.



End DashboardFacts.



(** X30 (a filter the code does not know): for a status other than
    all, upcoming, pending and completed (and other than the empty
    text, which stands for all), [listCalls] returns no call at all,
    whatever the page shows. *)
Theorem listCalls_unknown_filter
    (ensureLoggedIn : M unit) (pg : Dashboard.Page) (filter : string)
    (w w' : World) (r : Dashboard.ListResult) :
  filter <> EmptyString -> filter <> "all" -> filter <> "upcoming" ->
  filter <> "pending" -> filter <> "completed" ->
  Dashboard.listCalls ensureLoggedIn pg (Some filter) w = (Normal r, w') ->
  Dashboard.calls r = [] /\ Dashboard.totalCalls r = 0%nat /\
  Dashboard.statusFilter r = filter.
Proof.
  intros H0 H1 H2 H3 H4 Hrun.
  destruct (DashboardFacts.listCalls_answers ensureLoggedIn pg (Some filter)
              w r w' Hrun) as (q & Hq & Hcalls & Hfilter & Htotal).
  assert (Hs : Dashboard.statusOrAll (Some filter) = filter).
  { unfold Dashboard.statusOrAll. destruct filter; [congruence|reflexivity]. }
  rewrite Hs in *.
  assert (Hnil : Dashboard.calls r = []).
  { rewrite Hcalls. apply omap_none. intros e. unfold Dashboard.callOf.
    rewrite (DashboardFacts.passes_unknown filter _ H1 H2 H3 H4).
    now destruct (_ || _). }
  split; [exact Hnil|]. split; [now rewrite Htotal, Hnil|exact Hfilter].
Qed.

Lemma listCalls_unknown_filter_witness :
  exists r,
    fst (Dashboard.listCalls Sample4.loggedIn Sample6.dashboard (Some "cancelled")
           Sample2.sessionWorld) = Normal r /\
    Dashboard.calls r = [].
Proof.
  destruct (Dashboard.listCalls Sample4.loggedIn Sample6.dashboard
              (Some "cancelled") Sample2.sessionWorld) as [[r|m] w'] eqn:Hrun;
    [|exfalso; vm_compute in Hrun; discriminate Hrun].
  exists r. split; [reflexivity|].
  refine (proj1 (listCalls_unknown_filter _ _ "cancelled" _ _ _ _ _ _ _ _ Hrun));
    discriminate.
Defined.
